(** * WhisperServerManager: a shallow embedding of src/helpers/whisperServer.js

    The manager supervises one local [whisper-server] child process.  Its
    methods are [async] functions; here every method is cut at its [await]
    points into synchronous segments, and a world (manager object, child
    process objects, pending activations, clock) is stepped by events:
    callers invoking a method, the host answering a pending operation,
    a timer firing, a child emitting [close].  The order of the events of
    a run is the order in which the JavaScript event loop delivered them.

    Conventions.
    - What Node, the file system and the operating system answer is a
      parameter: the fields of [Host], and the payload of the events
      (whether a port bound, whether a health probe was answered).
    - References to objects are indices: [this.process] refers to an
      element of [children], [this.startupPromise] to an element of
      [doStarts].  Two references to the same index alias.
    - The continuation of [start] after each of its two awaits and the
      continuation of [stop] after its await are events of their own.
      The return of [waitForReady] into [_doStart] and the settling of
      [_doStart] are taken in one segment with the probe answer that
      causes them: no await of the host lies between them.
    - Strings are held as their UTF-8 bytes; [Buffer.from(s)] is the
      identity on them.  [trim] and [slice] work on the UTF-16 code units
      that these bytes stand for.
    - Logging ([debugLogger]) has no effect on the manager and is left
      out, as is the handling of the HTTP response of [transcribe], which
      no property below speaks about. *)

From Stdlib Require Import ZArith NArith Bool Lia Ascii String Strings.Byte DecimalString.
From stdpp Require Import base option list strings.
From Equations Require Import Equations.

Local Open Scope string_scope.
Local Open Scope list_scope.
Local Open Scope Z_scope.

(** ** Constants (whisperServer.js, lines 10-14) *)

Definition PORT_RANGE_START : Z := 8178.
Definition PORT_RANGE_END : Z := 8199.
Definition STARTUP_TIMEOUT_MS : Z := 30000.
Definition HEALTH_CHECK_INTERVAL_MS : Z := 5000.
Definition HEALTH_CHECK_TIMEOUT_MS : Z := 2000.
(** Local constant of [waitForReady]. *)
Definition STARTUP_POLL_INTERVAL_MS : Z := 100.
(** The grace period of [stop] (the literal 5000 of its [setTimeout]). *)
Definition STOP_GRACE_MS : Z := 5000.

(** ** JavaScript values *)

(** [String(n)] for an integer. *)
Definition string_of_Z (z : Z) : string := NilZero.string_of_int (Z.to_int z).

(** Truthiness of a value that is [null]/[undefined] or a string. *)
Definition truthy (o : option string) : bool :=
  match o with
  | Some s => negb (String.eqb s "")
  | None => false
  end.

(** [a || b] on strings. *)
Definition str_or (a b : string) : string :=
  if String.eqb a "" then b else a.

(** *** Strings as sequences of UTF-16 code units

    Text is held as its UTF-8 bytes.  The string operations that count
    or classify code units ([trim], [slice]) work on the sequence of
    UTF-16 code units of the text, which [js_units] reads off the bytes
    and [js_string] writes back.  A code unit that is half of a surrogate
    pair on its own (only [slice] can produce one, by cutting a pair) is
    written as the three bytes of its own number. *)

(** The UTF-8 bytes of a code point. *)
Definition utf8_bytes (cp : N) : list N :=
  (if cp <? 0x80 then [cp]
   else if cp <? 0x800 then [0xC0 + cp / 0x40; 0x80 + cp mod 0x40]
   else if cp <? 0x10000
        then [0xE0 + cp / 0x1000; 0x80 + (cp / 0x40) mod 0x40; 0x80 + cp mod 0x40]
        else [0xF0 + cp / 0x40000; 0x80 + (cp / 0x1000) mod 0x40;
              0x80 + (cp / 0x40) mod 0x40; 0x80 + cp mod 0x40])%N.

(** The UTF-16 code units of a code point: itself, or a surrogate pair. *)
Definition units_of_point (cp : N) : list N :=
  (if cp <? 0x10000 then [cp]
   else [0xD800 + (cp - 0x10000) / 0x400; 0xDC00 + (cp - 0x10000) mod 0x400])%N.

Definition is_continuation (b : N) : bool := ((0x80 <=? b) && (b <? 0xC0))%N.

(** The code units of a UTF-8 text.  A byte that begins no sequence is
    read as U+FFFD; the text of a decoded chunk has no such byte. *)
Fixpoint utf8_decode (bs : list N) : list N :=
  match bs with
  | [] => []
  | b0 :: r0 =>
      if (b0 <? 0x80)%N then b0 :: utf8_decode r0
      else if ((0xC0 <=? b0) && (b0 <? 0xE0))%N then
        match r0 with
        | b1 :: r1 =>
            if is_continuation b1
            then ((b0 mod 0x20) * 0x40 + b1 mod 0x40)%N :: utf8_decode r1
            else 0xFFFD%N :: utf8_decode r0
        | [] => [0xFFFD%N]
        end
      else if ((0xE0 <=? b0) && (b0 <? 0xF0))%N then
        match r0 with
        | b1 :: b2 :: r2 =>
            if is_continuation b1 && is_continuation b2
            then ((b0 mod 0x10) * 0x1000 + (b1 mod 0x40) * 0x40 + b2 mod 0x40)%N
                 :: utf8_decode r2
            else 0xFFFD%N :: utf8_decode r0
        | _ => 0xFFFD%N :: utf8_decode r0
        end
      else if ((0xF0 <=? b0) && (b0 <? 0xF8))%N then
        match r0 with
        | b1 :: b2 :: b3 :: r3 =>
            if is_continuation b1 && is_continuation b2 && is_continuation b3
            then units_of_point ((b0 mod 0x08) * 0x40000 + (b1 mod 0x40) * 0x1000
                                 + (b2 mod 0x40) * 0x40 + b3 mod 0x40)%N
                 ++ utf8_decode r3
            else 0xFFFD%N :: utf8_decode r0
        | _ => 0xFFFD%N :: utf8_decode r0
        end
      else 0xFFFD%N :: utf8_decode r0
  end.

Definition is_high (u : N) : bool := ((0xD800 <=? u) && (u <? 0xDC00))%N.
Definition is_low (u : N) : bool := ((0xDC00 <=? u) && (u <? 0xE000))%N.

(** The UTF-8 bytes of a sequence of code units: a high surrogate
    followed by a low one is one code point. *)
Fixpoint utf8_encode (us : list N) : list N :=
  match us with
  | [] => []
  | u :: rest =>
      match rest with
      | l :: rest' =>
          if is_high u && is_low l
          then utf8_bytes (0x10000 + (u - 0xD800) * 0x400 + (l - 0xDC00))%N
               ++ utf8_encode rest'
          else utf8_bytes u ++ utf8_encode rest
      | [] => utf8_bytes u
      end
  end.

Definition js_units (s : string) : list N :=
  utf8_decode (N_of_ascii <$> list_ascii_of_string s).

Definition js_string (us : list N) : string :=
  string_of_list_ascii (ascii_of_N <$> utf8_encode us).

(** [s.slice(0, n)]: the first [n] code units. *)
Definition slice0 (n : nat) (us : list N) : list N := take n us.

(** The code units removed by [trim]: WhiteSpace and LineTerminator of
    ECMAScript (tab, LF, VT, FF, CR, space, NBSP, U+1680, U+2000-U+200A,
    U+2028, U+2029, U+202F, U+205F, U+3000, U+FEFF). *)
Definition is_white_space (u : N) : bool :=
  ((u =? 0x09) || (u =? 0x0A) || (u =? 0x0B) || (u =? 0x0C) || (u =? 0x0D)
   || (u =? 0x20) || (u =? 0xA0) || (u =? 0x1680)
   || ((0x2000 <=? u) && (u <=? 0x200A))
   || (u =? 0x2028) || (u =? 0x2029) || (u =? 0x202F) || (u =? 0x205F)
   || (u =? 0x3000) || (u =? 0xFEFF))%N.

Fixpoint trim_start (us : list N) : list N :=
  match us with
  | u :: r => if is_white_space u then trim_start r else us
  | [] => []
  end.

Fixpoint trim_end (us : list N) : list N :=
  match us with
  | u :: r =>
      match trim_end r with
      | [] => if is_white_space u then [] else [u]
      | r' => u :: r'
      end
  | [] => []
  end.

(** [s.trim()]. *)
Definition trim (us : list N) : list N := trim_end (trim_start us).

(** [s.replace(pat, rep)] with a string pattern: the first occurrence only. *)
Fixpoint replace_first (pat rep s : string) : string :=
  if String.prefix pat s
  then rep +:+ String.substring (String.length pat) (String.length s) s
  else match s with
       | String a r => String a (replace_first pat rep r)
       | EmptyString => EmptyString
       end.

(** ** The host: what Node, the file system and the OS answer *)

Inductive Signal := SIGTERM | SIGKILL.

Record Host := mkHost {
  platform : string;                      (* process.platform *)
  arch : string;                          (* process.arch *)
  resourcesPath : option string;          (* process.resourcesPath *)
  dirname : string;                       (* __dirname *)
  envPATH : option string;                (* process.env.PATH *)
  existsSync : string -> bool;            (* fs.existsSync *)
  statSync_ok : string -> bool;           (* fs.statSync does not throw *)
  path_join : list string -> string;      (* path.join *)
  path_dirname : string -> string;        (* path.dirname *)
  path_basename : string -> string -> string; (* path.basename(p, ext) *)
  nvidia_smi_ok : bool;                   (* execSync("nvidia-smi") returns *)
  (* The candidate walk of getFFmpegPath past its cache test (bundled
     copy, well-known directories, PATH scan): the path it returns. *)
  ffmpegSearch : option string;
  (* killProcess of ../utils/process, which is not part of this module:
     [None] when the call throws, [Some k] when it returns, [k] telling
     whether the child object's [killed] flag is set by it. *)
  killProcess : nat -> Signal -> option bool
}.

(** ** The manager object (constructor, lines 17-30) *)

Record Manager := mkManager {
  process : option nat;             (* reference to a ChildProcess object *)
  port : option Z;
  ready : bool;
  modelPath : option string;
  startupPromise : option nat;      (* reference to a _doStart activation *)
  healthCheckInterval : option nat; (* handle of the setInterval timer *)
  cachedServerBinaryPath : option string;
  cachedCudaBinaryPath : option string;
  cachedFFmpegPath : option string;
  canConvert : bool;
  usingCuda : bool;
  cudaAvailable : option bool       (* _cudaAvailable *)
}.

Definition constructor : Manager :=
  {| process := None; port := None; ready := false; modelPath := None;
     startupPromise := None; healthCheckInterval := None;
     cachedServerBinaryPath := None; cachedCudaBinaryPath := None;
     cachedFFmpegPath := None; canConvert := false; usingCuda := false;
     cudaAvailable := None |}.

Definition set_process v m :=
  mkManager v (port m) (ready m) (modelPath m) (startupPromise m)
    (healthCheckInterval m) (cachedServerBinaryPath m) (cachedCudaBinaryPath m)
    (cachedFFmpegPath m) (canConvert m) (usingCuda m) (cudaAvailable m).
Definition set_port v m :=
  mkManager (process m) v (ready m) (modelPath m) (startupPromise m)
    (healthCheckInterval m) (cachedServerBinaryPath m) (cachedCudaBinaryPath m)
    (cachedFFmpegPath m) (canConvert m) (usingCuda m) (cudaAvailable m).
Definition set_ready v m :=
  mkManager (process m) (port m) v (modelPath m) (startupPromise m)
    (healthCheckInterval m) (cachedServerBinaryPath m) (cachedCudaBinaryPath m)
    (cachedFFmpegPath m) (canConvert m) (usingCuda m) (cudaAvailable m).
Definition set_modelPath v m :=
  mkManager (process m) (port m) (ready m) v (startupPromise m)
    (healthCheckInterval m) (cachedServerBinaryPath m) (cachedCudaBinaryPath m)
    (cachedFFmpegPath m) (canConvert m) (usingCuda m) (cudaAvailable m).
Definition set_startupPromise v m :=
  mkManager (process m) (port m) (ready m) (modelPath m) v
    (healthCheckInterval m) (cachedServerBinaryPath m) (cachedCudaBinaryPath m)
    (cachedFFmpegPath m) (canConvert m) (usingCuda m) (cudaAvailable m).
Definition set_healthCheckInterval v m :=
  mkManager (process m) (port m) (ready m) (modelPath m) (startupPromise m)
    v (cachedServerBinaryPath m) (cachedCudaBinaryPath m)
    (cachedFFmpegPath m) (canConvert m) (usingCuda m) (cudaAvailable m).
Definition set_cachedServerBinaryPath v m :=
  mkManager (process m) (port m) (ready m) (modelPath m) (startupPromise m)
    (healthCheckInterval m) v (cachedCudaBinaryPath m)
    (cachedFFmpegPath m) (canConvert m) (usingCuda m) (cudaAvailable m).
Definition set_cachedCudaBinaryPath v m :=
  mkManager (process m) (port m) (ready m) (modelPath m) (startupPromise m)
    (healthCheckInterval m) (cachedServerBinaryPath m) v
    (cachedFFmpegPath m) (canConvert m) (usingCuda m) (cudaAvailable m).
Definition set_cachedFFmpegPath v m :=
  mkManager (process m) (port m) (ready m) (modelPath m) (startupPromise m)
    (healthCheckInterval m) (cachedServerBinaryPath m) (cachedCudaBinaryPath m)
    v (canConvert m) (usingCuda m) (cudaAvailable m).
Definition set_canConvert v m :=
  mkManager (process m) (port m) (ready m) (modelPath m) (startupPromise m)
    (healthCheckInterval m) (cachedServerBinaryPath m) (cachedCudaBinaryPath m)
    (cachedFFmpegPath m) v (usingCuda m) (cudaAvailable m).
Definition set_usingCuda v m :=
  mkManager (process m) (port m) (ready m) (modelPath m) (startupPromise m)
    (healthCheckInterval m) (cachedServerBinaryPath m) (cachedCudaBinaryPath m)
    (cachedFFmpegPath m) (canConvert m) v (cudaAvailable m).
Definition set_cudaAvailable v m :=
  mkManager (process m) (port m) (ready m) (modelPath m) (startupPromise m)
    (healthCheckInterval m) (cachedServerBinaryPath m) (cachedCudaBinaryPath m)
    (cachedFFmpegPath m) (canConvert m) (usingCuda m) v.

(** ** Binary locator and accelerator prober (lines 32-233) *)

Section Locator.
Variable h : Host.

(** [getFFmpegPath]: the cache test of line 33, then the candidate walk,
    every successful branch of which stores its result in the cache. *)
Definition getFFmpegPath (m : Manager) : option string * Manager :=
  if truthy (cachedFFmpegPath m) then (cachedFFmpegPath m, m)
  else match ffmpegSearch h with
       | Some p => (Some p, set_cachedFFmpegPath (Some p) m)
       | None => (None, m)
       end.

Definition is_platform (p : string) : bool := String.eqb (platform h) p.

(** The candidate list built at lines 127-168. *)
Definition serverBinaryCandidates (useCuda : bool) : list string :=
  let platformArch := platform h +:+ "-" +:+ arch h in
  let variant := if negb (is_platform "darwin") && useCuda then "cuda" else "cpu" in
  let isRequestingCuda := useCuda && negb (is_platform "darwin") in
  let binaryName :=
    if is_platform "win32"
    then "whisper-server-" +:+ platformArch +:+ "-" +:+ variant +:+ ".exe"
    else "whisper-server-" +:+ platformArch +:+ "-" +:+ variant in
  let legacyBinaryName :=
    if is_platform "win32"
    then "whisper-server-" +:+ platformArch +:+ ".exe"
    else "whisper-server-" +:+ platformArch in
  let genericName :=
    if is_platform "win32" then "whisper-server.exe" else "whisper-server" in
  let packaged :=
    match resourcesPath h with
    | Some rp =>
        if truthy (Some rp)
        then path_join h [rp; "bin"; binaryName]
             :: (if negb isRequestingCuda
                 then [path_join h [rp; "bin"; legacyBinaryName];
                       path_join h [rp; "bin"; genericName]]
                 else [])
        else []
    | None => []
    end in
  let bundled :=
    path_join h [dirname h; ".."; ".."; "resources"; "bin"; binaryName]
    :: (if negb isRequestingCuda
        then [path_join h [dirname h; ".."; ".."; "resources"; "bin"; legacyBinaryName];
              path_join h [dirname h; ".."; ".."; "resources"; "bin"; genericName]]
        else []) in
  packaged ++ bundled.

Definition getServerBinaryPath (useCuda : bool) (m : Manager)
  : option string * Manager :=
  let cached := if useCuda then cachedCudaBinaryPath m
                else cachedServerBinaryPath m in
  if truthy cached then (cached, m)
  else
    match List.find (fun c => existsSync h c && statSync_ok h c)
                    (serverBinaryCandidates useCuda) with
    | Some c =>
        (Some c, if useCuda then set_cachedCudaBinaryPath (Some c) m
                 else set_cachedServerBinaryPath (Some c) m)
    | None => (None, m)
    end.

Definition checkCudaAvailable (m : Manager) : bool * Manager :=
  match cudaAvailable m with
  | Some b => (b, m)
  | None =>
      if is_platform "darwin" then (false, set_cudaAvailable (Some false) m)
      else if nvidia_smi_ok h then (true, set_cudaAvailable (Some true) m)
      else (false, set_cudaAvailable (Some false) m)
  end.

Definition isCudaBinaryAvailable (m : Manager) : bool * Manager :=
  let '(p, m') := getServerBinaryPath true m in (bool_decide (p ≠ None), m').

Definition clearCudaBinaryCache (m : Manager) : Manager :=
  set_cachedCudaBinaryPath None m.

Definition isAvailable (m : Manager) : bool * Manager :=
  let '(p, m') := getServerBinaryPath false m in (bool_decide (p ≠ None), m').

(** ** getStatus (lines 625-636) *)

Record Status := mkStatus {
  st_available : bool;
  st_running : bool;
  st_port : option Z;
  st_modelPath : option string;
  st_modelName : option string;
  st_usingCuda : bool;
  st_cudaAvailable : bool;
  st_cudaBinaryAvailable : bool
}.

(** The properties of the object literal are evaluated in order; the
    three locator calls may fill caches of the manager. *)
Definition getStatus (m : Manager) : Status * Manager :=
  let '(available, m1) := isAvailable m in
  let running := ready m1 && bool_decide (process m1 ≠ None) in
  let p := port m1 in
  let mp := modelPath m1 in
  let name :=
    match modelPath m1 with
    | Some s => if truthy (Some s)
                then Some (replace_first "ggml-" "" (path_basename h s ".bin"))
                else None
    | None => None
    end in
  let uc := usingCuda m1 in
  let '(cudaAvail, m2) := checkCudaAvailable m1 in
  let '(cudaBin, m3) := isCudaBinaryAvailable m2 in
  (mkStatus available running p mp name uc cudaAvail cudaBin, m3).

End Locator.

(** ** Results of fallible code *)

(** A JavaScript [throw new Error(msg)] is [Throw msg]. *)
Inductive Result (A : Type) : Type :=
| Ok (a : A)
| Throw (msg : string).
Arguments Ok {A} a.
Arguments Throw {A} msg.

(** The messages of the errors thrown by the module. *)
Definition err_no_port : string :=
  "No available ports in range " +:+ string_of_Z PORT_RANGE_START +:+ "-"
    +:+ string_of_Z PORT_RANGE_END.
Definition err_binary_not_found : string := "whisper-server binary not found".
Definition err_model_not_found (modelPath : string) : string :=
  "Model file not found: " +:+ modelPath.
Definition err_startup_timeout : string :=
  "whisper-server failed to start within " +:+ string_of_Z STARTUP_TIMEOUT_MS +:+ "ms".
Definition err_died (details : string) : string :=
  "whisper-server process died during startup"
    +:+ (if String.eqb details "" then "" else ": " +:+ details).
Definition err_not_running : string := "whisper-server is not running".
Definition err_requires_wav : string :=
  "FFmpeg not found - whisper-server requires WAV input".

(** ** Port allocator (lines 235-252) *)

(** What [isPortAvailable] does to the network stack. *)
Inductive NetEvent :=
| Listen (port : Z) (host : string)   (* server.listen(port, host) *)
| CloseListener (port : Z).           (* server.close() *)

Section PortAllocator.
(** Whether the listener of a probe reaches "listening" ([true]) or
    emits "error" ([false]); a scan probes each port at most once, so
    the answer at the time of the probe is a function of the port. *)
Variable binds : Z -> bool.

Definition isPortAvailable (port : Z) : bool * list NetEvent :=
  if binds port
  then (true, [Listen port "127.0.0.1"; CloseListener port])
  else (false, [Listen port "127.0.0.1"]).

(** The [for] loop of [findAvailablePort], entered with its counter at
    [port]; the events of the probes are accumulated in order. *)
Equations? findAvailablePort_loop (port : Z) : Result Z * list NetEvent
  by wf (Z.to_nat (PORT_RANGE_END + 1 - port)) lt :=
  findAvailablePort_loop port with Z_le_dec port PORT_RANGE_END => {
    | left _ with isPortAvailable port => {
        | (true, evs) => (Ok port, evs);
        | (false, evs) =>
            let '(r, evs') := findAvailablePort_loop (port + 1) in
            (r, evs ++ evs') };
    | right _ => (Throw err_no_port, []) }.
Proof. lia. Qed.

Definition findAvailablePort : Result Z * list NetEvent :=
  findAvailablePort_loop PORT_RANGE_START.

End PortAllocator.

(** ** Options objects *)

(** The [options] argument of [start] and of [transcribe]; a property
    that is absent is [None]. *)
Record Options := mkOptions {
  useCuda : option bool;
  threads : option Z;
  language : option string;
  initialPrompt : option string
}.

Definition no_options : Options := mkOptions None None None None.

(** [options.useCuda ?? false]. *)
Definition useCuda_or_false (o : Options) : bool := default false (useCuda o).

(** [options.language && options.language !== "auto"], also the test of
    [transcribe] on its destructured [language]. *)
Definition language_given (o : Options) : option string :=
  match language o with
  | Some l => if truthy (Some l) && negb (String.eqb l "auto") then Some l else None
  | None => None
  end.

(** The command line of the child (lines 310-325). *)
Definition spawn_args (modelPath : string) (port : Z)
    (ffmpegPath : option string) (o : Options) : list string :=
  ["--model"; modelPath; "--host"; "127.0.0.1"; "--port"; string_of_Z port]
  ++ (if truthy ffmpegPath then ["--convert"] else [])
  ++ (match threads o with
      | Some n => if Z.eqb n 0 then [] else ["--threads"; string_of_Z n]
      | None => []
      end)
  ++ (match language_given o with
      | Some l => ["--language"; l]
      | None => []
      end).

(** ** Transcription request builder (lines 455-543) *)

Definition crlf : string :=
  String (Ascii.ascii_of_nat 13) (String (Ascii.ascii_of_nat 10) EmptyString).
Definition dquote : string := String (Ascii.ascii_of_nat 34) EmptyString.

(** An element of the [parts] array: a string or the audio buffer. *)
Inductive Part :=
| PStr (s : string)
| PBuf (b : list byte).

(** [Buffer.from(part)] for strings, the buffer itself otherwise. *)
Definition part_bytes (p : Part) : list byte :=
  match p with
  | PStr s => list_byte_of_string s
  | PBuf b => b
  end.

Definition byte_is (audioBuffer : list byte) (i : nat) (v : byte) : bool :=
  match audioBuffer !! i with
  | Some x => Byte.eqb x v
  | None => false
  end.

(** The sniff of lines 476-486: "RIFF" at 0-3 and "WAVE" at 8-11. *)
Definition isWav (audioBuffer : list byte) : bool :=
  (12 <=? Z.of_nat (length audioBuffer))
  && byte_is audioBuffer 0 x52 && byte_is audioBuffer 1 x49
  && byte_is audioBuffer 2 x46 && byte_is audioBuffer 3 x46
  && byte_is audioBuffer 8 x57 && byte_is audioBuffer 9 x41
  && byte_is audioBuffer 10 x56 && byte_is audioBuffer 11 x45.

Definition file_part_header (boundary fileName contentType : string) : string :=
  "--" +:+ boundary +:+ crlf
  +:+ "Content-Disposition: form-data; name=" +:+ dquote +:+ "file" +:+ dquote
  +:+ "; filename=" +:+ dquote +:+ fileName +:+ dquote +:+ crlf
  +:+ "Content-Type: " +:+ contentType +:+ crlf +:+ crlf.

Definition field_part (boundary name value : string) : string :=
  "--" +:+ boundary +:+ crlf
  +:+ "Content-Disposition: form-data; name=" +:+ dquote +:+ name +:+ dquote
  +:+ crlf +:+ crlf +:+ value +:+ crlf.

(** The [parts] array as pushed between lines 493 and 524. *)
Definition transcribe_parts (boundary : string) (audioBuffer : list byte)
    (o : Options) : list Part :=
  let fileName := if isWav audioBuffer then "audio.wav" else "audio.webm" in
  let contentType := if isWav audioBuffer then "audio/wav" else "audio/webm" in
  [PStr (file_part_header boundary fileName contentType);
   PBuf audioBuffer;
   PStr crlf]
  ++ (match language_given o with
      | Some l => [PStr (field_part boundary "language" l)]
      | None => []
      end)
  ++ (match initialPrompt o with
      | Some p => if truthy (Some p) then [PStr (field_part boundary "prompt" p)] else []
      | None => []
      end)
  ++ [PStr (field_part boundary "response_format" "json");
      PStr ("--" +:+ boundary +:+ "--" +:+ crlf)].

Record HttpRequest := mkHttpRequest {
  rq_hostname : string;
  rq_port : option Z;
  rq_path : string;
  rq_method : string;
  rq_contentType : string;
  rq_contentLength : nat;
  rq_timeout : Z;
  rq_parts : list Part;       (* the parts the body was concatenated from *)
  rq_body : list byte
}.

(** What a call of [transcribe] does up to the moment it returns its
    promise: it throws, or it has written one HTTP request. *)
Inductive TranscribeStart :=
| TThrow (msg : string)
| TSend (req : HttpRequest).

(** [now] is the value of [Date.now()] used for the boundary. *)
Definition transcribe (m : Manager) (now : Z) (audioBuffer : list byte)
    (o : Options) : TranscribeStart :=
  if negb (ready m) || negb (bool_decide (process m ≠ None))
  then TThrow err_not_running
  else
    let boundary := "----WhisperBoundary" +:+ string_of_Z now in
    if negb (isWav audioBuffer) && negb (canConvert m)
    then TThrow err_requires_wav
    else
      let parts := transcribe_parts boundary audioBuffer o in
      let body := concat (part_bytes <$> parts) in
      TSend {| rq_hostname := "127.0.0.1";
               rq_port := port m;
               rq_path := "/inference";
               rq_method := "POST";
               rq_contentType := "multipart/form-data; boundary=" +:+ boundary;
               rq_contentLength := length body;
               rq_timeout := 300000;
               rq_parts := parts;
               rq_body := body |}.

(** ** The world stepped by the event loop *)

(** A [ChildProcess] object returned by [spawn], with the listeners the
    module attaches to it. *)
Record Child := mkChild {
  c_binary : string;
  c_args : list string;
  c_envPATH : string;
  c_cwd : string;
  c_owner : nat;           (* the _doStart activation whose closures listen *)
  killed : bool;           (* the [killed] property *)
  c_closed : bool;         (* "close" has been emitted *)
  c_onceClose : list nat   (* stop activations that called once("close") *)
}.

(** An activation of [_doStart]: its promise and its local variables. *)
Inductive DoStartPhase :=
| DScan (port : Z)                             (* awaiting isPortAvailable(port) *)
| DPoll (startTime : Z) (pollCount : nat)      (* awaiting checkHealth() *)
| DSleep (startTime : Z) (pollCount : nat) (wake : Z) (* awaiting the poll timer *)
| DSettled (r : Result unit).

Record DoStart := mkDoStart {
  d_modelPath : string;
  d_options : Options;
  d_serverBinary : option string;
  d_stderrBuffer : string;
  d_exitCode : option Z;
  d_phase : DoStartPhase
}.

(** An activation of [stop]. *)
Inductive StopPhase :=
| StWait (child : nat) (timeout : option Z)
    (* awaiting the promise of lines 597-614; [Some deadline] while the
       grace timer is armed *)
| StResolved   (* resolve() was called, the continuation has not run yet *)
| StDone.      (* the promise of stop() is fulfilled *)

(** An activation of [start]. *)
Inductive StartPhase :=
| SAwaitStop (s : nat)      (* at [await this.stop()] *)
| SAwaitStartup (d : nat)   (* at [await this.startupPromise] *)
| SJoined (d : nat)         (* returned the pending [startupPromise] *)
| SDone (r : Result unit).

Record Start := mkStart {
  s_modelPath : string;
  s_options : Options;
  s_phase : StartPhase
}.

Record World := mkWorld {
  mgr : Manager;
  children : list Child;        (* every process spawned so far *)
  doStarts : list DoStart;
  stops : list StopPhase;
  starts : list Start;
  now : Z;                      (* Date.now() *)
  monitorProbes : nat;          (* checkHealth() calls of the interval pending *)
  timers : nat;                 (* interval handles handed out *)
  uncaught : nat;               (* exceptions thrown out of a timer callback *)
  signals : list (nat * Signal) (* killProcess calls, oldest first *)
}.

Definition initial_world : World :=
  mkWorld constructor [] [] [] [] 0 0 0 0 [].

Definition with_mgr v w :=
  mkWorld v (children w) (doStarts w) (stops w) (starts w) (now w)
    (monitorProbes w) (timers w) (uncaught w) (signals w).
Definition with_children v w :=
  mkWorld (mgr w) v (doStarts w) (stops w) (starts w) (now w)
    (monitorProbes w) (timers w) (uncaught w) (signals w).
Definition with_doStarts v w :=
  mkWorld (mgr w) (children w) v (stops w) (starts w) (now w)
    (monitorProbes w) (timers w) (uncaught w) (signals w).
Definition with_stops v w :=
  mkWorld (mgr w) (children w) (doStarts w) v (starts w) (now w)
    (monitorProbes w) (timers w) (uncaught w) (signals w).
Definition with_starts v w :=
  mkWorld (mgr w) (children w) (doStarts w) (stops w) v (now w)
    (monitorProbes w) (timers w) (uncaught w) (signals w).
Definition with_now v w :=
  mkWorld (mgr w) (children w) (doStarts w) (stops w) (starts w) v
    (monitorProbes w) (timers w) (uncaught w) (signals w).
Definition with_monitorProbes v w :=
  mkWorld (mgr w) (children w) (doStarts w) (stops w) (starts w) (now w)
    v (timers w) (uncaught w) (signals w).
Definition with_timers v w :=
  mkWorld (mgr w) (children w) (doStarts w) (stops w) (starts w) (now w)
    (monitorProbes w) v (uncaught w) (signals w).
Definition with_uncaught v w :=
  mkWorld (mgr w) (children w) (doStarts w) (stops w) (starts w) (now w)
    (monitorProbes w) (timers w) v (signals w).
Definition with_signals v w :=
  mkWorld (mgr w) (children w) (doStarts w) (stops w) (starts w) (now w)
    (monitorProbes w) (timers w) (uncaught w) v.

Definition set_d_phase v (op : DoStart) :=
  mkDoStart (d_modelPath op) (d_options op) (d_serverBinary op)
    (d_stderrBuffer op) (d_exitCode op) v.
Definition set_d_stderrBuffer v (op : DoStart) :=
  mkDoStart (d_modelPath op) (d_options op) (d_serverBinary op)
    v (d_exitCode op) (d_phase op).
Definition set_d_exitCode v (op : DoStart) :=
  mkDoStart (d_modelPath op) (d_options op) (d_serverBinary op)
    (d_stderrBuffer op) v (d_phase op).
Definition set_s_phase v (a : Start) :=
  mkStart (s_modelPath a) (s_options a) v.
Definition set_killed v (c : Child) :=
  mkChild (c_binary c) (c_args c) (c_envPATH c) (c_cwd c) (c_owner c)
    v (c_closed c) (c_onceClose c).
Definition set_c_closed v (c : Child) :=
  mkChild (c_binary c) (c_args c) (c_envPATH c) (c_cwd c) (c_owner c)
    (killed c) v (c_onceClose c).
Definition set_c_onceClose v (c : Child) :=
  mkChild (c_binary c) (c_args c) (c_envPATH c) (c_cwd c) (c_owner c)
    (killed c) (c_closed c) v.

(** ** Health monitoring timer (lines 434-453) *)

Definition stopHealthCheck (m : Manager) : Manager :=
  match healthCheckInterval m with
  | Some _ => set_healthCheckInterval None m
  | None => m
  end.

Definition startHealthCheck (w : World) : World :=
  let m := stopHealthCheck (mgr w) in
  with_timers (S (timers w))
    (with_mgr (set_healthCheckInterval (Some (timers w)) m) w).

(** The body of the interval callback up to its [await]. *)
Definition healthCheck_tick (w : World) : World :=
  match process (mgr w) with
  | None => with_mgr (stopHealthCheck (mgr w)) w
  | Some _ => with_monitorProbes (S (monitorProbes w)) w
  end.

(** The callback after [await this.checkHealth()] answered [ok]. *)
Definition healthCheck_result (ok : bool) (w : World) : World :=
  let w' := with_monitorProbes (Nat.pred (monitorProbes w)) w in
  if ok then w' else with_mgr (set_ready false (mgr w')) w'.

(** ** Process supervisor (lines 254-407 and 584-623) *)

Section Supervisor.
Variable h : Host.

(** The effect of [killProcess(child, sig)] that returned with [k]. *)
Definition signalled (c : nat) (sig : Signal) (k : bool) (w : World) : World :=
  with_signals (signals w ++ [(c, sig)])
    (with_children
       (alter (fun ch => set_killed (killed ch || k) ch) c (children w)) w).

(** The four assignments that end [stop] (lines 619-622). *)
Definition stop_reset (m : Manager) : Manager :=
  set_modelPath None (set_port None (set_ready false (set_process None m))).

(** [stop()] from its call to its first [await], or to its end when it
    does not reach one.  The result names the new activation. *)
Definition stop_call (w : World) : World * nat :=
  let s := length (stops w) in
  let m := stopHealthCheck (mgr w) in
  match process m with
  | None =>
      (with_stops (stops w ++ [StDone]) (with_mgr (set_ready false m) w), s)
  | Some c =>
      match killProcess h c SIGTERM with
      | None =>
          (* the call throws: the catch block logs, then lines 619-622 *)
          (with_stops (stops w ++ [StDone])
             (with_signals (signals w ++ [(c, SIGTERM)])
                (with_mgr (stop_reset m) w)), s)
      | Some k =>
          (* the timer is armed; this.process is still set, so the
             listener is registered on it *)
          let w1 := signalled c SIGTERM k (with_mgr m w) in
          let w2 := with_children
                      (alter (fun ch => set_c_onceClose (c_onceClose ch ++ [s]) ch)
                             c (children w1)) w1 in
          (with_stops (stops w ++ [StWait c (Some (now w + STOP_GRACE_MS))]) w2, s)
      end
  end.

(** The callback of the grace timer (lines 598-603). *)
Definition stop_timeout (s : nat) (listened : nat) (w : World) : World :=
  match process (mgr w) with
  | Some c =>
      match killProcess h c SIGKILL with
      | None =>
          (* thrown out of the timer callback: resolve() is not reached,
             the activation keeps waiting for "close" *)
          with_uncaught (S (uncaught w))
            (with_signals (signals w ++ [(c, SIGKILL)])
               (with_stops (<[s := StWait listened None]> (stops w)) w))
      | Some k =>
          let w1 := signalled c SIGKILL k w in
          with_stops (<[s := StResolved]> (stops w1)) w1
      end
  | None => with_stops (<[s := StResolved]> (stops w)) w
  end.

(** The once("close") listener of a stop activation (lines 606-609). *)
Definition stop_on_close (w : World) (s : nat) : World :=
  match stops w !! s with
  | Some (StWait _ _) => with_stops (<[s := StResolved]> (stops w)) w
  | _ => w
  end.

(** The rest of [stop] after its [await]. *)
Definition stop_resume (s : nat) (w : World) : World :=
  with_stops (<[s := StDone]> (stops w)) (with_mgr (stop_reset (mgr w)) w).

(** Whether [!this.process || this.process.killed] holds. *)
Definition process_gone (w : World) : bool :=
  match process (mgr w) with
  | None => true
  | Some c => match children w !! c with
              | Some ch => killed ch
              | None => false
              end
  end.

(** The text after the colon in the "died during startup" message
    (lines 385-387): [info.stderr.trim().slice(0, 200)] on the code units
    of the collected text, or the exit code. *)
Definition died_details (op : DoStart) : string :=
  let stderr :=
    if String.eqb (d_stderrBuffer op) "" then ""
    else js_string (slice0 200 (trim (js_units (d_stderrBuffer op)))) in
  str_or stderr
    (match d_exitCode op with
     | Some code => "exit code: " +:+ string_of_Z code
     | None => ""
     end).

(** One pass through the head of the [while] loop of [waitForReady]
    (lines 383-394), up to the [await] of the probe. *)
Definition waitForReady_loop (startTime : Z) (pollCount : nat)
    (op : DoStart) (w : World) : DoStartPhase :=
  if now w - startTime <? STARTUP_TIMEOUT_MS
  then if process_gone w
       then DSettled (Throw (err_died (died_details op)))
       else DPoll startTime (S pollCount)
  else DSettled (Throw err_startup_timeout).

(** The probe of [waitForReady] answered [ok] (lines 394-403); when it
    succeeded, [_doStart] goes on to [startHealthCheck] and returns. *)
Definition waitForReady_probed (d : nat) (startTime : Z) (pollCount : nat)
    (ok : bool) (w : World) : World :=
  if ok
  then let w1 := startHealthCheck (with_mgr (set_ready true (mgr w)) w) in
       with_doStarts (alter (set_d_phase (DSettled (Ok tt))) d (doStarts w1)) w1
  else with_doStarts
         (alter (set_d_phase
                   (DSleep startTime pollCount (now w + STARTUP_POLL_INTERVAL_MS)))
                d (doStarts w)) w.

Definition pathSep : string := if is_platform h "win32" then ";" else ":".

(** The binary resolution of [_doStart] (lines 278-292): the path, the
    value of [actuallyUsingCuda], and the manager with its caches. *)
Definition resolve_binary (useCuda : bool) (m : Manager)
  : option string * bool * Manager :=
  if useCuda
  then let '(b, m1) := getServerBinaryPath h true m in
       if truthy b then (b, true, m1)
       else let '(b', m2) := getServerBinaryPath h false m1 in (b', false, m2)
  else let '(b, m1) := getServerBinaryPath h false m in (b, false, m1).

(** [_doStart(modelPath, options)] from its call to its first [await]
    (lines 275-298), or to its rejection. *)
Definition doStart_call (modelPath : string) (o : Options) (w : World)
  : World * nat :=
  let d := length (doStarts w) in
  let '(serverBinary, actuallyUsingCuda, m1) :=
    resolve_binary (useCuda_or_false o) (mgr w) in
  let activation ph := mkDoStart modelPath o serverBinary "" None ph in
  if negb (truthy serverBinary)
  then (with_doStarts
          (doStarts w ++ [activation (DSettled (Throw err_binary_not_found))])
          (with_mgr m1 w), d)
  else
    let m2 := set_usingCuda actuallyUsingCuda m1 in
    if negb (existsSync h modelPath)
    then (with_doStarts
            (doStarts w ++ [activation (DSettled (Throw (err_model_not_found modelPath)))])
            (with_mgr m2 w), d)
    else
      (with_doStarts
         (doStarts w ++
            [activation (if PORT_RANGE_START <=? PORT_RANGE_END
                         then DScan PORT_RANGE_START
                         else DSettled (Throw err_no_port))])
         (with_mgr m2 w), d).

(** [_doStart] from the port returned by [findAvailablePort] to the
    first probe of [waitForReady] (lines 298-394). *)
Definition doStart_spawn (d : nat) (op : DoStart) (p : Z) (w : World) : World :=
  let m1 := set_modelPath (Some (d_modelPath op)) (set_port (Some p) (mgr w)) in
  let '(ffmpegPath, m2) := getFFmpegPath h m1 in
  let serverBinary := default "" (d_serverBinary op) in
  let serverBinaryDir := path_dirname h serverBinary in
  let envPATH0 := serverBinaryDir +:+ pathSep +:+ str_or (default "" (envPATH h)) "" in
  let args := spawn_args (d_modelPath op) p ffmpegPath (d_options op) in
  let m3 := set_canConvert (truthy ffmpegPath) m2 in
  let spawnPATH :=
    if truthy ffmpegPath
    then path_dirname h (default "" ffmpegPath) +:+ pathSep +:+ envPATH0
    else envPATH0 in
  let c := length (children w) in
  let child := mkChild serverBinary args spawnPATH serverBinaryDir d false false [] in
  let w1 := with_children (children w ++ [child]) (with_mgr (set_process (Some c) m3) w) in
  with_doStarts
    (alter (set_d_phase (waitForReady_loop (now w1) 0 op w1)) d (doStarts w1)) w1.

(** The answer of one [isPortAvailable(p)] inside [findAvailablePort]. *)
Definition doStart_probed (d : nat) (op : DoStart) (p : Z) (bound : bool)
    (w : World) : World :=
  if bound then doStart_spawn d op p w
  else
    let p' := p + 1 in
    with_doStarts
      (alter (set_d_phase (if p' <=? PORT_RANGE_END then DScan p'
                           else DSettled (Throw err_no_port)))
             d (doStarts w)) w.

(** Lines 266-268: [this.startupPromise = this._doStart(...)], then the
    [await] inside [try]. *)
Definition start_launch (modelPath : string) (o : Options) (w : World)
  : World * StartPhase :=
  let '(w1, d) := doStart_call modelPath o w in
  (with_mgr (set_startupPromise (Some d) (mgr w1)) w1, SAwaitStartup d).

(** [start(modelPath, options)] from its call to its first [await] or
    its [return] (lines 255-268). *)
Definition start_call (model : string) (o : Options) (w : World) : World :=
  let m := mgr w in
  match startupPromise m with
  | Some d => with_starts (starts w ++ [mkStart model o (SJoined d)]) w
  | None =>
      if ready m && bool_decide (modelPath m = Some model)
         && Bool.eqb (usingCuda m) (useCuda_or_false o)
      then with_starts (starts w ++ [mkStart model o (SDone (Ok tt))]) w
      else
        match process m with
        | Some _ =>
            let '(w1, s) := stop_call w in
            with_starts (starts w1 ++ [mkStart model o (SAwaitStop s)]) w1
        | None =>
            let '(w1, ph) := start_launch model o w in
            with_starts (starts w1 ++ [mkStart model o ph]) w1
        end
  end.

(** [start] after [await this.stop()]. *)
Definition start_after_stop (t : nat) (a : Start) (w : World) : World :=
  let '(w1, ph) := start_launch (s_modelPath a) (s_options a) w in
  with_starts (alter (set_s_phase ph) t (starts w1)) w1.

(** [start] after [await this.startupPromise] settled with [r]: the
    [finally] block, then the return or the rethrow. *)
Definition start_finally (t : nat) (r : Result unit) (w : World) : World :=
  with_starts (alter (set_s_phase (SDone r)) t (starts w))
    (with_mgr (set_startupPromise None (mgr w)) w).

(** The "close" listeners of a child, in the order they were attached:
    the handler of [_doStart] (lines 358-364), then those of [stop]. *)
Definition child_close (c : nat) (ch : Child) (code : option Z) (w : World)
  : World :=
  let w1 := with_doStarts (alter (set_d_exitCode code) (c_owner ch) (doStarts w)) w in
  let w2 := with_mgr (stopHealthCheck (set_process None (set_ready false (mgr w1)))) w1 in
  let w3 := foldl stop_on_close w2 (c_onceClose ch) in
  with_children
    (alter (fun x => set_c_onceClose [] (set_c_closed true x)) c (children w3)) w3.

(** ** Events and steps *)

Inductive Event :=
| CallStart (modelPath : string) (o : Options)
| CallStop
| CallGetStatus
| PortProbed (d : nat) (bound : bool)    (* isPortAvailable answered *)
| StartupProbed (d : nat) (ok : bool)    (* checkHealth of waitForReady answered *)
| PollTimer (d : nat)                    (* the 100 ms timer of waitForReady *)
| ChildClose (c : nat) (code : option Z)
| ChildError (c : nat)
| ChildStderr (c : nat) (data : string)   (* the text data.toString() of a chunk *)
| GraceTimer (s : nat)                   (* the 5 s timer of stop *)
| StopResume (s : nat)                   (* stop continues after its await *)
| StartAfterStop (t : nat)               (* start continues after await this.stop() *)
| StartFinally (t : nat)                 (* start continues after await startupPromise *)
| MonitorTick                            (* the setInterval callback *)
| MonitorProbed (ok : bool)              (* checkHealth of the callback answered *)
| Advance (dt : Z).                      (* time passes *)

(** One step of the event loop; [None] when the event cannot occur in
    this world (no such pending activation, timer not yet due). *)
Definition step (w : World) (e : Event) : option World :=
  match e with
  | CallStart modelPath o => Some (start_call modelPath o w)
  | CallStop => Some (fst (stop_call w))
  | CallGetStatus => Some (with_mgr (snd (getStatus h (mgr w))) w)
  | PortProbed d bound =>
      match doStarts w !! d with
      | Some op => match d_phase op with
                   | DScan p => Some (doStart_probed d op p bound w)
                   | _ => None
                   end
      | None => None
      end
  | StartupProbed d ok =>
      match doStarts w !! d with
      | Some op => match d_phase op with
                   | DPoll st pc => Some (waitForReady_probed d st pc ok w)
                   | _ => None
                   end
      | None => None
      end
  | PollTimer d =>
      match doStarts w !! d with
      | Some op =>
          match d_phase op with
          | DSleep st pc wake =>
              if wake <=? now w
              then Some (with_doStarts
                           (alter (set_d_phase (waitForReady_loop st pc op w))
                                  d (doStarts w)) w)
              else None
          | _ => None
          end
      | None => None
      end
  | ChildClose c code =>
      match children w !! c with
      | Some ch => if c_closed ch then None else Some (child_close c ch code w)
      | None => None
      end
  | ChildError c =>
      match children w !! c with
      | Some _ => Some (with_mgr (set_ready false (mgr w)) w)
      | None => None
      end
  | ChildStderr c data =>
      match children w !! c with
      | Some ch =>
          if c_closed ch then None
          else Some (with_doStarts
                       (alter (fun op => set_d_stderrBuffer (d_stderrBuffer op +:+ data) op)
                              (c_owner ch) (doStarts w)) w)
      | None => None
      end
  | GraceTimer s =>
      match stops w !! s with
      | Some (StWait c (Some deadline)) =>
          if deadline <=? now w then Some (stop_timeout s c w) else None
      | _ => None
      end
  | StopResume s =>
      match stops w !! s with
      | Some StResolved => Some (stop_resume s w)
      | _ => None
      end
  | StartAfterStop t =>
      match starts w !! t with
      | Some a =>
          match s_phase a with
          | SAwaitStop s =>
              match stops w !! s with
              | Some StDone => Some (start_after_stop t a w)
              | _ => None
              end
          | _ => None
          end
      | None => None
      end
  | StartFinally t =>
      match starts w !! t with
      | Some a =>
          match s_phase a with
          | SAwaitStartup d =>
              match d_phase <$> doStarts w !! d with
              | Some (DSettled r) => Some (start_finally t r w)
              | _ => None
              end
          | _ => None
          end
      | None => None
      end
  | MonitorTick =>
      match healthCheckInterval (mgr w) with
      | Some _ => Some (healthCheck_tick w)
      | None => None
      end
  | MonitorProbed ok =>
      match monitorProbes w with
      | O => None
      | S _ => Some (healthCheck_result ok w)
      end
  | Advance dt =>
      if 0 <=? dt then Some (with_now (now w + dt) w) else None
  end.

(** A run: the events of a schedule taken in order. *)
Fixpoint run (w : World) (es : list Event) : option World :=
  match es with
  | [] => Some w
  | e :: es' => match step w e with
                | Some w' => run w' es'
                | None => None
                end
  end.

(** What the caller of the [t]-th [start] has observed so far. *)
Definition start_outcome (w : World) (t : nat) : option (Result unit) :=
  match s_phase <$> starts w !! t with
  | Some (SDone r) => Some r
  | Some (SJoined d) =>
      match d_phase <$> doStarts w !! d with
      | Some (DSettled r) => Some r
      | _ => None
      end
  | _ => None
  end.

End Supervisor.

(** ** A concrete host, for evaluating runs *)

Module Demo.

Fixpoint split_slash (acc : string) (s : string) : list string :=
  match s with
  | EmptyString => [acc]
  | String a r =>
      if Ascii.eqb a "/"%char then acc :: split_slash "" r
      else split_slash (acc +:+ String a EmptyString) r
  end.

(** Segments with "." and ".." resolved, as path.join normalises. *)
Fixpoint normalise (done todo : list string) : list string :=
  match todo with
  | [] => done
  | seg :: rest =>
      if String.eqb seg "" || String.eqb seg "." then normalise done rest
      else if String.eqb seg ".." then normalise (removelast done) rest
      else normalise (done ++ [seg]) rest
  end.

Definition join (parts : list string) : string :=
  "/" +:+ String.concat "/" (normalise [] (flat_map (split_slash "") parts)).

Definition dir_of (p : string) : string :=
  "/" +:+ String.concat "/" (removelast (normalise [] (split_slash "" p))).

Definition base_of (p ext : string) : string :=
  let b := List.last (normalise [] (split_slash "" p)) "" in
  let n := (String.length b - String.length ext)%nat in
  if String.eqb (String.substring n (String.length ext) b) ext
  then String.substring 0 n b else b.

Definition cpu_binary : string := "/app/resources/bin/whisper-server-linux-x64-cpu".
Definition model_a : string := "/models/ggml-base.bin".
Definition model_b : string := "/models/ggml-small.bin".

(** A Linux machine with the CPU binary and two models installed, no
    CUDA binary and no FFmpeg; signals are delivered. *)
Definition host : Host :=
  {| platform := "linux"; arch := "x64"; resourcesPath := None;
     dirname := "/app/src/helpers"; envPATH := Some "/usr/bin";
     existsSync := fun p => String.eqb p cpu_binary || String.eqb p model_a
                            || String.eqb p model_b;
     statSync_ok := fun _ => true;
     path_join := join; path_dirname := dir_of; path_basename := base_of;
     nvidia_smi_ok := false; ffmpegSearch := None;
     killProcess := fun _ _ => Some true |}.

(** The same machine when [killProcess] throws. *)
Definition host_kill_throws : Host :=
  {| platform := "linux"; arch := "x64"; resourcesPath := None;
     dirname := "/app/src/helpers"; envPATH := Some "/usr/bin";
     existsSync := existsSync host; statSync_ok := fun _ => true;
     path_join := join; path_dirname := dir_of; path_basename := base_of;
     nvidia_smi_ok := false; ffmpegSearch := None;
     killProcess := fun _ _ => None |}.

Definition cuda_options : Options := mkOptions (Some true) None None None.

(** "RIFF....WAVE" followed by nothing. *)
Definition wav_header : list byte :=
  [x52; x49; x46; x46; x00; x00; x00; x00; x57; x41; x56; x45].

End Demo.


(** * Properties *)

(** ** Port allocator *)

Section PortAllocatorFacts.
Variable binds : Z -> bool.

Lemma findAvailablePort_loop_body (p : Z) :
  findAvailablePort_loop binds p =
    if Z_le_dec p PORT_RANGE_END
    then if binds p
         then (Ok p, [Listen p "127.0.0.1"; CloseListener p])
         else (fst (findAvailablePort_loop binds (p + 1)),
               Listen p "127.0.0.1" :: snd (findAvailablePort_loop binds (p + 1)))
    else (Throw err_no_port, []).
Proof.
  funelim (findAvailablePort_loop binds p); clear Heqcall.
  all: match goal with E : Z_le_dec _ _ = _ |- _ => rewrite E; clear E end.
  all: try reflexivity.
  all: try match goal with IH : findAvailablePort_loop _ _ = _ |- _ => clear IH end.
  all: unfold isPortAvailable in *.
  all: destruct (binds _); try discriminate.
  - congruence.
  - destruct (findAvailablePort_loop binds _). simpl.
    inversion Heq. reflexivity.
Qed.

(** A scan that finds a port: the port is the least one that binds. *)
Lemma findAvailablePort_loop_found (n : nat) (p q : Z) :
  Z.to_nat (PORT_RANGE_END + 1 - p) = n ->
  (findAvailablePort_loop binds p).1 = Ok q ->
  p <= q <= PORT_RANGE_END /\ binds q = true
  /\ (forall r, p <= r < q -> binds r = false)
  /\ (findAvailablePort_loop binds p).2 =
       ((fun r => Listen r "127.0.0.1") <$> seqZ p (q - p))
       ++ [Listen q "127.0.0.1"; CloseListener q].
Proof.
  revert p. induction n as [|n IH]; intros p Hn; rewrite findAvailablePort_loop_body;
    destruct (Z_le_dec p PORT_RANGE_END) as [Hle|Hgt]; simpl; try discriminate.
  - lia.
  - destruct (binds p) eqn:Hb; simpl.
    + intros [= <-]. rewrite Z.sub_diag. simpl.
      repeat split; try lia; try assumption.
    + intros Hq. destruct (IH (p + 1) ltac:(lia) Hq) as (Hr & Hbq & Hlt & Htr).
      repeat split; try lia; try assumption.
      * intros r Hrange. destruct (decide (r = p)) as [->|]; [assumption|].
        apply Hlt. lia.
      * rewrite Htr. rewrite (seqZ_cons p (q - p)) by lia. simpl.
        replace (Z.succ p) with (p + 1) by lia.
        replace (Z.pred (q - p)) with (q - (p + 1)) by lia. reflexivity.
Qed.

(** A scan that fails: every port of the rest of the range was probed
    and none could be bound. *)
Lemma findAvailablePort_loop_exhausted (n : nat) (p : Z) (msg : string) :
  Z.to_nat (PORT_RANGE_END + 1 - p) = n ->
  (findAvailablePort_loop binds p).1 = Throw msg ->
  msg = err_no_port
  /\ (forall r, p <= r <= PORT_RANGE_END -> binds r = false)
  /\ (findAvailablePort_loop binds p).2 =
       (fun r => Listen r "127.0.0.1") <$> seqZ p (PORT_RANGE_END + 1 - p).
Proof.
  revert p. induction n as [|n IH]; intros p Hn; rewrite findAvailablePort_loop_body;
    destruct (Z_le_dec p PORT_RANGE_END) as [Hle|Hgt]; simpl.
  - lia.
  - intros [= <-]. repeat split; [intros; lia|].
    rewrite seqZ_nil by lia. reflexivity.
  - destruct (binds p) eqn:Hb; simpl; [discriminate|].
    intros Hq. destruct (IH (p + 1) ltac:(lia) Hq) as (Hm & Hall & Htr).
    repeat split; [assumption| |].
    + intros r Hrange. destruct (decide (r = p)) as [->|]; [assumption|].
      apply Hall. lia.
    + rewrite Htr. rewrite (seqZ_cons p (PORT_RANGE_END + 1 - p)) by lia. simpl.
      replace (Z.succ p) with (p + 1) by lia.
      replace (Z.pred (PORT_RANGE_END + 1 - p)) with (PORT_RANGE_END + 1 - (p + 1)) by lia.
      reflexivity.
  - lia.
Qed.

(** The least port that binds is found. *)
Lemma findAvailablePort_loop_complete (n : nat) (p q : Z) :
  Z.to_nat (PORT_RANGE_END + 1 - p) = n ->
  p <= q <= PORT_RANGE_END -> binds q = true ->
  (forall r, p <= r < q -> binds r = false) ->
  (findAvailablePort_loop binds p).1 = Ok q.
Proof.
  revert p. induction n as [|n IH]; intros p Hn Hr Hq Hlt; [lia|].
  rewrite findAvailablePort_loop_body.
  destruct (Z_le_dec p PORT_RANGE_END) as [Hle|Hgt]; [|lia].
  destruct (decide (p = q)) as [->|Hne].
  - rewrite Hq. reflexivity.
  - rewrite (Hlt p) by lia. simpl. apply IH; try lia; try assumption.
    intros r Hrange. apply Hlt. lia.
Qed.

End PortAllocatorFacts.

Lemma findAvailablePort_in_range (binds : Z -> bool) (q : Z) :
  (findAvailablePort binds).1 = Ok q -> PORT_RANGE_START <= q <= PORT_RANGE_END.
Proof.
  intros Hq.
  destruct (findAvailablePort_loop_found binds _ PORT_RANGE_START q eq_refl Hq) as [Hr _].
  exact Hr.
Qed.

(** C7: [findAvailablePort] scans the fixed inclusive range 8178..8199 in
    ascending order.  Each candidate is tested by one listener bound to
    127.0.0.1 only, which is closed as soon as it listens.  The result is
    the first port that binds; when no port of the range binds the scan
    throws the "No available ports in range 8178-8199" error, having
    probed the 22 ports of the range and nothing else. *)
Theorem C7_findAvailablePort_first_free_port (binds : Z -> bool) :
  PORT_RANGE_START = 8178 /\ PORT_RANGE_END = 8199
  /\ (forall q, (findAvailablePort binds).1 = Ok q <->
        8178 <= q <= 8199 /\ binds q = true
        /\ forall r, 8178 <= r < q -> binds r = false)
  /\ (forall q, (findAvailablePort binds).1 = Ok q ->
        (findAvailablePort binds).2 =
          ((fun r => Listen r "127.0.0.1") <$> seqZ 8178 (q - 8178))
          ++ [Listen q "127.0.0.1"; CloseListener q])
  /\ ((findAvailablePort binds).1 = Throw err_no_port <->
        forall r, 8178 <= r <= 8199 -> binds r = false)
  /\ (forall msg, (findAvailablePort binds).1 = Throw msg ->
        msg = err_no_port
        /\ (findAvailablePort binds).2 =
             (fun r => Listen r "127.0.0.1") <$> seqZ 8178 22).
Proof.
  unfold findAvailablePort.
  split; [reflexivity|]. split; [reflexivity|].
  split; [|split; [|split]].
  - intros q. split.
    + intros Hq.
      destruct (findAvailablePort_loop_found binds _ PORT_RANGE_START q eq_refl Hq)
        as (Hr & Hb & Hlt & _).
      unfold PORT_RANGE_START, PORT_RANGE_END in *. auto.
    + intros (Hr & Hb & Hlt).
      apply (findAvailablePort_loop_complete binds _ PORT_RANGE_START q eq_refl);
        unfold PORT_RANGE_START, PORT_RANGE_END; auto.
  - intros q Hq.
    destruct (findAvailablePort_loop_found binds _ PORT_RANGE_START q eq_refl Hq)
      as (_ & _ & _ & Htr).
    exact Htr.
  - split.
    + intros Hthrow.
      destruct (findAvailablePort_loop_exhausted binds _ PORT_RANGE_START _ eq_refl Hthrow)
        as (_ & Hall & _).
      exact Hall.
    + intros Hall.
      destruct (findAvailablePort_loop binds PORT_RANGE_START).1 as [q|msg] eqn:Hres.
      * destruct (findAvailablePort_loop_found binds _ PORT_RANGE_START q eq_refl Hres)
          as (Hr & Hb & _).
        rewrite Hall in Hb by exact Hr. discriminate.
      * destruct (findAvailablePort_loop_exhausted binds _ PORT_RANGE_START _ eq_refl Hres)
          as (-> & _). reflexivity.
  - intros msg Hthrow.
    destruct (findAvailablePort_loop_exhausted binds _ PORT_RANGE_START _ eq_refl Hthrow)
      as (Hm & _ & Htr).
    split; [exact Hm | exact Htr].
Qed.

(** ** Request builder and command line *)






Lemma byte_is_lookup (audioBuffer : list byte) (i : nat) (v : byte) :
  byte_is audioBuffer i v = true <-> audioBuffer !! i = Some v.
Proof.
  unfold byte_is. destruct (audioBuffer !! i) as [x|]; split; try discriminate.
  - intros Hx. f_equal. apply Byte.byte_dec_bl, Hx.
  - intros [= ->]. apply Byte.byte_dec_lb. reflexivity.
Qed.

(** The sniff accepts exactly the buffers of at least 12 bytes that carry
    "RIFF" at offsets 0-3 and "WAVE" at offsets 8-11. *)
Lemma isWav_signature (audioBuffer : list byte) :
  isWav audioBuffer = true <->
  (12 <= length audioBuffer)%nat
  /\ take 4 audioBuffer = list_byte_of_string "RIFF"
  /\ take 4 (drop 8 audioBuffer) = list_byte_of_string "WAVE".
Proof.
  unfold isWav. rewrite !andb_true_iff, !byte_is_lookup, Z.leb_le.
  split.
  - intros ((((((((Hlen & H0) & H1) & H2) & H3) & H8) & H9) & H10) & H11).
    split; [lia|].
    do 12 (destruct audioBuffer as [|? audioBuffer]; [simpl in Hlen; lia|]).
    simpl in H0, H1, H2, H3, H8, H9, H10, H11.
    injection H0 as ->. injection H1 as ->. injection H2 as ->. injection H3 as ->.
    injection H8 as ->. injection H9 as ->. injection H10 as ->. injection H11 as ->.
    split; reflexivity.
  - intros (Hlen & Hriff & Hwave).
    do 12 (destruct audioBuffer as [|? audioBuffer]; [simpl in Hlen; lia|]).
    change (list_byte_of_string "RIFF") with [x52; x49; x46; x46] in Hriff.
    change (list_byte_of_string "WAVE") with [x57; x41; x56; x45] in Hwave.
    simpl in Hriff, Hwave.
    injection Hriff as -> -> -> ->. injection Hwave as -> -> -> ->.
    repeat split; try reflexivity. simpl. lia.
Qed.

(** C6: when the server is running, a payload that carries the WAV
    signature (length at least 12, "RIFF" at 0-3, "WAVE" at 8-11) is sent
    with the file part named audio.wav of type audio/wav followed by the
    payload itself, whatever [canConvert] is: the body of the request
    begins with the delimiter line of the boundary that the Content-Type
    header announces, the line
    Content-Disposition: form-data; name="file"; filename="audio.wav",
    the line Content-Type: audio/wav and an empty line, followed by the
    bytes of the payload and a line end.  A payload without the
    signature, when [canConvert] is false, makes [transcribe] throw the
    "requires WAV input" error and no request is written. *)
Theorem C6_wav_signature_selects_native_part
    (m : Manager) (now : Z) (audioBuffer : list byte) (o : Options) :
  ready m = true -> process m <> None ->
  (isWav audioBuffer = true <->
     (12 <= length audioBuffer)%nat
     /\ take 4 audioBuffer = list_byte_of_string "RIFF"
     /\ take 4 (drop 8 audioBuffer) = list_byte_of_string "WAVE")
  /\ (isWav audioBuffer = true ->
      exists req rest boundary tail,
        transcribe m now audioBuffer o = TSend req
        /\ rq_parts req =
             PStr (file_part_header ("----WhisperBoundary" +:+ string_of_Z now)
                     "audio.wav" "audio/wav")
             :: PBuf audioBuffer :: rest
        /\ rq_body req = concat (part_bytes <$> rq_parts req)
        /\ rq_contentType req = "multipart/form-data; boundary=" +:+ boundary
        /\ rq_body req =
             list_byte_of_string
               ("--" +:+ boundary +:+ String "013" (String "010"
                  ("Content-Disposition: form-data; name=" +:+ String "034"
                     ("file" +:+ String "034"
                        ("; filename=" +:+ String "034"
                           ("audio.wav" +:+ String "034" (String "013" (String "010"
                              ("Content-Type: audio/wav" +:+ String "013"
                                 (String "010" (String "013" (String "010"
                                    EmptyString))))))))))))
             ++ audioBuffer
             ++ list_byte_of_string (String "013" (String "010" EmptyString))
             ++ tail)
  /\ (isWav audioBuffer = false -> canConvert m = false ->
      transcribe m now audioBuffer o = TThrow err_requires_wav).
Proof.
  intros Hready Hproc.
  split; [apply isWav_signature|].
  unfold transcribe. rewrite Hready.
  rewrite (bool_decide_eq_true_2 _ Hproc). simpl.
  split.
  - intros Hwav. rewrite Hwav. simpl.
    do 4 eexists.
    split; [reflexivity|]. simpl.
    unfold transcribe_parts. rewrite Hwav. simpl.
    split; [reflexivity|]. split; [reflexivity|]. split; [reflexivity|].
    reflexivity.
  - intros Hwav Hconv. rewrite Hwav, Hconv. reflexivity.
Qed.

(** A running manager without transcoder, for concrete checks. *)
Definition running_manager : Manager :=
  mkManager (Some 0%nat) (Some 8178) true (Some Demo.model_a) None (Some 0%nat)
    (Some Demo.cpu_binary) None None false false None.

Lemma C6_wav_signature_witness :
  (exists req tail,
      transcribe running_manager 17 Demo.wav_header no_options = TSend req
      /\ rq_contentType req = "multipart/form-data; boundary=----WhisperBoundary17"
      /\ rq_body req =
           list_byte_of_string
             ("------WhisperBoundary17" +:+ String "013" (String "010"
                ("Content-Disposition: form-data; name=" +:+ String "034"
                   ("file" +:+ String "034"
                      ("; filename=" +:+ String "034"
                         ("audio.wav" +:+ String "034" (String "013" (String "010"
                            ("Content-Type: audio/wav" +:+ String "013"
                               (String "010" (String "013" (String "010"
                                  EmptyString))))))))))))
           ++ Demo.wav_header
           ++ list_byte_of_string (String "013" (String "010" EmptyString))
           ++ tail)
  /\ transcribe running_manager 17 [x1a; x45; xdf; xa3] no_options
     = TThrow err_requires_wav.
Proof.
  split.
  - destruct (C6_wav_signature_selects_native_part running_manager 17
                Demo.wav_header no_options) as (_ & Hsent & _);
      [reflexivity | discriminate |].
    destruct (Hsent eq_refl) as (req & rest & boundary & tail & Hreq & _ & _ & Hct & Hbody).
    exists req, tail. split; [exact Hreq|].
    assert (Hb : boundary = "----WhisperBoundary17").
    { revert Hct. injection Hreq as <-. vm_compute. intros [= <-]. reflexivity. }
    subst boundary. split; [exact Hct | exact Hbody].
  - apply (C6_wav_signature_selects_native_part running_manager 17
             [x1a; x45; xdf; xa3] no_options);
      [reflexivity | discriminate | reflexivity | reflexivity].
Defined.

(** ** The states of the specification *)

(** The specification speaks of the states Stopped, Starting, Ready and
    Degraded; the module has no state field, so they are read off the
    fields the code tests: a pending start, an owned process, the [ready]
    flag.  (A stop in progress is recorded in no field of the manager.) *)
Inductive SupervisorState := Stopped | Starting | Ready | Degraded.

Definition supervisor_state (m : Manager) : SupervisorState :=
  match startupPromise m, process m with
  | Some _, _ => Starting
  | None, None => Stopped
  | None, Some _ => if ready m then Ready else Degraded
  end.

(** A start that succeeds at once on the first port. *)
Definition ready_run : list Event :=
  [CallStart Demo.model_a no_options; PortProbed 0 true;
   StartupProbed 0 true; StartFinally 0].

(** ... followed by one failed probe of the monitoring timer. *)
Definition degraded_run : list Event :=
  ready_run ++ [MonitorTick; MonitorProbed false].

(** C4, as stated, fails: in the Degraded state (process owned, the last
    monitoring probe failed) [transcribe] does not proceed, it throws the
    "not running" error. *)
Lemma C4_degraded_transcribe_rejected :
  exists w,
    run Demo.host initial_world degraded_run = Some w
    /\ supervisor_state (mgr w) = Degraded
    /\ process (mgr w) = Some 0%nat
    /\ c_closed <$> children w !! 0%nat = Some false
    /\ transcribe (mgr w) 17 Demo.wav_header no_options = TThrow err_not_running.
Proof.
  eexists. split; [vm_compute; reflexivity|].
  repeat split; vm_compute; reflexivity.
Qed.

Lemma err_not_running_distinct : err_not_running <> err_requires_wav.
Proof. discriminate. Qed.

(** C4, amended: [transcribe] goes on to build and send the request
    exactly when the [ready] flag is set and a process is owned (and then
    only if the payload is WAV or a transcoder is available); in every
    other state, Degraded included, it throws the "not running" error and
    writes no request. *)
Theorem C4_transcribe_gate
    (m : Manager) (now : Z) (audioBuffer : list byte) (o : Options) :
  (ready m = true /\ process m <> None ->
     (isWav audioBuffer || canConvert m = true ->
        exists req, transcribe m now audioBuffer o = TSend req
          /\ rq_method req = "POST" /\ rq_path req = "/inference"
          /\ rq_hostname req = "127.0.0.1" /\ rq_port req = port m
          /\ rq_parts req =
               transcribe_parts ("----WhisperBoundary" +:+ string_of_Z now)
                 audioBuffer o)
     /\ (isWav audioBuffer || canConvert m = false ->
           transcribe m now audioBuffer o = TThrow err_requires_wav))
  /\ (~ (ready m = true /\ process m <> None) ->
        transcribe m now audioBuffer o = TThrow err_not_running)
  /\ (supervisor_state m = Degraded \/ supervisor_state m = Stopped ->
        transcribe m now audioBuffer o = TThrow err_not_running).
Proof.
  assert (Hgate : ~ (ready m = true /\ process m <> None) ->
                  transcribe m now audioBuffer o = TThrow err_not_running).
  { intros Hnot. unfold transcribe.
    destruct (ready m); simpl.
    - destruct (bool_decide_reflect (process m <> None)) as [Hp|Hp]; simpl;
        [|reflexivity]. exfalso. apply Hnot. split; [reflexivity | exact Hp].
    - reflexivity. }
  split; [|split; [exact Hgate|]].
  - intros [Hready Hproc]. unfold transcribe. rewrite Hready.
    rewrite (bool_decide_eq_true_2 _ Hproc). simpl. split.
    + intros Hfmt. apply orb_true_iff in Hfmt.
      destruct (isWav audioBuffer) eqn:Hwav; simpl.
      * eexists. repeat split; reflexivity.
      * destruct Hfmt as [Hf|Hf]; [discriminate|]. rewrite Hf. simpl.
        eexists. repeat split; reflexivity.
    + intros Hfmt. apply orb_false_iff in Hfmt. destruct Hfmt as [-> ->].
      reflexivity.
  - intros Hst. apply Hgate. intros [Hready Hproc].
    unfold supervisor_state in Hst. rewrite Hready in Hst.
    destruct (startupPromise m), (process m); destruct Hst; congruence.
Qed.

(** ** start on a ready supervisor *)

(** The guard of line 260 where it applies: in a supervisor that is
    Ready, with [modelPath] equal to the requested path and [usingCuda]
    (the variant in effect) equal to the requested [useCuda], [start]
    returns at once: the call completes successfully and the world is the
    old one but for the record of the call itself, so the manager is
    unchanged, no signal was sent, no process spawned and no port scan
    begun; a repeated call behaves the same. *)
Theorem start_on_ready_same_variant_is_noop
    (h : Host) (w : World) (model : string) (o : Options) :
  supervisor_state (mgr w) = Ready ->
  modelPath (mgr w) = Some model ->
  usingCuda (mgr w) = useCuda_or_false o ->
  let w' := start_call h model o w in
  step h w (CallStart model o) = Some w'
  /\ w' = with_starts (starts w ++ [mkStart model o (SDone (Ok tt))]) w
  /\ start_outcome w' (length (starts w)) = Some (Ok tt)
  /\ mgr w' = mgr w /\ children w' = children w /\ signals w' = signals w
  /\ doStarts w' = doStarts w /\ stops w' = stops w
  /\ mgr (start_call h model o w') = mgr w
  /\ children (start_call h model o w') = children w.
Proof.
  intros Hst Hmodel Hcuda.
  assert (Hnoop : forall v, mgr v = mgr w ->
             start_call h model o v
             = with_starts (starts v ++ [mkStart model o (SDone (Ok tt))]) v).
  { intros v Hv. unfold start_call. rewrite Hv.
    unfold supervisor_state in Hst.
    destruct (startupPromise (mgr w)); [discriminate|].
    destruct (process (mgr w)); [|discriminate].
    destruct (ready (mgr w)); [|discriminate].
    rewrite Hmodel, Hcuda, bool_decide_eq_true_2 by reflexivity.
    rewrite eqb_reflx. reflexivity. }
  simpl. rewrite (Hnoop w eq_refl).
  repeat split; try reflexivity.
  - unfold start_outcome. simpl. rewrite list_lookup_middle by reflexivity.
    reflexivity.
  - rewrite Hnoop; reflexivity.
  - rewrite Hnoop; reflexivity.
Qed.

(** The value compared by that guard: [usingCuda] holds what [_doStart]
    stored, the variant in effect, where line 259 speaks of the CUDA
    preference.  After a CUDA request that fell back to the CPU binary it
    is [false], so the same request made again does not find it equal and
    restarts the server. *)
Definition fallback_ready_run : list Event :=
  [CallStart Demo.model_a Demo.cuda_options; PortProbed 0 true;
   StartupProbed 0 true; StartFinally 0].

Remark start_repeated_after_fallback_restarts :
  exists w w',
    run Demo.host initial_world fallback_ready_run = Some w
    /\ supervisor_state (mgr w) = Ready
    /\ usingCuda (mgr w) = false
    /\ step Demo.host w (CallStart Demo.model_a Demo.cuda_options) = Some w'
    /\ signals w' = [(0%nat, SIGTERM)]
    /\ s_phase <$> starts w' !! 1%nat = Some (SAwaitStop 0).
Proof.
  eexists. eexists. split; [vm_compute; reflexivity|].
  split; [vm_compute; reflexivity|]. split; [vm_compute; reflexivity|].
  split; [vm_compute; reflexivity|]. split; vm_compute; reflexivity.
Qed.

(** The world after [ready_run] on the demonstration host. *)
Definition ready_world : World :=
  Eval vm_compute in default initial_world (run Demo.host initial_world ready_run).

Lemma start_on_ready_same_variant_example :
  step Demo.host ready_world (CallStart Demo.model_a no_options)
  = Some (with_starts (starts ready_world
                         ++ [mkStart Demo.model_a no_options (SDone (Ok tt))])
            ready_world).
Proof.
  destruct (start_on_ready_same_variant_is_noop Demo.host ready_world
              Demo.model_a no_options eq_refl eq_refl eq_refl) as (Hstep & Hw & _).
  rewrite Hstep, Hw. reflexivity.
Defined.

(** ** Stepping one activation of _doStart *)

Lemma alter_as_insert {A} (f : A -> A) (l : list A) (i : nat) (x : A) :
  l !! i = Some x -> alter f i l = <[i := f x]> l.
Proof.
  revert i. induction l as [|y l IH]; intros [|i] Hx; simpl in *; try discriminate.
  - injection Hx as ->. reflexivity.
  - f_equal. apply IH, Hx.
Qed.

Lemma alter_last {A} (f : A -> A) (l : list A) (x : A) :
  alter f (length l) (l ++ [x]) = l ++ [f x].
Proof. induction l as [|y l IH]; simpl; [reflexivity | f_equal; exact IH]. Qed.

Lemma insert_last {A} (l : list A) (x y : A) :
  <[length l := y]> (l ++ [x]) = l ++ [y].
Proof. induction l as [|z l IH]; simpl; [reflexivity | f_equal; exact IH]. Qed.

Lemma with_doStarts_same (w : World) : with_doStarts (doStarts w) w = w.
Proof. destruct w; reflexivity. Qed.

Section ActivationSteps.
Variable h : Host.

(** The activation [d] in phase [ph], everything else as in [w]. *)
Definition in_phase (d : nat) (op : DoStart) (ph : DoStartPhase) (w : World) : World :=
  with_doStarts (<[d := set_d_phase ph op]> (doStarts w)) w.

Lemma step_port_miss (w : World) (d : nat) (op : DoStart) (p : Z) :
  doStarts w !! d = Some op -> d_phase op = DScan p -> p + 1 <= PORT_RANGE_END ->
  step h w (PortProbed d false) = Some (in_phase d op (DScan (p + 1)) w).
Proof.
  intros Hd Hph Hle. simpl. rewrite Hd, Hph. unfold doStart_probed, in_phase.
  rewrite (alter_as_insert _ _ _ _ Hd).
  destruct (Z.leb_spec (p + 1) PORT_RANGE_END); [reflexivity | lia].
Qed.

Lemma step_port_last_miss (w : World) (d : nat) (op : DoStart) :
  doStarts w !! d = Some op -> d_phase op = DScan PORT_RANGE_END ->
  step h w (PortProbed d false)
  = Some (in_phase d op (DSettled (Throw err_no_port)) w).
Proof.
  intros Hd Hph. simpl. rewrite Hd, Hph. unfold doStart_probed, in_phase.
  rewrite (alter_as_insert _ _ _ _ Hd). reflexivity.
Qed.

(** [k] ports in a row that cannot be bound move the scan [k] ports up. *)
Lemma run_port_misses (k : nat) (w : World) (d : nat) (op : DoStart) (p : Z) :
  doStarts w !! d = Some op -> d_phase op = DScan p ->
  p + Z.of_nat k <= PORT_RANGE_END ->
  run h w (replicate k (PortProbed d false))
  = Some (in_phase d op (DScan (p + Z.of_nat k)) w).
Proof.
  revert w op p. induction k as [|k IH]; intros w op p Hd Hph Hle.
  - simpl. unfold in_phase. rewrite Z.add_0_r, <- Hph.
    replace (set_d_phase (d_phase op) op) with op by (destruct op; reflexivity).
    rewrite list_insert_id by exact Hd. rewrite with_doStarts_same. reflexivity.
  - change (replicate (S k) (PortProbed d false))
      with (PortProbed d false :: replicate k (PortProbed d false)).
    cbn [run]. rewrite (step_port_miss w d op p Hd Hph) by lia.
    rewrite (IH _ (set_d_phase (DScan (p + 1)) op) (p + 1)).
    + unfold in_phase. simpl. rewrite list_insert_insert_eq.
      replace (p + 1 + Z.of_nat k) with (p + Z.of_nat (S k)) by lia.
      reflexivity.
    + unfold in_phase. simpl. apply list_lookup_insert_eq.
      apply lookup_lt_Some in Hd. exact Hd.
    + reflexivity.
    + lia.
Qed.

End ActivationSteps.

(** ** Locator calls touch caches only *)

(** [m'] differs from [m] at most in the cache fields. *)
Definition same_but_caches (m m' : Manager) : Prop :=
  process m' = process m /\ port m' = port m /\ ready m' = ready m
  /\ modelPath m' = modelPath m /\ startupPromise m' = startupPromise m
  /\ healthCheckInterval m' = healthCheckInterval m
  /\ canConvert m' = canConvert m /\ usingCuda m' = usingCuda m.

Lemma same_but_caches_refl (m : Manager) : same_but_caches m m.
Proof. repeat split. Qed.

Lemma same_but_caches_trans (m1 m2 m3 : Manager) :
  same_but_caches m1 m2 -> same_but_caches m2 m3 -> same_but_caches m1 m3.
Proof. unfold same_but_caches. intuition congruence. Qed.

Lemma getServerBinaryPath_caches (h : Host) (uc : bool) (m : Manager) :
  same_but_caches m (getServerBinaryPath h uc m).2.
Proof.
  unfold getServerBinaryPath.
  destruct (truthy _); [apply same_but_caches_refl|].
  destruct (List.find _ _); [|apply same_but_caches_refl].
  destruct uc; repeat split.
Qed.

Lemma getFFmpegPath_caches (h : Host) (m : Manager) :
  same_but_caches m (getFFmpegPath h m).2.
Proof.
  unfold getFFmpegPath. destruct (truthy _); [apply same_but_caches_refl|].
  destruct (ffmpegSearch h); repeat split.
Qed.

Lemma checkCudaAvailable_caches (h : Host) (m : Manager) :
  same_but_caches m (checkCudaAvailable h m).2.
Proof.
  unfold checkCudaAvailable. destruct (cudaAvailable m); [apply same_but_caches_refl|].
  destruct (is_platform h "darwin"); [repeat split|].
  destruct (nvidia_smi_ok h); repeat split.
Qed.

(** What [getStatus] reports of the supervised process. *)
Lemma getStatus_fields (h : Host) (m : Manager) :
  st_running (getStatus h m).1 = ready m && bool_decide (process m <> None)
  /\ st_port (getStatus h m).1 = port m
  /\ st_modelPath (getStatus h m).1 = modelPath m
  /\ st_usingCuda (getStatus h m).1 = usingCuda m
  /\ (modelPath m = None -> st_modelName (getStatus h m).1 = None)
  /\ same_but_caches m (getStatus h m).2.
Proof.
  unfold getStatus, isAvailable, isCudaBinaryAvailable.
  pose proof (getServerBinaryPath_caches h false m) as H1.
  destruct (getServerBinaryPath h false m) as [a m1]. simpl in H1.
  pose proof (checkCudaAvailable_caches h m1) as H2.
  destruct (checkCudaAvailable h m1) as [ca m2]. simpl in H2.
  pose proof (getServerBinaryPath_caches h true m2) as H3.
  destruct (getServerBinaryPath h true m2) as [cb m3]. simpl in H3. simpl.
  destruct H1 as (Hp & Hport & Hr & Hm & Hs & Hh & Hc & Hu).
  rewrite Hp, Hport, Hr, Hm, Hu.
  split; [reflexivity|]. split; [reflexivity|]. split; [reflexivity|].
  split; [reflexivity|]. split.
  - intros ->. reflexivity.
  - eapply same_but_caches_trans; [|exact H3].
    eapply same_but_caches_trans; [|exact H2]. repeat split; assumption.
Qed.

(** ** Acceleration fallback *)

Section Fallback.
Variable h : Host.

(** [_doStart] when the CUDA binary does not resolve and the CPU binary
    [b] does: [usingCuda] is cleared and the port scan begins. *)
Lemma doStart_call_fallback (w : World) (model : string) (o : Options) (b : string) :
  useCuda o = Some true ->
  truthy (getServerBinaryPath h true (mgr w)).1 = false ->
  (getServerBinaryPath h false (getServerBinaryPath h true (mgr w)).2).1 = Some b ->
  truthy (Some b) = true ->
  existsSync h model = true ->
  doStart_call h model o w
  = (with_doStarts
       (doStarts w ++ [mkDoStart model o (Some b) "" None (DScan PORT_RANGE_START)])
       (with_mgr
          (set_usingCuda false
             (getServerBinaryPath h false (getServerBinaryPath h true (mgr w)).2).2) w),
     length (doStarts w)).
Proof.
  intros Hcuda Hnone Hcpu Hb Hmodel.
  unfold doStart_call, resolve_binary, useCuda_or_false. rewrite Hcuda.
  cbn [default from_option id].
  destruct (getServerBinaryPath h true (mgr w)) as [b1 m1]. cbn [fst snd] in *.
  rewrite Hnone.
  destruct (getServerBinaryPath h false m1) as [b2 m2]. cbn [fst snd] in *.
  subst b2. rewrite Hb, Hmodel. reflexivity.
Qed.

End Fallback.

(** ** The spawn segment of _doStart *)

Section Spawn.
Variable h : Host.

(** The child object created at line 334. *)
Definition spawned_child (d : nat) (op : DoStart) (p : Z) (m : Manager) : Child :=
  let ffmpegPath :=
    (getFFmpegPath h (set_modelPath (Some (d_modelPath op)) (set_port (Some p) m))).1 in
  let serverBinary := default "" (d_serverBinary op) in
  let envPATH0 := path_dirname h serverBinary +:+ pathSep h
                  +:+ str_or (default "" (envPATH h)) "" in
  mkChild serverBinary (spawn_args (d_modelPath op) p ffmpegPath (d_options op))
    (if truthy ffmpegPath
     then path_dirname h (default "" ffmpegPath) +:+ pathSep h +:+ envPATH0
     else envPATH0)
    (path_dirname h serverBinary) d false false [].

(** The manager once [this.process] is assigned. *)
Definition spawned_manager (op : DoStart) (p : Z) (c : nat) (m : Manager) : Manager :=
  let r := getFFmpegPath h (set_modelPath (Some (d_modelPath op)) (set_port (Some p) m)) in
  set_process (Some c) (set_canConvert (truthy r.1) r.2).

Lemma doStart_spawn_eq (w : World) (d : nat) (op : DoStart) (p : Z) :
  doStarts w !! d = Some op ->
  doStart_spawn h d op p w
  = in_phase d op (DPoll (now w) 1)
      (with_children (children w ++ [spawned_child d op p (mgr w)])
         (with_mgr (spawned_manager op p (length (children w)) (mgr w)) w)).
Proof.
  intros Hd. unfold doStart_spawn, spawned_child, spawned_manager, in_phase.
  destruct (getFFmpegPath h _) as [ffmpegPath m2]. cbn [fst snd].
  cbv zeta.
  set (ch := mkChild _ _ _ _ _ _ _ _).
  set (m3 := set_process _ _).
  unfold waitForReady_loop, process_gone.
  cbn [now with_children with_mgr mgr children doStarts].
  rewrite Z.sub_diag. change (0 <? STARTUP_TIMEOUT_MS) with true.
  cbn [process m3 set_process]. rewrite list_lookup_middle by reflexivity.
  cbn [killed ch]. rewrite (alter_as_insert _ _ _ _ Hd). reflexivity.
Qed.

Lemma spawned_manager_fields (op : DoStart) (p : Z) (c : nat) (m : Manager) :
  let m' := spawned_manager op p c m in
  process m' = Some c /\ port m' = Some p /\ modelPath m' = Some (d_modelPath op)
  /\ ready m' = ready m /\ usingCuda m' = usingCuda m
  /\ startupPromise m' = startupPromise m
  /\ healthCheckInterval m' = healthCheckInterval m.
Proof.
  unfold spawned_manager.
  pose proof (getFFmpegPath_caches h
                (set_modelPath (Some (d_modelPath op)) (set_port (Some p) m))) as Hc.
  destruct (getFFmpegPath h _) as [f m2]. cbn [fst snd] in *.
  destruct Hc as (Hp & Hport & Hr & Hm & Hs & Hh & Hcv & Hu).
  cbn. rewrite Hport, Hm, Hr, Hu, Hs, Hh. repeat split.
Qed.

End Spawn.

Lemma run_app (h : Host) (w : World) (es1 es2 : list Event) :
  run h w (es1 ++ es2) = run h w es1 ≫= fun w' => run h w' es2.
Proof.
  revert w. induction es1 as [|e es1 IH]; intros w; simpl; [reflexivity|].
  destruct (step h w e); simpl; [apply IH | reflexivity].
Qed.

(** Projections of records built by the setters, and nothing else. *)
Ltac fields :=
  cbn [mgr children doStarts stops starts now monitorProbes timers uncaught signals
       with_mgr with_children with_doStarts with_stops with_starts with_now
       with_monitorProbes with_timers with_uncaught with_signals
       process port ready modelPath startupPromise healthCheckInterval
       cachedServerBinaryPath cachedCudaBinaryPath cachedFFmpegPath canConvert
       usingCuda cudaAvailable
       set_process set_port set_ready set_modelPath set_startupPromise
       set_healthCheckInterval set_cachedServerBinaryPath set_cachedCudaBinaryPath
       set_cachedFFmpegPath set_canConvert set_usingCuda set_cudaAvailable
       d_modelPath d_options d_serverBinary d_stderrBuffer d_exitCode d_phase
       set_d_phase set_d_stderrBuffer set_d_exitCode
       s_modelPath s_options s_phase set_s_phase
       c_binary c_args c_envPATH c_cwd c_owner killed c_closed c_onceClose
       set_killed set_c_closed set_c_onceClose
       in_phase start_finally startHealthCheck stop_reset fst snd].

Lemma stopHealthCheck_fields (m : Manager) :
  let m' := stopHealthCheck m in
  process m' = process m /\ port m' = port m /\ ready m' = ready m
  /\ modelPath m' = modelPath m /\ startupPromise m' = startupPromise m
  /\ canConvert m' = canConvert m /\ usingCuda m' = usingCuda m
  /\ healthCheckInterval m' = None.
Proof.
  unfold stopHealthCheck. destruct (healthCheckInterval m) eqn:Hh; repeat split.
  exact Hh.
Qed.

Section ReadinessSteps.
Variable h : Host.

Lemma in_phase_lookup (w : World) (d : nat) (op : DoStart) (ph : DoStartPhase) :
  doStarts w !! d = Some op ->
  doStarts (in_phase d op ph w) !! d = Some (set_d_phase ph op).
Proof.
  intros Hd. unfold in_phase. simpl. apply list_lookup_insert_eq.
  apply lookup_lt_Some in Hd. exact Hd.
Qed.

Lemma in_phase_twice (w : World) (d : nat) (op op' : DoStart) (ph ph' : DoStartPhase) :
  in_phase d op' ph' (in_phase d op ph w)
  = with_doStarts (<[d := set_d_phase ph' op']> (doStarts w)) w.
Proof. unfold in_phase. simpl. rewrite list_insert_insert_eq. reflexivity. Qed.

Lemma step_port_hit (w : World) (d : nat) (op : DoStart) (p : Z) :
  doStarts w !! d = Some op -> d_phase op = DScan p ->
  step h w (PortProbed d true)
  = Some (in_phase d op (DPoll (now w) 1)
            (with_children (children w ++ [spawned_child h d op p (mgr w)])
               (with_mgr (spawned_manager h op p (length (children w)) (mgr w)) w))).
Proof.
  intros Hd Hph. simpl. rewrite Hd, Hph. unfold doStart_probed.
  rewrite (doStart_spawn_eq h w d op p Hd). reflexivity.
Qed.

Lemma step_startup_ok (w : World) (d : nat) (op : DoStart) (st : Z) (pc : nat) :
  doStarts w !! d = Some op -> d_phase op = DPoll st pc ->
  step h w (StartupProbed d true)
  = Some (in_phase d op (DSettled (Ok tt))
            (startHealthCheck (with_mgr (set_ready true (mgr w)) w))).
Proof.
  intros Hd Hph. simpl. rewrite Hd, Hph. unfold waitForReady_probed, in_phase.
  cbn [doStarts startHealthCheck with_timers with_mgr].
  rewrite (alter_as_insert _ _ _ _ Hd). reflexivity.
Qed.

Lemma step_startup_fail (w : World) (d : nat) (op : DoStart) (st : Z) (pc : nat) :
  doStarts w !! d = Some op -> d_phase op = DPoll st pc ->
  step h w (StartupProbed d false)
  = Some (in_phase d op (DSleep st pc (now w + STARTUP_POLL_INTERVAL_MS)) w).
Proof.
  intros Hd Hph. simpl. rewrite Hd, Hph. unfold waitForReady_probed, in_phase.
  rewrite (alter_as_insert _ _ _ _ Hd). reflexivity.
Qed.

Lemma step_poll_timer (w : World) (d : nat) (op : DoStart) (st : Z) (pc : nat)
    (wake : Z) :
  doStarts w !! d = Some op -> d_phase op = DSleep st pc wake -> wake <= now w ->
  step h w (PollTimer d)
  = Some (in_phase d op (waitForReady_loop st pc op w) w).
Proof.
  intros Hd Hph Hwake. simpl. rewrite Hd, Hph.
  destruct (Z.leb_spec wake (now w)); [|lia]. unfold in_phase.
  rewrite (alter_as_insert _ _ _ _ Hd). reflexivity.
Qed.

End ReadinessSteps.

(** *** The same steps, as facts about the next world *)

Section StepFacts.
Variable h : Host.

Lemma port_misses_facts (k : nat) (w : World) (d : nat) (op : DoStart) (p : Z) :
  doStarts w !! d = Some op -> d_phase op = DScan p ->
  p + Z.of_nat k <= PORT_RANGE_END ->
  exists w',
    run h w (replicate k (PortProbed d false)) = Some w'
    /\ mgr w' = mgr w /\ children w' = children w /\ starts w' = starts w
    /\ stops w' = stops w /\ now w' = now w /\ signals w' = signals w
    /\ doStarts w' !! d = Some (set_d_phase (DScan (p + Z.of_nat k)) op).
Proof.
  intros Hd Hph Hle. eexists. split; [exact (run_port_misses h k w d op p Hd Hph Hle)|].
  pose proof (in_phase_lookup w d op (DScan (p + Z.of_nat k)) Hd) as Hl.
  repeat (split; [reflexivity|]). exact Hl.
Qed.

Lemma port_hit_facts (w : World) (d : nat) (op : DoStart) (p : Z) :
  doStarts w !! d = Some op -> d_phase op = DScan p ->
  exists w',
    step h w (PortProbed d true) = Some w'
    /\ process (mgr w') = Some (length (children w))
    /\ port (mgr w') = Some p
    /\ modelPath (mgr w') = Some (d_modelPath op)
    /\ ready (mgr w') = ready (mgr w)
    /\ usingCuda (mgr w') = usingCuda (mgr w)
    /\ startupPromise (mgr w') = startupPromise (mgr w)
    /\ healthCheckInterval (mgr w') = healthCheckInterval (mgr w)
    /\ children w' = children w ++ [spawned_child h d op p (mgr w)]
    /\ starts w' = starts w /\ stops w' = stops w /\ now w' = now w
    /\ signals w' = signals w
    /\ doStarts w' !! d = Some (set_d_phase (DPoll (now w) 1) op).
Proof.
  intros Hd Hph. eexists. split; [exact (step_port_hit h w d op p Hd Hph)|].
  pose proof (spawned_manager_fields h op p (length (children w)) (mgr w)) as HH.
  cbv zeta in HH.
  destruct HH as (Hp & Hport & Hm & Hr & Hu & Hs & Hh).
  split; [exact Hp|]. split; [exact Hport|]. split; [exact Hm|].
  split; [exact Hr|]. split; [exact Hu|]. split; [exact Hs|]. split; [exact Hh|].
  repeat (split; [reflexivity|]).
  apply (in_phase_lookup
           (with_children (children w ++ [spawned_child h d op p (mgr w)])
              (with_mgr (spawned_manager h op p (length (children w)) (mgr w)) w))
           d op (DPoll (now w) 1) Hd).
Qed.

Lemma startup_ok_facts (w : World) (d : nat) (op : DoStart) (st : Z) (pc : nat) :
  doStarts w !! d = Some op -> d_phase op = DPoll st pc ->
  exists w',
    step h w (StartupProbed d true) = Some w'
    /\ ready (mgr w') = true
    /\ process (mgr w') = process (mgr w)
    /\ port (mgr w') = port (mgr w)
    /\ modelPath (mgr w') = modelPath (mgr w)
    /\ usingCuda (mgr w') = usingCuda (mgr w)
    /\ startupPromise (mgr w') = startupPromise (mgr w)
    /\ healthCheckInterval (mgr w') = Some (timers w)
    /\ children w' = children w /\ starts w' = starts w /\ stops w' = stops w
    /\ now w' = now w /\ signals w' = signals w
    /\ doStarts w' !! d = Some (set_d_phase (DSettled (Ok tt)) op).
Proof.
  intros Hd Hph. eexists. split; [exact (step_startup_ok h w d op st pc Hd Hph)|].
  pose proof (stopHealthCheck_fields (set_ready true (mgr w))) as HH.
  cbv zeta in HH. destruct HH as (Hp & Hport & Hr & Hm & Hs & Hc & Hu & Hh).
  fields. rewrite Hp, Hport, Hr, Hm, Hs, Hu. fields.
  repeat (split; [reflexivity|]).
  apply (in_phase_lookup (startHealthCheck (with_mgr (set_ready true (mgr w)) w))
           d op (DSettled (Ok tt)) Hd).
Qed.

Lemma start_finally_facts (w : World) (t : nat) (a : Start) (d : nat)
    (op : DoStart) (r : Result unit) :
  starts w !! t = Some a -> s_phase a = SAwaitStartup d ->
  doStarts w !! d = Some op -> d_phase op = DSettled r ->
  exists w',
    step h w (StartFinally t) = Some w'
    /\ mgr w' = set_startupPromise None (mgr w)
    /\ children w' = children w /\ doStarts w' = doStarts w
    /\ stops w' = stops w /\ now w' = now w /\ signals w' = signals w
    /\ start_outcome w' t = Some r.
Proof.
  intros Ht Hph Hd Hr. exists (start_finally t r w).
  split; [simpl; rewrite Ht, Hph, Hd; simpl; rewrite Hr; reflexivity|].
  repeat (split; [reflexivity|]).
  unfold start_outcome. fields. rewrite list_lookup_alter_eq, Ht. reflexivity.
Qed.

(** The two ways a [start] reaches line 266: directly from its call
    when nothing has to be stopped, or after [await this.stop()]. *)
Definition launches (w : World) (e : Event) (t : nat) (model : string)
    (o : Options) : Prop :=
  (e = CallStart model o /\ t = length (starts w)
   /\ supervisor_state (mgr w) = Stopped /\ ready (mgr w) = false)
  \/ (e = StartAfterStop t
      /\ exists s, starts w !! t = Some (mkStart model o (SAwaitStop s))
                   /\ stops w !! s = Some StDone).

(** A launch whose CUDA request falls back to the CPU binary [b]. *)
Lemma launch_fallback_facts (w : World) (e : Event) (t : nat) (model : string)
    (o : Options) (b : string) :
  launches w e t model o ->
  useCuda o = Some true ->
  truthy (getServerBinaryPath h true (mgr w)).1 = false ->
  (getServerBinaryPath h false (getServerBinaryPath h true (mgr w)).2).1 = Some b ->
  truthy (Some b) = true ->
  existsSync h model = true ->
  exists w',
    step h w e = Some w'
    /\ usingCuda (mgr w') = false
    /\ startupPromise (mgr w') = Some (length (doStarts w))
    /\ children w' = children w
    /\ starts w' !! t = Some (mkStart model o (SAwaitStartup (length (doStarts w))))
    /\ doStarts w' !! length (doStarts w)
       = Some (mkDoStart model o (Some b) "" None (DScan PORT_RANGE_START)).
Proof.
  intros Hlaunch Hcuda Hnone Hcpu Hb Hmodel.
  pose proof (doStart_call_fallback h w model o b Hcuda Hnone Hcpu Hb Hmodel) as Hcall.
  destruct Hlaunch as [(-> & -> & Hst & Hready)|(-> & s & Ht & Hs)].
  - unfold supervisor_state in Hst. rewrite Hready in Hst.
    destruct (startupPromise (mgr w)) eqn:Hsp; [discriminate|].
    destruct (process (mgr w)) eqn:Hproc; [discriminate|].
    eexists. split.
    { simpl. unfold start_call. rewrite Hsp, Hready, Hproc. cbn [andb].
      unfold start_launch. rewrite Hcall. reflexivity. }
    fields. repeat (split; [reflexivity|]).
    split; apply list_lookup_middle; reflexivity.
  - eexists. split.
    { simpl. rewrite Ht. cbn [s_phase]. rewrite Hs.
      unfold start_after_stop, start_launch. cbn [s_modelPath s_options].
      rewrite Hcall. reflexivity. }
    fields. repeat (split; [reflexivity|]).
    split; [|apply list_lookup_middle; reflexivity].
    rewrite list_lookup_alter_eq, Ht. reflexivity.
Qed.

End StepFacts.

(** ** The readiness protocol *)

Section Readiness.
Variable h : Host.

Lemma advance_facts (w : World) (dt : Z) :
  0 <= dt ->
  exists w',
    step h w (Advance dt) = Some w'
    /\ mgr w' = mgr w /\ children w' = children w /\ doStarts w' = doStarts w
    /\ starts w' = starts w /\ stops w' = stops w /\ signals w' = signals w
    /\ now w' = now w + dt.
Proof.
  intros Hdt. exists (with_now (now w + dt) w). simpl.
  destruct (Z.leb_spec 0 dt); [|lia]. repeat split.
Qed.

Lemma startup_fail_facts (w : World) (d : nat) (op : DoStart) (st : Z) (pc : nat) :
  doStarts w !! d = Some op -> d_phase op = DPoll st pc ->
  exists w',
    step h w (StartupProbed d false) = Some w'
    /\ mgr w' = mgr w /\ children w' = children w
    /\ starts w' = starts w /\ stops w' = stops w /\ signals w' = signals w
    /\ now w' = now w
    /\ doStarts w' !! d
       = Some (set_d_phase (DSleep st pc (now w + STARTUP_POLL_INTERVAL_MS)) op).
Proof.
  intros Hd Hph. eexists. split; [exact (step_startup_fail h w d op st pc Hd Hph)|].
  repeat (split; [reflexivity|]).
  exact (in_phase_lookup w d op _ Hd).
Qed.

Lemma poll_timer_facts (w : World) (d : nat) (op : DoStart) (st : Z) (pc : nat)
    (wake : Z) :
  doStarts w !! d = Some op -> d_phase op = DSleep st pc wake -> wake <= now w ->
  exists w',
    step h w (PollTimer d) = Some w'
    /\ mgr w' = mgr w /\ children w' = children w
    /\ starts w' = starts w /\ stops w' = stops w /\ signals w' = signals w
    /\ now w' = now w
    /\ doStarts w' !! d = Some (set_d_phase (waitForReady_loop st pc op w) op).
Proof.
  intros Hd Hph Hwake. eexists.
  split; [exact (step_poll_timer h w d op st pc wake Hd Hph Hwake)|].
  repeat (split; [reflexivity|]).
  exact (in_phase_lookup w d op _ Hd).
Qed.

(** The owned child is there and was not signalled. *)
Definition child_alive (w : World) (c : nat) : Prop :=
  process (mgr w) = Some c
  /\ exists ch, children w !! c = Some ch /\ killed ch = false.

Lemma child_alive_not_gone (w : World) (c : nat) :
  child_alive w c -> process_gone w = false.
Proof.
  intros (Hp & ch & Hch & Hk). unfold process_gone. rewrite Hp, Hch. exact Hk.
Qed.

Lemma child_alive_same (w w' : World) (c : nat) :
  mgr w' = mgr w -> children w' = children w -> child_alive w c -> child_alive w' c.
Proof. unfold child_alive. intros -> ->. auto. Qed.

Lemma waitForReady_loop_again (st : Z) (pc : nat) (op : DoStart) (w : World) (c : nat) :
  now w - st < STARTUP_TIMEOUT_MS -> child_alive w c ->
  waitForReady_loop st pc op w = DPoll st (S pc).
Proof.
  intros Hlt Halive. unfold waitForReady_loop.
  destruct (Z.ltb_spec (now w - st) STARTUP_TIMEOUT_MS); [|lia].
  rewrite (child_alive_not_gone w c Halive). reflexivity.
Qed.


Lemma waitForReady_loop_died (st : Z) (pc : nat) (op : DoStart) (w : World) :
  now w - st < STARTUP_TIMEOUT_MS -> process_gone w = true ->
  waitForReady_loop st pc op w = DSettled (Throw (err_died (died_details op))).
Proof.
  intros Hlt Hgone. unfold waitForReady_loop.
  destruct (Z.ltb_spec (now w - st) STARTUP_TIMEOUT_MS); [|lia].
  rewrite Hgone. reflexivity.
Qed.

(** One round of the protocol in which the probe fails: the probe takes
    [r.1] ms to answer, and the poll timer fires [r.2] ms later. *)
Definition poll_round (d : nat) (r : Z * Z) : list Event :=
  [Advance r.1; StartupProbed d false; Advance r.2; PollTimer d].

Definition poll_rounds (d : nat) (rs : list (Z * Z)) : list Event :=
  concat (poll_round d <$> rs).

Definition round_ok (r : Z * Z) : Prop :=
  0 <= r.1 /\ STARTUP_POLL_INTERVAL_MS <= r.2.

Fixpoint elapsed (rs : list (Z * Z)) : Z :=
  match rs with
  | [] => 0
  | r :: rs' => r.1 + r.2 + elapsed rs'
  end.

Lemma elapsed_nonneg (rs : list (Z * Z)) : Forall round_ok rs -> 0 <= elapsed rs.
Proof.
  induction 1 as [|r rs [H1 H2] _ IH]; simpl; [lia|].
  unfold STARTUP_POLL_INTERVAL_MS in H2. lia.
Qed.

(** A failed round leaves the activation at the head of the loop. *)
Lemma poll_round_facts (w : World) (d : nat) (op : DoStart) (st : Z) (pc : nat)
    (r : Z * Z) :
  doStarts w !! d = Some op -> d_phase op = DPoll st pc -> round_ok r ->
  exists w' v,
    run h w (poll_round d r) = Some w'
    /\ mgr w' = mgr w /\ children w' = children w
    /\ starts w' = starts w /\ stops w' = stops w /\ signals w' = signals w
    /\ now w' = now w + r.1 + r.2
    /\ mgr v = mgr w /\ children v = children w /\ now v = now w'
    /\ doStarts w' !! d = Some (set_d_phase (waitForReady_loop st pc op v) op).
Proof.
  intros Hd Hph [Ha Hb]. unfold poll_round. cbn [run].
  destruct (advance_facts w r.1 Ha) as (w1 & -> & Hm1 & Hc1 & Hd1 & Ht1 & Hs1 & Hg1 & Hn1).
  rewrite <- Hd1 in Hd.
  destruct (startup_fail_facts w1 d op st pc Hd Hph)
    as (w2 & -> & Hm2 & Hc2 & Ht2 & Hs2 & Hg2 & Hn2 & Hd2).
  destruct (advance_facts w2 r.2) as (w3 & -> & Hm3 & Hc3 & Hd3 & Ht3 & Hs3 & Hg3 & Hn3).
  { unfold STARTUP_POLL_INTERVAL_MS in Hb. lia. }
  rewrite <- Hd3 in Hd2.
  destruct (poll_timer_facts w3 d _ st pc _ Hd2 eq_refl)
    as (w4 & -> & Hm4 & Hc4 & Ht4 & Hs4 & Hg4 & Hn4 & Hd4).
  { rewrite Hn3, Hn2. lia. }
  exists w4, w3. split; [reflexivity|].
  split; [congruence|]. split; [congruence|]. split; [congruence|].
  split; [congruence|]. split; [congruence|].
  split; [rewrite Hn4, Hn3, Hn2, Hn1; lia|].
  split; [congruence|]. split; [congruence|]. split; [congruence|].
  rewrite Hd4. reflexivity.
Qed.

End Readiness.

Section StartupTimeout.
Variable h : Host.

Lemma poll_rounds_cons (d : nat) (r : Z * Z) (rs : list (Z * Z)) :
  poll_rounds d (r :: rs) = poll_round d r ++ poll_rounds d rs.
Proof. reflexivity. Qed.



(** While the deadline has not passed and the child lives, rounds of
    failed probes only move the clock and the poll counter. *)
Lemma poll_rounds_continue (d : nat) (st : Z) (c : nat) (rs : list (Z * Z)) :
  forall (w : World) (op : DoStart) (pc : nat),
    doStarts w !! d = Some op -> d_phase op = DPoll st pc ->
    child_alive w c -> Forall round_ok rs ->
    now w - st + elapsed rs < STARTUP_TIMEOUT_MS ->
    exists w' op',
      run h w (poll_rounds d rs) = Some w'
      /\ mgr w' = mgr w /\ children w' = children w
      /\ starts w' = starts w /\ stops w' = stops w /\ signals w' = signals w
      /\ now w' = now w + elapsed rs
      /\ doStarts w' !! d = Some op'
      /\ d_phase op' = DPoll st (pc + length rs).
Proof.
  induction rs as [|r rs IH]; intros w op pc Hd Hph Halive Hok Hlt.
  - exists w, op. simpl. rewrite Z.add_0_r, Nat.add_0_r. repeat split; assumption.
  - inversion Hok as [|? ? Hr Hrs]; subst.
    pose proof (elapsed_nonneg rs Hrs) as Hnn. simpl in Hlt.
    destruct (poll_round_facts h w d op st pc r Hd Hph Hr)
      as (w1 & v & Hrun1 & Hm1 & Hc1 & Ht1 & Hs1 & Hg1 & Hn1 & Hmv & Hcv & Hnv & Hd1).
    rewrite (waitForReady_loop_again st pc op v c) in Hd1;
      [| rewrite Hnv, Hn1; lia | exact (child_alive_same w v c Hmv Hcv Halive)].
    destruct (IH w1 _ (S pc) Hd1 eq_refl (child_alive_same w w1 c Hm1 Hc1 Halive) Hrs)
      as (w2 & op2 & Hrun2 & Hm2 & Hc2 & Ht2 & Hs2 & Hg2 & Hn2 & Hd2 & Hph2).
    { rewrite Hn1. lia. }
    exists w2, op2. rewrite poll_rounds_cons, run_app, Hrun1. cbn [mbind option_bind].
    split; [exact Hrun2|].
    split; [congruence|]. split; [congruence|]. split; [congruence|].
    split; [congruence|]. split; [congruence|].
    split; [rewrite Hn2, Hn1; simpl; lia|].
    split; [exact Hd2|]. rewrite Hph2. f_equal. simpl. lia.
Qed.


End StartupTimeout.

(** ** Acceleration fallback, to the end of the start *)

(** C5: a [start] that requests CUDA when the CUDA binary does not
    resolve and the CPU binary [b] does, launched from its call on a
    stopped supervisor or after the stop of the previous process.  The
    model exists; the [k]+1-th port of the range is the first to bind;
    the readiness probe fails any number of times, each round taking
    some time to fail and sleeping at least 100 ms, all within the
    startup window, and is answered at last.  Then the call succeeds, the
    one child spawned runs [b], and [getStatus] afterwards reports
    [running] with [usingCuda = false], which differs from the [useCuda]
    requested. *)
Theorem C5_cuda_request_falls_back_to_cpu
    (h : Host) (w : World) (e : Event) (t : nat) (model : string) (o : Options)
    (b : string) (k : nat) (rs : list (Z * Z)) (dt : Z) :
  launches w e t model o ->
  useCuda o = Some true ->
  truthy (getServerBinaryPath h true (mgr w)).1 = false ->
  (getServerBinaryPath h false (getServerBinaryPath h true (mgr w)).2).1 = Some b ->
  truthy (Some b) = true ->
  existsSync h model = true ->
  (k < 22)%nat ->
  Forall round_ok rs -> elapsed rs < STARTUP_TIMEOUT_MS -> 0 <= dt ->
  let d := length (doStarts w) in
  let c := length (children w) in
  exists w',
    run h w ([e] ++ replicate k (PortProbed d false) ++ [PortProbed d true]
             ++ poll_rounds d rs
             ++ [Advance dt; StartupProbed d true; StartFinally t]) = Some w'
    /\ start_outcome w' t = Some (Ok tt)
    /\ supervisor_state (mgr w') = Ready
    /\ process (mgr w') = Some c
    /\ port (mgr w') = Some (PORT_RANGE_START + Z.of_nat k)
    /\ (exists ch, children w' = children w ++ [ch] /\ c_binary ch = b)
    /\ st_running (getStatus h (mgr w')).1 = true
    /\ st_usingCuda (getStatus h (mgr w')).1 = false
    /\ st_usingCuda (getStatus h (mgr w')).1 <> useCuda_or_false o.
Proof.
  intros Hlaunch Hcuda Hnone Hcpu Hb Hmodel Hk Hrounds Hwindow Hdt d c.
  destruct (launch_fallback_facts h w e t model o b Hlaunch Hcuda Hnone Hcpu Hb Hmodel)
    as (w1 & Hstep1 & Hu1 & Hs1 & Hc1 & Ht1 & Hd1).
  fold d in Hs1, Ht1, Hd1.
  destruct (port_misses_facts h k w1 d _ PORT_RANGE_START Hd1 eq_refl)
    as (w2 & Hrun2 & Hm2 & Hc2 & Ht2 & _ & _ & _ & Hd2).
  { unfold PORT_RANGE_START, PORT_RANGE_END. lia. }
  destruct (port_hit_facts h w2 d _ _ Hd2 eq_refl)
    as (w3 & Hstep3 & Hp3 & Hport3 & _ & Hr3 & Hu3 & Hs3 & _ & Hc3 & Ht3 & _ & Hn3 & _ & Hd3).
  (* the failed rounds of the readiness protocol *)
  assert (Halive : child_alive w3 c).
  { split; [rewrite Hp3, Hc2, Hc1; reflexivity|].
    eexists. split;
      [rewrite Hc3; apply list_lookup_middle; rewrite Hc2, Hc1; reflexivity
      | reflexivity]. }
  destruct (poll_rounds_continue h d (now w2) c rs w3 _ 1 Hd3 eq_refl Halive Hrounds)
    as (v & opv & Hrunv & Hmv & Hcv & Htv & _ & _ & _ & Hdv & Hphv).
  { rewrite Hn3. lia. }
  destruct (advance_facts h v dt Hdt)
    as (v' & Hstepv' & Hmv' & Hcv' & Hdv' & Htv' & _).
  rewrite <- Hdv' in Hdv.
  destruct (startup_ok_facts h v' d opv _ _ Hdv Hphv)
    as (w4 & Hstep4 & Hr4 & Hp4 & Hport4 & _ & Hu4 & Hs4 & _ & Hc4 & Ht4 & _ & _ & _ & Hd4).
  assert (Hstart4 : starts w4 !! t = Some (mkStart model o (SAwaitStartup d))).
  { rewrite Ht4, Htv', Htv, Ht3, Ht2. exact Ht1. }
  destruct (start_finally_facts h w4 t _ d _ (Ok tt) Hstart4 eq_refl Hd4 eq_refl)
    as (w5 & Hstep5 & Hm5 & Hc5 & _ & _ & _ & _ & Hout5).
  exists w5.
  split.
  { rewrite run_app. cbn [run]. rewrite Hstep1. cbn [mbind option_bind].
    rewrite run_app, Hrun2. cbn [mbind option_bind].
    rewrite run_app. cbn [run]. rewrite Hstep3. cbn [mbind option_bind].
    rewrite run_app, Hrunv. cbn [mbind option_bind run].
    rewrite Hstepv', Hstep4, Hstep5. reflexivity. }
  assert (Fp : process (mgr w5) = Some c).
  { rewrite Hm5. fields. rewrite Hp4, Hmv', Hmv, Hp3, Hc2, Hc1. reflexivity. }
  assert (Fr : ready (mgr w5) = true) by (rewrite Hm5; fields; exact Hr4).
  assert (Fu : usingCuda (mgr w5) = false).
  { rewrite Hm5. fields. rewrite Hu4, Hmv', Hmv, Hu3, Hm2. exact Hu1. }
  assert (Fs : startupPromise (mgr w5) = None) by (rewrite Hm5; reflexivity).
  destruct (getStatus_fields h (mgr w5)) as (Grun & _ & _ & Gcuda & _).
  split; [exact Hout5|].
  split; [unfold supervisor_state; rewrite Fs, Fp, Fr; reflexivity|].
  split; [exact Fp|].
  split; [rewrite Hm5; fields; rewrite Hport4, Hmv', Hmv; exact Hport3|].
  split.
  { eexists. rewrite Hc5, Hc4, Hcv', Hcv, Hc3, Hc2, Hc1. split; reflexivity. }
  split; [rewrite Grun, Fr, Fp; reflexivity|].
  split; [rewrite Gcuda; exact Fu|].
  rewrite Gcuda, Fu. unfold useCuda_or_false. rewrite Hcuda. discriminate.
Qed.

(** The third port binds; the probe is refused twice (after 2000 ms, the
    probe's own timeout, and after 20 ms), then answers. *)
Lemma C5_cuda_fallback_witness :
  exists w',
    run Demo.host initial_world
      ([CallStart Demo.model_a Demo.cuda_options]
       ++ replicate 2 (PortProbed 0 false) ++ [PortProbed 0 true]
       ++ poll_rounds 0 [(2000, 100); (20, 150)]
       ++ [Advance 30; StartupProbed 0 true; StartFinally 0]) = Some w'
    /\ start_outcome w' 0 = Some (Ok tt)
    /\ supervisor_state (mgr w') = Ready
    /\ (exists ch, children w' = [ch] /\ c_binary ch = Demo.cpu_binary)
    /\ st_running (getStatus Demo.host (mgr w')).1 = true
    /\ st_usingCuda (getStatus Demo.host (mgr w')).1 = false.
Proof.
  destruct (C5_cuda_request_falls_back_to_cpu Demo.host initial_world
              (CallStart Demo.model_a Demo.cuda_options) 0
              Demo.model_a Demo.cuda_options Demo.cpu_binary 2
              [(2000, 100); (20, 150)] 30)
    as (w' & Hrun' & Hout & Hst & _ & _ & Hch & Hrun & Hcuda & _);
    [left; repeat split; reflexivity
    | vm_compute; reflexivity | vm_compute; reflexivity | vm_compute; reflexivity
    | vm_compute; reflexivity | vm_compute; reflexivity | lia
    | repeat constructor; vm_compute; discriminate
    | vm_compute; reflexivity | lia | ].
  exists w'. repeat split; assumption.
Defined.

(** ** A repeated request after a fallback *)

(** C8: the supervisor is Ready on [model], reached by a start that
    requested CUDA and fell back to the CPU binary ([usingCuda] is false).
    The same request again, same model and same preference [useCuda =
    true], is not a no-op: the guard of line 260 compares the preference
    with the variant in effect, so [start] goes on to [stop]: the
    monitoring timer is cancelled, SIGTERM is sent to the running child,
    and the call is left waiting for the stop before it spawns again. *)
Theorem C8_same_request_after_fallback_stops_the_server
    (h : Host) (w : World) (model : string) (o : Options) (c : nat) :
  supervisor_state (mgr w) = Ready ->
  modelPath (mgr w) = Some model -> process (mgr w) = Some c ->
  useCuda o = Some true -> usingCuda (mgr w) = false ->
  exists w',
    step h w (CallStart model o) = Some w'
    /\ signals w' = signals w ++ [(c, SIGTERM)]
    /\ healthCheckInterval (mgr w') = None
    /\ starts w' = starts w ++ [mkStart model o (SAwaitStop (length (stops w)))]
    /\ start_outcome w' (length (starts w)) = None
    /\ length (stops w') = S (length (stops w)).
Proof.
  intros Hst Hmodel Hp Hcuda Hvariant. exists (start_call h model o w).
  split; [reflexivity|]. unfold start_call.
  unfold supervisor_state in Hst.
  destruct (startupPromise (mgr w)); [discriminate|]. rewrite Hp in *.
  unfold useCuda_or_false. rewrite Hvariant, Hcuda. cbn [default from_option id Bool.eqb].
  rewrite andb_false_r. unfold stop_call.
  destruct (stopHealthCheck_fields (mgr w)) as (Hp' & _ & _ & _ & _ & _ & _ & Hh).
  rewrite Hp', Hp.
  assert (Hout : forall (v : World) (ph : StartPhase),
            starts v = starts w -> (forall r, ph <> SDone r) -> (forall d, ph <> SJoined d) ->
            start_outcome (with_starts (starts v ++ [mkStart model o ph]) v)
              (length (starts w)) = None).
  { intros v ph Hv Hdone Hjoined. unfold start_outcome. fields.
    rewrite Hv, list_lookup_middle by reflexivity. cbn [fmap option_fmap option_map s_phase].
    destruct ph; try reflexivity; [exfalso; exact (Hjoined _ eq_refl)
                                  | exfalso; exact (Hdone _ eq_refl)]. }
  destruct (killProcess h c SIGTERM) as [k|]; cbv beta iota;
    match goal with
    | |- context [with_starts (starts ?V ++ _) ?V] => set (v := V)
    end;
    (assert (Hv : signals v = signals w ++ [(c, SIGTERM)]
                  /\ healthCheckInterval (mgr v) = None
                  /\ starts v = starts w
                  /\ length (stops v) = S (length (stops w)))
       by (subst v; unfold signalled; fields; rewrite ?length_app; cbn [length];
           repeat split; try exact Hh; lia));
    destruct Hv as (Hsig & Htimer & Hstarts & Hstops);
    (split; [exact Hsig|]); (split; [exact Htimer|]);
    (split; [cbn [starts with_starts]; rewrite Hstarts; reflexivity|]);
    (split; [apply Hout; [exact Hstarts | discriminate | discriminate] | exact Hstops]).
Qed.

(** The supervisor after a start that requested CUDA where only the CPU
    binary is installed. *)
Definition fallback_world : World :=
  Eval vm_compute in
    default initial_world (run Demo.host initial_world fallback_ready_run).

Lemma C8_same_request_after_fallback_witness :
  run Demo.host initial_world fallback_ready_run = Some fallback_world
  /\ supervisor_state (mgr fallback_world) = Ready
  /\ exists w',
       step Demo.host fallback_world (CallStart Demo.model_a Demo.cuda_options) = Some w'
       /\ signals w' = [(0%nat, SIGTERM)]
       /\ start_outcome w' 1 = None.
Proof.
  split; [vm_compute; reflexivity|]. split; [reflexivity|].
  destruct (C8_same_request_after_fallback_stops_the_server Demo.host fallback_world
              Demo.model_a Demo.cuda_options 0)
    as (w' & Hstep & Hsig & _ & _ & Hout & _);
    [reflexivity | reflexivity | reflexivity | reflexivity | reflexivity |].
  exists w'. split; [exact Hstep|]. split; [exact Hsig | exact Hout].
Defined.







(** ** stop *)

Section Stop.
Variable h : Host.

(** A stop activation that still awaits its promise, or whose promise
    was resolved. *)
Definition stop_pending (p : option StopPhase) : Prop :=
  match p with
  | Some (StWait _ _) | Some StResolved => True
  | _ => False
  end.

Lemma stop_on_close_frame (w : World) (s : nat) :
  mgr (stop_on_close w s) = mgr w /\ children (stop_on_close w s) = children w
  /\ doStarts (stop_on_close w s) = doStarts w
  /\ starts (stop_on_close w s) = starts w
  /\ signals (stop_on_close w s) = signals w /\ now (stop_on_close w s) = now w.
Proof.
  unfold stop_on_close. destruct (stops w !! s) as [[| |]|]; repeat split.
Qed.

Lemma stop_on_close_resolves (w : World) (s : nat) :
  stop_pending (stops w !! s) -> stops (stop_on_close w s) !! s = Some StResolved.
Proof.
  unfold stop_on_close. destruct (stops w !! s) as [[c tm| |]|] eqn:Hs; simpl;
    try contradiction; intros _.
  - apply list_lookup_insert_eq. apply lookup_lt_Some in Hs. exact Hs.
  - exact Hs.
Qed.

Lemma stop_on_close_pending (w : World) (s s' : nat) :
  stop_pending (stops w !! s) -> stop_pending (stops (stop_on_close w s') !! s).
Proof.
  intros Hp. destruct (decide (s' = s)) as [->|Hne].
  - rewrite (stop_on_close_resolves w s Hp). exact I.
  - unfold stop_on_close. destruct (stops w !! s') as [[| |]|]; try exact Hp.
    simpl. rewrite list_lookup_insert_ne by exact Hne. exact Hp.
Qed.

Lemma close_listeners_frame (l : list nat) (w : World) :
  mgr (foldl stop_on_close w l) = mgr w
  /\ children (foldl stop_on_close w l) = children w
  /\ doStarts (foldl stop_on_close w l) = doStarts w
  /\ starts (foldl stop_on_close w l) = starts w
  /\ signals (foldl stop_on_close w l) = signals w
  /\ now (foldl stop_on_close w l) = now w.
Proof.
  revert w. induction l as [|s l IH]; intros w; simpl; [repeat split|].
  destruct (IH (stop_on_close w s)) as (H1 & H2 & H3 & H4 & H5 & H6).
  destruct (stop_on_close_frame w s) as (G1 & G2 & G3 & G4 & G5 & G6).
  repeat split; congruence.
Qed.

Lemma close_listeners_pending (l : list nat) (w : World) (s : nat) :
  stop_pending (stops w !! s) -> stop_pending (stops (foldl stop_on_close w l) !! s).
Proof.
  revert w. induction l as [|s' l IH]; intros w Hp; simpl; [exact Hp|].
  apply IH, stop_on_close_pending, Hp.
Qed.

Lemma close_listeners_keep_resolved (l : list nat) (w : World) (s : nat) :
  stops w !! s = Some StResolved ->
  stops (foldl stop_on_close w l) !! s = Some StResolved.
Proof.
  revert w. induction l as [|s' l IH]; intros w Hres; simpl; [exact Hres|].
  apply IH. destruct (decide (s' = s)) as [->|Hne].
  - apply stop_on_close_resolves. rewrite Hres. exact I.
  - unfold stop_on_close. destruct (stops w !! s') as [[| |]|]; try exact Hres.
    simpl. rewrite list_lookup_insert_ne by exact Hne. exact Hres.
Qed.

(** Every listener registered with once("close") finds its activation
    resolved after the child closed. *)
Lemma close_listeners_resolve (l : list nat) (w : World) (s : nat) :
  stop_pending (stops w !! s) -> s ∈ l ->
  stops (foldl stop_on_close w l) !! s = Some StResolved.
Proof.
  revert w. induction l as [|s' l IH]; intros w Hp Hin; [inversion Hin|].
  simpl. apply elem_of_cons in Hin. destruct Hin as [->|Hin].
  - apply close_listeners_keep_resolved, stop_on_close_resolves, Hp.
  - apply IH; [|exact Hin]. apply stop_on_close_pending, Hp.
Qed.

(** The manager after the last four assignments of [stop], as the
    caller and [getStatus] see it. *)
Definition cleared (m : Manager) : Prop :=
  process m = None /\ port m = None /\ modelPath m = None /\ ready m = false
  /\ st_running (getStatus h m).1 = false
  /\ st_port (getStatus h m).1 = None
  /\ st_modelPath (getStatus h m).1 = None
  /\ st_modelName (getStatus h m).1 = None.

Lemma stop_reset_cleared (m : Manager) : cleared (stop_reset m).
Proof.
  unfold cleared.
  destruct (getStatus_fields h (stop_reset m)) as (Hrun & Hport & Hmp & _ & Hname & _).
  rewrite Hrun, Hport, Hmp, Hname by reflexivity. repeat split.
Qed.

(** [stop] on a supervisor that owns no process. *)
Lemma stop_call_unowned (w : World) :
  process (mgr w) = None ->
  exists w',
    step h w CallStop = Some w'
    /\ stops w' !! length (stops w) = Some StDone
    /\ process (mgr w') = None /\ ready (mgr w') = false
    /\ port (mgr w') = port (mgr w) /\ modelPath (mgr w') = modelPath (mgr w)
    /\ healthCheckInterval (mgr w') = None
    /\ signals w' = signals w /\ children w' = children w.
Proof.
  intros Hp. eexists. split; [reflexivity|]. unfold stop_call.
  destruct (stopHealthCheck_fields (mgr w)) as (Hp' & Hport & _ & Hm & _ & _ & _ & Hh).
  rewrite Hp', Hp. fields. rewrite Hp', Hp, Hport, Hm, Hh.
  split; [apply list_lookup_middle; reflexivity|]. repeat split.
Qed.

(** [stop] when the SIGTERM call throws. *)
Lemma stop_call_signal_error (w : World) (c : nat) :
  process (mgr w) = Some c -> killProcess h c SIGTERM = None ->
  exists w',
    step h w CallStop = Some w'
    /\ stops w' !! length (stops w) = Some StDone
    /\ mgr w' = stop_reset (stopHealthCheck (mgr w))
    /\ children w' = children w.
Proof.
  intros Hp Hk. eexists. split; [reflexivity|]. unfold stop_call.
  destruct (stopHealthCheck_fields (mgr w)) as (Hp' & _).
  rewrite Hp', Hp, Hk. fields.
  split; [apply list_lookup_middle; reflexivity|]. repeat split.
Qed.

(** [stop] when the SIGTERM call returns: the activation waits, its
    listener is registered on the child, the grace timer is armed. *)
Lemma stop_call_waits (w : World) (c : nat) (ch : Child) (k : bool) :
  process (mgr w) = Some c -> children w !! c = Some ch ->
  killProcess h c SIGTERM = Some k ->
  exists w' ch',
    step h w CallStop = Some w'
    /\ stops w' = stops w ++ [StWait c (Some (now w + STOP_GRACE_MS))]
    /\ process (mgr w') = Some c
    /\ children w' !! c = Some ch'
    /\ c_closed ch' = c_closed ch
    /\ length (stops w) ∈ c_onceClose ch'
    /\ signals w' = signals w ++ [(c, SIGTERM)]
    /\ now w' = now w.
Proof.
  intros Hp Hch Hk. eexists. eexists. split; [reflexivity|]. unfold stop_call.
  destruct (stopHealthCheck_fields (mgr w)) as (Hp' & _).
  rewrite Hp', Hp, Hk. unfold signalled. fields.
  split; [reflexivity|]. split; [rewrite Hp'; exact Hp|].
  split; [rewrite !list_lookup_alter_eq, Hch; reflexivity|].
  split; [reflexivity|]. split; [|split; reflexivity].
  fields. apply elem_of_app. right. apply list_elem_of_singleton. reflexivity.
Qed.

End Stop.

Section StopCompletes.
Variable h : Host.

Lemma child_close_facts (w : World) (c : nat) (ch : Child) (code : option Z) (s : nat) :
  children w !! c = Some ch -> c_closed ch = false ->
  s ∈ c_onceClose ch -> stop_pending (stops w !! s) ->
  exists w',
    step h w (ChildClose c code) = Some w'
    /\ stops w' !! s = Some StResolved
    /\ process (mgr w') = None /\ ready (mgr w') = false
    /\ port (mgr w') = port (mgr w) /\ modelPath (mgr w') = modelPath (mgr w)
    /\ signals w' = signals w /\ now w' = now w.
Proof.
  intros Hch Hopen Hin Hpend. exists (child_close c ch code w).
  split; [simpl; rewrite Hch, Hopen; reflexivity|].
  unfold child_close.
  set (w2 := with_mgr _ _).
  destruct (close_listeners_frame (c_onceClose ch) w2) as (Hm & _ & _ & _ & Hg & Hn).
  assert (Hpend2 : stop_pending (stops w2 !! s)) by exact Hpend.
  pose proof (close_listeners_resolve (c_onceClose ch) w2 s Hpend2 Hin) as Hres.
  destruct (stopHealthCheck_fields (set_process None (set_ready false (mgr w))))
    as (Hp' & Hport' & Hr' & Hm' & _).
  fields. rewrite Hm, Hg, Hn. subst w2. fields.
  rewrite Hp', Hport', Hr', Hm'. fields.
  split; [exact Hres|]. repeat split.
Qed.

Lemma grace_timer_facts (w : World) (s c c' : nat) (deadline : Z) (k : bool) :
  stops w !! s = Some (StWait c (Some deadline)) -> deadline <= now w ->
  process (mgr w) = Some c' -> killProcess h c' SIGKILL = Some k ->
  exists w',
    step h w (GraceTimer s) = Some w'
    /\ stops w' !! s = Some StResolved
    /\ mgr w' = mgr w
    /\ signals w' = signals w ++ [(c', SIGKILL)] /\ now w' = now w.
Proof.
  intros Hs Hdl Hp Hk. eexists. split.
  { simpl. rewrite Hs. destruct (Z.leb_spec deadline (now w)); [reflexivity | lia]. }
  unfold stop_timeout. rewrite Hp, Hk. unfold signalled. fields.
  split; [|repeat split].
  apply list_lookup_insert_eq. apply lookup_lt_Some in Hs. exact Hs.
Qed.

(** When the SIGKILL call throws inside the timer callback the promise
    is not resolved there: the activation keeps waiting for "close". *)
Lemma grace_timer_throws (w : World) (s c c' : nat) (deadline : Z) :
  stops w !! s = Some (StWait c (Some deadline)) -> deadline <= now w ->
  process (mgr w) = Some c' -> killProcess h c' SIGKILL = None ->
  exists w',
    step h w (GraceTimer s) = Some w'
    /\ stops w' !! s = Some (StWait c None)
    /\ uncaught w' = S (uncaught w) /\ mgr w' = mgr w.
Proof.
  intros Hs Hdl Hp Hk. eexists. split.
  { simpl. rewrite Hs. destruct (Z.leb_spec deadline (now w)); [reflexivity | lia]. }
  unfold stop_timeout. rewrite Hp, Hk. fields.
  split; [|repeat split].
  apply list_lookup_insert_eq. apply lookup_lt_Some in Hs. exact Hs.
Qed.

Lemma stop_resume_facts (w : World) (s : nat) :
  stops w !! s = Some StResolved ->
  exists w',
    step h w (StopResume s) = Some w'
    /\ stops w' !! s = Some StDone
    /\ mgr w' = stop_reset (mgr w)
    /\ cleared h (mgr w')
    /\ signals w' = signals w /\ children w' = children w.
Proof.
  intros Hs. exists (stop_resume s w).
  split; [simpl; rewrite Hs; reflexivity|].
  unfold stop_resume.
  split; [apply list_lookup_insert_eq; apply lookup_lt_Some in Hs; exact Hs|].
  split; [reflexivity|]. split; [apply stop_reset_cleared|]. split; reflexivity.
Qed.

End StopCompletes.

(** The ready supervisor loses its child (it exits with code 1); stop()
    is then called. *)
Definition crash_then_stop_run : list Event :=
  ready_run ++ [ChildClose 0 (Some 1); CallStop].

(** C2, as stated, fails for a supervisor that owns no process: after the
    child exited on its own, [stop] returns early, and [getStatus] right
    after it still reports the old port and model. *)
Lemma C2_stop_without_process_keeps_port :
  exists w,
    run Demo.host initial_world crash_then_stop_run = Some w
    /\ stops w = [StDone]
    /\ process (mgr w) = None
    /\ port (mgr w) = Some 8178
    /\ st_running (getStatus Demo.host (mgr w)).1 = false
    /\ st_port (getStatus Demo.host (mgr w)).1 = Some 8178
    /\ st_modelPath (getStatus Demo.host (mgr w)).1 = Some Demo.model_a.
Proof.
  eexists. split; [vm_compute; reflexivity|].
  repeat split; vm_compute; reflexivity.
Qed.

(** C2, amended: [stop] called while a process is owned always ends
    fulfilled (the promise of [stop] has no rejected outcome), with
    [process], [port], [modelPath] cleared and [ready] false, so that
    [getStatus] right after reports not running, null port, null model:
    (1) when the SIGTERM call throws, at once; (2) when the child closes
    within the grace period; (3) when the grace timer fires and SIGKILL is
    sent; (4) and, whatever was interleaved, whenever an activation of
    [stop] continues after its await.  (5) Called while no process is
    owned, [stop] only clears [ready] and the monitoring timer: [port] and
    [modelPath] keep their values. *)
Theorem C2_stop_completes_cleared (h : Host) :
  (forall w c ch,
     process (mgr w) = Some c -> children w !! c = Some ch -> c_closed ch = false ->
     let s := length (stops w) in
     (killProcess h c SIGTERM = None ->
        exists w', step h w CallStop = Some w'
          /\ stops w' !! s = Some StDone /\ cleared h (mgr w'))
     /\ (forall k dt code,
           killProcess h c SIGTERM = Some k -> 0 <= dt ->
           exists w',
             run h w [CallStop; Advance dt; ChildClose c code; StopResume s] = Some w'
             /\ stops w' !! s = Some StDone /\ cleared h (mgr w')
             /\ signals w' = signals w ++ [(c, SIGTERM)])
     /\ (forall k k' dt,
           killProcess h c SIGTERM = Some k -> killProcess h c SIGKILL = Some k' ->
           STOP_GRACE_MS <= dt ->
           exists w',
             run h w [CallStop; Advance dt; GraceTimer s; StopResume s] = Some w'
             /\ stops w' !! s = Some StDone /\ cleared h (mgr w')
             /\ signals w' = signals w ++ [(c, SIGTERM); (c, SIGKILL)]))
  /\ (forall v s,
        stops v !! s = Some StResolved ->
        exists v', step h v (StopResume s) = Some v'
          /\ stops v' !! s = Some StDone /\ cleared h (mgr v'))
  /\ (forall v,
        process (mgr v) = None ->
        exists v', step h v CallStop = Some v'
          /\ stops v' !! length (stops v) = Some StDone
          /\ process (mgr v') = None /\ ready (mgr v') = false
          /\ st_running (getStatus h (mgr v')).1 = false
          /\ port (mgr v') = port (mgr v) /\ modelPath (mgr v') = modelPath (mgr v)).
Proof.
  split; [|split].
  - intros w c ch Hp Hch Hopen s. split; [|split].
    + intros Hk.
      destruct (stop_call_signal_error h w c Hp Hk) as (w' & Hstep & Hs & Hm & _).
      exists w'. split; [exact Hstep|]. split; [exact Hs|].
      rewrite Hm. apply stop_reset_cleared.
    + intros k dt code Hk Hdt.
      destruct (stop_call_waits h w c ch k Hp Hch Hk)
        as (w1 & ch1 & Hstep1 & Hs1 & Hp1 & Hch1 & Hopen1 & Hin1 & Hg1 & Hn1).
      destruct (advance_facts h w1 dt Hdt)
        as (w2 & Hstep2 & Hm2 & Hc2 & _ & _ & Hs2 & Hg2 & Hn2).
      assert (Hpend : stop_pending (stops w2 !! s)).
      { rewrite Hs2, Hs1. subst s. rewrite list_lookup_middle by reflexivity. exact I. }
      rewrite <- Hc2 in Hch1. rewrite Hopen in Hopen1.
      destruct (child_close_facts h w2 c ch1 code s Hch1 Hopen1 Hin1 Hpend)
        as (w3 & Hstep3 & Hs3 & _ & _ & _ & _ & Hg3 & _).
      destruct (stop_resume_facts h w3 s Hs3) as (w4 & Hstep4 & Hs4 & _ & Hcl & Hg4 & _).
      exists w4. cbn [run]. rewrite Hstep1, Hstep2, Hstep3, Hstep4.
      split; [reflexivity|]. split; [exact Hs4|]. split; [exact Hcl|]. congruence.
    + intros k k' dt Hk Hk' Hdt.
      destruct (stop_call_waits h w c ch k Hp Hch Hk)
        as (w1 & ch1 & Hstep1 & Hs1 & Hp1 & Hch1 & Hopen1 & Hin1 & Hg1 & Hn1).
      destruct (advance_facts h w1 dt)
        as (w2 & Hstep2 & Hm2 & Hc2 & _ & _ & Hs2 & Hg2 & Hn2).
      { unfold STOP_GRACE_MS in Hdt. lia. }
      assert (Hwait : stops w2 !! s = Some (StWait c (Some (now w + STOP_GRACE_MS)))).
      { rewrite Hs2, Hs1. subst s. apply list_lookup_middle. reflexivity. }
      rewrite <- Hm2 in Hp1.
      destruct (grace_timer_facts h w2 s c c _ k' Hwait ltac:(lia) Hp1 Hk')
        as (w3 & Hstep3 & Hs3 & _ & Hg3 & _).
      destruct (stop_resume_facts h w3 s Hs3) as (w4 & Hstep4 & Hs4 & _ & Hcl & Hg4 & _).
      exists w4. cbn [run]. rewrite Hstep1, Hstep2, Hstep3, Hstep4.
      split; [reflexivity|]. split; [exact Hs4|]. split; [exact Hcl|].
      rewrite Hg4, Hg3, Hg2, Hg1, <- app_assoc. reflexivity.
  - intros v s Hs.
    destruct (stop_resume_facts h v s Hs) as (v' & Hstep & Hs' & _ & Hcl & _).
    exists v'. auto.
  - intros v Hp.
    destruct (stop_call_unowned h v Hp)
      as (v' & Hstep & Hs & Hp' & Hr & Hport & Hm & _).
    exists v'. destruct (getStatus_fields h (mgr v')) as (Hrun & _).
    rewrite Hrun, Hr. auto 10.
Qed.

Lemma C2_stop_completes_witness :
  exists w',
    run Demo.host ready_world [CallStop; Advance 5000; GraceTimer 0; StopResume 0]
    = Some w'
    /\ stops w' !! 0%nat = Some StDone /\ cleared Demo.host (mgr w')
    /\ signals w' = [(0%nat, SIGTERM); (0%nat, SIGKILL)].
Proof.
  destruct (C2_stop_completes_cleared Demo.host) as (Howned & _ & _).
  destruct (Howned ready_world 0%nat
              (mkChild Demo.cpu_binary
                 ["--model"; Demo.model_a; "--host"; "127.0.0.1"; "--port"; "8178"]
                 "/app/resources/bin:/usr/bin" "/app/resources/bin" 0 false false [])
              eq_refl eq_refl eq_refl) as (_ & _ & Hforced).
  exact (Hforced true true 5000 eq_refl eq_refl ltac:(vm_compute; discriminate)).
Defined.

(** [stop] on the ready supervisor when [killProcess] throws: the error is
    caught, the call is complete when it returns, the manager is cleared. *)
Example stop_when_sigterm_throws :
  exists w',
    step Demo.host_kill_throws ready_world CallStop = Some w'
    /\ stops w' = [StDone]
    /\ process (mgr w') = None /\ port (mgr w') = None
    /\ modelPath (mgr w') = None /\ ready (mgr w') = false
    /\ uncaught w' = 0%nat.
Proof.
  eexists. split; [vm_compute; reflexivity|].
  repeat split; vm_compute; reflexivity.
Qed.

(** ** Port and child handle *)

(** The ready supervisor loses its child. *)
Definition crash_run : list Event := ready_run ++ [ChildClose 0 (Some 1)].

(** C9, as stated, fails: after the child exited on its own, the "close"
    handler has cleared [process] but not [port]. *)
Lemma C9_port_set_without_child :
  exists w,
    run Demo.host initial_world crash_run = Some w
    /\ process (mgr w) = None
    /\ port (mgr w) = Some 8178.
Proof.
  eexists. split; [vm_compute; reflexivity|].
  split; vm_compute; reflexivity.
Qed.

(** Whenever a child handle is held, a port is set. *)
Definition owned_has_port (m : Manager) : Prop :=
  is_Some (process m) -> is_Some (port m).

(** [m'] holds the same handle and port as [m], or no handle at all. *)
Definition handle_kept_or_dropped (m m' : Manager) : Prop :=
  process m' = None \/ (process m' = process m /\ port m' = port m).

Lemma kept_or_dropped_invariant (m m' : Manager) :
  handle_kept_or_dropped m m' -> owned_has_port m -> owned_has_port m'.
Proof.
  unfold owned_has_port. intros [Hnone|[Hp Hport]] Hinv.
  - rewrite Hnone. intros [? ?]. discriminate.
  - rewrite Hp, Hport. exact Hinv.
Qed.

Lemma kept_refl (m : Manager) : handle_kept_or_dropped m m.
Proof. right. split; reflexivity. Qed.

Lemma kept_of_caches (m m' : Manager) :
  same_but_caches m m' -> handle_kept_or_dropped m m'.
Proof. intros (Hp & Hport & _). right. split; assumption. Qed.

Section HandleAndPort.
Variable h : Host.

Lemma stopHealthCheck_kept (m : Manager) :
  handle_kept_or_dropped m (stopHealthCheck m).
Proof.
  destruct (stopHealthCheck_fields m) as (Hp & Hport & _). right. split; assumption.
Qed.

Lemma resolve_binary_caches (uc : bool) (m : Manager) :
  same_but_caches m (resolve_binary h uc m).2.
Proof.
  unfold resolve_binary. destruct uc.
  - pose proof (getServerBinaryPath_caches h true m) as H1.
    destruct (getServerBinaryPath h true m) as [b m1]. simpl in H1.
    destruct (truthy b); [exact H1|].
    pose proof (getServerBinaryPath_caches h false m1) as H2.
    destruct (getServerBinaryPath h false m1) as [b' m2]. simpl in *.
    exact (same_but_caches_trans _ _ _ H1 H2).
  - pose proof (getServerBinaryPath_caches h false m) as H1.
    destruct (getServerBinaryPath h false m) as [b m1]. exact H1.
Qed.

Lemma doStart_call_kept (model : string) (o : Options) (w : World) :
  process (mgr (doStart_call h model o w).1) = process (mgr w)
  /\ port (mgr (doStart_call h model o w).1) = port (mgr w).
Proof.
  unfold doStart_call.
  pose proof (resolve_binary_caches (useCuda_or_false o) (mgr w)) as Hc.
  destruct (resolve_binary h (useCuda_or_false o) (mgr w)) as [[b a] m1].
  destruct Hc as (Hp & Hport & _). simpl in Hp, Hport.
  destruct (negb (truthy b)); [split; assumption|].
  destruct (negb (existsSync h model)); split; assumption.
Qed.

Lemma start_launch_kept (model : string) (o : Options) (w : World) :
  process (mgr (start_launch h model o w).1) = process (mgr w)
  /\ port (mgr (start_launch h model o w).1) = port (mgr w).
Proof.
  unfold start_launch. pose proof (doStart_call_kept model o w) as Hk.
  destruct (doStart_call h model o w) as [w1 d]. exact Hk.
Qed.

Lemma stop_call_kept (w : World) :
  handle_kept_or_dropped (mgr w) (mgr (stop_call h w).1).
Proof.
  unfold stop_call.
  destruct (stopHealthCheck_fields (mgr w)) as (Hp & Hport & _).
  destruct (process (stopHealthCheck (mgr w))) as [c|] eqn:Hproc.
  - destruct (killProcess h c SIGTERM).
    + right. unfold signalled. fields. rewrite Hproc, Hport, <- Hp. auto.
    + left. reflexivity.
  - left. fields. exact Hproc.
Qed.

Lemma start_call_kept (model : string) (o : Options) (w : World) :
  handle_kept_or_dropped (mgr w) (mgr (start_call h model o w)).
Proof.
  unfold start_call. destruct (startupPromise (mgr w)); [apply kept_refl|].
  destruct (_ && _); [apply kept_refl|].
  destruct (process (mgr w)) eqn:Hproc.
  - pose proof (stop_call_kept w) as Hk.
    destruct (stop_call h w) as [w1 s]. exact Hk.
  - pose proof (start_launch_kept model o w) as [Hp _].
    destruct (start_launch h model o w) as [w1 ph]. left. fields.
    rewrite <- Hproc. exact Hp.
Qed.

Lemma doStart_probed_invariant (d : nat) (op : DoStart) (p : Z) (bound : bool)
    (w : World) :
  owned_has_port (mgr w) -> owned_has_port (mgr (doStart_probed h d op p bound w)).
Proof.
  intros Hinv. unfold doStart_probed. destruct bound; [|exact Hinv].
  unfold doStart_spawn.
  pose proof (getFFmpegPath_caches h
                (set_modelPath (Some (d_modelPath op)) (set_port (Some p) (mgr w))))
    as (_ & Hport & _).
  destruct (getFFmpegPath h _) as [f m2]. unfold owned_has_port. fields.
  intros _. simpl in Hport. rewrite Hport. eexists. reflexivity.
Qed.

(** Every step of the event loop keeps the invariant. *)
Lemma step_owned_has_port (w w' : World) (e : Event) :
  step h w e = Some w' -> owned_has_port (mgr w) -> owned_has_port (mgr w').
Proof.
  intros Hstep Hinv. destruct e; simpl in Hstep.
  - injection Hstep as <-. exact (kept_or_dropped_invariant _ _ (start_call_kept _ _ w) Hinv).
  - injection Hstep as <-. exact (kept_or_dropped_invariant _ _ (stop_call_kept w) Hinv).
  - injection Hstep as <-. fields.
    destruct (getStatus_fields h (mgr w)) as (_ & _ & _ & _ & _ & Hc).
    exact (kept_or_dropped_invariant _ _ (kept_of_caches _ _ Hc) Hinv).
  - destruct (doStarts w !! d) as [op|]; [|discriminate].
    destruct (d_phase op); try discriminate. injection Hstep as <-.
    apply doStart_probed_invariant, Hinv.
  - destruct (doStarts w !! d) as [op|]; [|discriminate].
    destruct (d_phase op); try discriminate. injection Hstep as <-.
    unfold waitForReady_probed. destruct ok; [|exact Hinv].
    fields. destruct (stopHealthCheck_fields (set_ready true (mgr w))) as (Hp & Hport & _).
    unfold owned_has_port. fields. rewrite Hp, Hport. exact Hinv.
  - destruct (doStarts w !! d) as [op|]; [|discriminate].
    destruct (d_phase op); try discriminate.
    destruct (_ <=? _); [|discriminate]. injection Hstep as <-. exact Hinv.
  - destruct (children w !! c) as [ch|]; [|discriminate].
    destruct (c_closed ch); [discriminate|]. injection Hstep as <-.
    unfold child_close. fields.
    destruct (close_listeners_frame (c_onceClose ch)
                (with_mgr (stopHealthCheck (set_process None (set_ready false (mgr w))))
                   (with_doStarts (alter (set_d_exitCode code) (c_owner ch) (doStarts w)) w)))
      as (Hm & _).
    rewrite Hm. fields.
    destruct (stopHealthCheck_fields (set_process None (set_ready false (mgr w))))
      as (Hp & _).
    unfold owned_has_port. rewrite Hp. intros [? ?]. discriminate.
  - destruct (children w !! c); [|discriminate]. injection Hstep as <-. exact Hinv.
  - destruct (children w !! c) as [ch|]; [|discriminate].
    destruct (c_closed ch); [discriminate|]. injection Hstep as <-. exact Hinv.
  - destruct (stops w !! s) as [[c [deadline|]| |]|]; try discriminate.
    destruct (_ <=? _); [|discriminate]. injection Hstep as <-.
    unfold stop_timeout. destruct (process (mgr w)) as [c'|] eqn:Hproc.
    + destruct (killProcess h c' SIGKILL); unfold signalled; fields; exact Hinv.
    + exact Hinv.
  - destruct (stops w !! s) as [[| |]|]; try discriminate. injection Hstep as <-.
    unfold stop_resume, owned_has_port. fields. intros [? ?]. discriminate.
  - destruct (starts w !! t) as [a|]; [|discriminate].
    destruct (s_phase a); try discriminate.
    destruct (stops w !! s) as [[| |]|]; try discriminate. injection Hstep as <-.
    unfold start_after_stop.
    pose proof (start_launch_kept (s_modelPath a) (s_options a) w) as [Hp Hport].
    destruct (start_launch h _ _ w) as [w1 ph]. fields.
    unfold owned_has_port. simpl in Hp, Hport. rewrite Hp, Hport. exact Hinv.
  - destruct (starts w !! t) as [a|]; [|discriminate].
    destruct (s_phase a); try discriminate.
    destruct (d_phase <$> doStarts w !! d) as [[| | |r]|]; try discriminate.
    injection Hstep as <-. exact Hinv.
  - destruct (healthCheckInterval (mgr w)) eqn:Hh; [|discriminate].
    injection Hstep as <-. unfold healthCheck_tick.
    destruct (process (mgr w)); [exact Hinv|].
    exact (kept_or_dropped_invariant _ _ (stopHealthCheck_kept (mgr w)) Hinv).
  - destruct (monitorProbes w); [discriminate|]. injection Hstep as <-.
    unfold healthCheck_result. destruct ok; exact Hinv.
  - destruct (_ <=? _); [|discriminate]. injection Hstep as <-. exact Hinv.
Qed.

End HandleAndPort.

(** C9, amended: at every point between the events of every execution
    (calls of start, stop and getStatus, the answers of port and health
    probes, the timers, the child's close, error and stderr events), a
    held child handle implies a set port; in particular this holds in
    every world reached from a fresh manager.  The converse does not hold:
    the port stays set after the child's exit was observed. *)
Theorem C9_child_handle_implies_port (h : Host) (w w' : World) (es : list Event) :
  owned_has_port (mgr w) -> run h w es = Some w' -> owned_has_port (mgr w').
Proof.
  revert w. induction es as [|e es IH]; intros w Hinv Hrun; simpl in Hrun.
  - injection Hrun as <-. exact Hinv.
  - destruct (step h w e) as [w1|] eqn:Hstep; [|discriminate].
    exact (IH w1 (step_owned_has_port h w w1 e Hstep Hinv) Hrun).
Qed.

Lemma C9_child_handle_witness :
  owned_has_port (mgr ready_world).
Proof.
  apply (C9_child_handle_implies_port Demo.host initial_world ready_world ready_run).
  - intros [? Hnone]. discriminate Hnone.
  - vm_compute. reflexivity.
Defined.

(** ** Single flight *)

Section SingleFlight.
Variable h : Host.

(** While a start is pending, a further [start] returns the pending
    promise: nothing is stopped, scanned or spawned, and the caller
    observes the outcome of that activation of [_doStart]. *)
Lemma start_call_joins_pending (w : World) (d : nat) (model : string) (o : Options) :
  startupPromise (mgr w) = Some d ->
  step h w (CallStart model o)
  = Some (with_starts (starts w ++ [mkStart model o (SJoined d)]) w).
Proof. intros Hs. simpl. unfold start_call. rewrite Hs. reflexivity. Qed.

(** When no process is owned, the pending promise is recorded before
    [start] reaches its first await. *)
Lemma start_call_records_promise (w : World) (model : string) (o : Options) :
  startupPromise (mgr w) = None -> process (mgr w) = None -> ready (mgr w) = false ->
  startupPromise (mgr (start_call h model o w)) = Some (length (doStarts w))
  /\ starts (start_call h model o w)
     = starts w ++ [mkStart model o (SAwaitStartup (length (doStarts w)))].
Proof.
  intros Hs Hp Hr. unfold start_call. rewrite Hs, Hr, Hp. cbn [andb].
  unfold start_launch, doStart_call.
  destruct (resolve_binary h (useCuda_or_false o) (mgr w)) as [[b a] m1].
  destruct (negb (truthy b)); [split; reflexivity|].
  destruct (negb (existsSync h model)); split; reflexivity.
Qed.

(** When a process is owned, [start] reaches [await this.stop()] with
    no pending promise recorded. *)
Lemma start_call_awaiting_stop_records_nothing (w : World) (c : nat)
    (model : string) (o : Options) :
  startupPromise (mgr w) = None -> process (mgr w) = Some c ->
  modelPath (mgr w) <> Some model ->
  startupPromise (mgr (start_call h model o w)) = None
  /\ starts (start_call h model o w)
     = starts w ++ [mkStart model o (SAwaitStop (length (stops w)))].
Proof.
  intros Hs Hp Hm. unfold start_call. rewrite Hs.
  rewrite (bool_decide_eq_false_2 _ Hm), andb_false_r. cbn [andb].
  rewrite Hp. unfold stop_call.
  destruct (stopHealthCheck_fields (mgr w)) as (Hp' & _ & _ & _ & Hs' & _).
  rewrite Hp', Hp.
  destruct (killProcess h c SIGTERM); unfold signalled; fields;
    rewrite ?Hs', ?Hs; split; reflexivity.
Qed.

End SingleFlight.

(** *** Single flight holds when nothing has to be stopped *)

Lemma fmap_alter_same {A B} (f : A -> B) (g : A -> A) (i : nat) (l : list A) :
  (forall x, f (g x) = f x) -> f <$> alter g i l = f <$> l.
Proof.
  intros Hfg. revert i. induction l as [|x l IH]; intros [|i]; simpl; try reflexivity.
  - rewrite Hfg. reflexivity.
  - f_equal. apply IH.
Qed.

Lemma phases_alter (ph : DoStartPhase) (d : nat) (l : list DoStart) :
  d_phase <$> alter (set_d_phase ph) d l = <[d := ph]> (d_phase <$> l).
Proof.
  revert d. induction l as [|x l IH]; intros [|d]; simpl; try reflexivity.
  f_equal. apply IH.
Qed.

(** The phases of the activations of [_doStart] and of [start]. *)
Definition phases (v : World) : list DoStartPhase := d_phase <$> doStarts v.
Definition start_phases (v : World) : list StartPhase := s_phase <$> starts v.

(** How many children exist, given the phase of the one activation of
    [_doStart] in flight and the number [n] there were before it. *)
Definition spawn_count (n : nat) (ph : DoStartPhase) (len : nat) : Prop :=
  match ph with
  | DScan _ => len = n
  | DSettled (Throw _) => (n <= len <= S n)%nat
  | _ => len = S n
  end.

Definition idle (ph : StartPhase) : Prop :=
  match ph with
  | SJoined _ | SDone _ => True
  | _ => False
  end.

(** The first caller [t0] awaits the activation [d0], which is the
    recorded pending promise and the only activation not settled; every
    later caller joined [d0]; at most one child was spawned. *)
Record single_flight (n d0 t0 : nat) (v : World) : Prop := {
  sf_promise : startupPromise (mgr v) = Some d0;
  sf_len : length (phases v) = S d0;
  sf_old : forall i ph, phases v !! i = Some ph -> i <> d0 -> exists r, ph = DSettled r;
  sf_count : forall ph, phases v !! d0 = Some ph -> spawn_count n ph (length (children v));
  sf_first : start_phases v !! t0 = Some (SAwaitStartup d0);
  sf_rest : forall t ph, start_phases v !! t = Some ph -> t <> t0 ->
            ((t < t0)%nat /\ idle ph) \/ ((t0 < t)%nat /\ ph = SJoined d0)
}.

(** A step that leaves the pending promise, all phases and the number of
    children alone. *)
Definition quiet (v v' : World) : Prop :=
  startupPromise (mgr v') = startupPromise (mgr v)
  /\ phases v' = phases v /\ start_phases v' = start_phases v
  /\ length (children v') = length (children v).

Lemma quiet_single_flight (n d0 t0 : nat) (v v' : World) :
  quiet v v' -> single_flight n d0 t0 v -> single_flight n d0 t0 v'.
Proof.
  intros (Hs & Hph & Hsp & Hc) [I1 I2 I3 I4 I5 I6].
  constructor; rewrite ?Hs, ?Hph, ?Hsp, ?Hc; assumption.
Qed.

Section SingleFlightInvariant.
Variable h : Host.

Lemma stop_call_quiet (v : World) : quiet v (stop_call h v).1.
Proof.
  unfold stop_call, quiet, phases, start_phases.
  destruct (stopHealthCheck_fields (mgr v)) as (_ & _ & _ & _ & Hs & _).
  destruct (process (stopHealthCheck (mgr v))) as [c|].
  - destruct (killProcess h c SIGTERM); unfold signalled; fields;
      rewrite ?length_alter; repeat split; exact Hs.
  - fields. repeat split. exact Hs.
Qed.

Lemma stop_timeout_quiet (s c : nat) (v : World) : quiet v (stop_timeout h s c v).
Proof.
  unfold stop_timeout, quiet, phases, start_phases.
  destruct (process (mgr v)) as [c'|]; [|repeat split].
  destruct (killProcess h c' SIGKILL); unfold signalled; fields;
    rewrite ?length_alter; repeat split.
Qed.

Lemma child_close_quiet (c : nat) (ch : Child) (code : option Z) (v : World) :
  quiet v (child_close c ch code v).
Proof.
  unfold child_close, quiet, phases, start_phases.
  set (v2 := with_mgr _ _).
  destruct (close_listeners_frame (c_onceClose ch) v2) as (Hm & Hc & Hd & Ht & _).
  fields. rewrite length_alter, Hm, Hc, Hd, Ht. subst v2. fields.
  destruct (stopHealthCheck_fields (set_process None (set_ready false (mgr v))))
    as (_ & _ & _ & _ & Hs & _).
  rewrite Hs. fields.
  rewrite (fmap_alter_same d_phase) by reflexivity. repeat split.
Qed.

(** The activation that a probe answer or a poll timer finds waiting is
    the one in flight. *)
Lemma single_flight_unsettled (n d0 t0 : nat) (v : World) (d : nat) (op : DoStart) :
  single_flight n d0 t0 v -> doStarts v !! d = Some op ->
  (forall r, d_phase op <> DSettled r) -> d = d0.
Proof.
  intros [_ _ I3 _ _ _] Hd Hph. destruct (decide (d = d0)) as [|Hne]; [assumption|].
  destruct (I3 d (d_phase op)) as [r Hr]; [|exact Hne|].
  - unfold phases. rewrite list_lookup_fmap, Hd. reflexivity.
  - exfalso. exact (Hph r Hr).
Qed.

(** The activation in flight moves to phase [ph], [extra] children are
    spawned, nothing else that the invariant speaks of changes. *)
Lemma single_flight_advance (n d0 t0 : nat) (v v' : World) (ph0 ph : DoStartPhase) :
  single_flight n d0 t0 v ->
  phases v !! d0 = Some ph0 ->
  startupPromise (mgr v') = startupPromise (mgr v) ->
  phases v' = <[d0 := ph]> (phases v) ->
  start_phases v' = start_phases v ->
  (spawn_count n ph0 (length (children v)) -> spawn_count n ph (length (children v'))) ->
  single_flight n d0 t0 v'.
Proof.
  intros [I1 I2 I3 I4 I5 I6] Hph0 Hs Hph Hsp Hcount.
  assert (Hlt : (d0 < length (phases v))%nat) by (rewrite I2; lia).
  constructor; rewrite ?Hs, ?Hph, ?Hsp; try assumption.
  - rewrite length_insert. exact I2.
  - intros i p Hi Hne. rewrite list_lookup_insert_ne in Hi by auto. exact (I3 i p Hi Hne).
  - intros p Hp. rewrite list_lookup_insert_eq in Hp by exact Hlt.
    injection Hp as <-. exact (Hcount (I4 ph0 Hph0)).
Qed.

Lemma step_single_flight (n d0 t0 : nat) (v v' : World) (e : Event) :
  single_flight n d0 t0 v -> e <> StartFinally t0 -> step h v e = Some v' ->
  single_flight n d0 t0 v'.
Proof.
  intros Hinv Hnot Hstep. pose proof Hinv as [I1 I2 I3 I4 I5 I6].
  destruct e; simpl in Hstep.
  - (* CallStart: the caller joins *)
    injection Hstep as <-. unfold start_call. rewrite I1.
    constructor; unfold phases, start_phases in *; fields; try assumption.
    + rewrite fmap_app. apply lookup_app_l_Some. exact I5.
    + intros t ph Ht Hne. rewrite fmap_app in Ht.
      apply lookup_app_Some in Ht. destruct Ht as [Ht|[Hge Ht]]; [exact (I6 t ph Ht Hne)|].
      right. simpl in Ht.
      destruct (t - length (s_phase <$> starts v))%nat eqn:Hk; [|discriminate].
      simpl in Ht. injection Ht as <-. split; [|reflexivity].
      apply lookup_lt_Some in I5. lia.
  - injection Hstep as <-. exact (quiet_single_flight _ _ _ _ _ (stop_call_quiet v) Hinv).
  - injection Hstep as <-. apply (quiet_single_flight _ _ _ v); [|exact Hinv].
    destruct (getStatus_fields h (mgr v)) as (_ & _ & _ & _ & _ & Hc).
    destruct Hc as (_ & _ & _ & _ & Hs & _). repeat split. exact Hs.
  - (* PortProbed *)
    destruct (doStarts v !! d) as [op|] eqn:Hd; [|discriminate].
    destruct (d_phase op) as [p| | |] eqn:Hph; try discriminate. injection Hstep as <-.
    assert (d = d0) as ->.
    { apply (single_flight_unsettled n d0 t0 v d op Hinv Hd). rewrite Hph. discriminate. }
    assert (Hph0 : phases v !! d0 = Some (DScan p)).
    { unfold phases. rewrite list_lookup_fmap, Hd. simpl. rewrite Hph. reflexivity. }
    unfold doStart_probed. destruct bound.
    + rewrite (doStart_spawn_eq h v d0 op p Hd).
      destruct (spawned_manager_fields h op p (length (children v)) (mgr v))
        as (_ & _ & _ & _ & _ & Hs & _).
      apply (single_flight_advance n d0 t0 v _ (DScan p) (DPoll (now v) 1) Hinv Hph0).
      * exact Hs.
      * unfold phases, in_phase. fields. rewrite list_fmap_insert. reflexivity.
      * reflexivity.
      * unfold spawn_count. intros Hlen. fields. rewrite length_app, Hlen. simpl. lia.
    + apply (single_flight_advance n d0 t0 v _ (DScan p)
               (if p + 1 <=? PORT_RANGE_END then DScan (p + 1)
                else DSettled (Throw err_no_port)) Hinv Hph0).
      * reflexivity.
      * unfold phases. fields. apply phases_alter.
      * reflexivity.
      * unfold spawn_count. intros Hlen. fields. rewrite Hlen.
        destruct (_ <=? _); lia.
  - (* StartupProbed *)
    destruct (doStarts v !! d) as [op|] eqn:Hd; [|discriminate].
    destruct (d_phase op) as [|st pc| |] eqn:Hph; try discriminate. injection Hstep as <-.
    assert (d = d0) as ->.
    { apply (single_flight_unsettled n d0 t0 v d op Hinv Hd). rewrite Hph. discriminate. }
    assert (Hph0 : phases v !! d0 = Some (DPoll st pc)).
    { unfold phases. rewrite list_lookup_fmap, Hd. simpl. rewrite Hph. reflexivity. }
    unfold waitForReady_probed. destruct ok.
    + apply (single_flight_advance n d0 t0 v _ (DPoll st pc) (DSettled (Ok tt)) Hinv Hph0).
      * fields.
        destruct (stopHealthCheck_fields (set_ready true (mgr v)))
          as (_ & _ & _ & _ & Hs & _).
        exact Hs.
      * unfold phases. fields. apply phases_alter.
      * reflexivity.
      * unfold spawn_count. fields. auto.
    + apply (single_flight_advance n d0 t0 v _ (DPoll st pc)
               (DSleep st pc (now v + STARTUP_POLL_INTERVAL_MS)) Hinv Hph0).
      * reflexivity.
      * unfold phases. fields. apply phases_alter.
      * reflexivity.
      * unfold spawn_count. fields. auto.
  - (* PollTimer *)
    destruct (doStarts v !! d) as [op|] eqn:Hd; [|discriminate].
    destruct (d_phase op) as [| |st pc wake|] eqn:Hph; try discriminate.
    destruct (_ <=? _); [|discriminate]. injection Hstep as <-.
    assert (d = d0) as ->.
    { apply (single_flight_unsettled n d0 t0 v d op Hinv Hd). rewrite Hph. discriminate. }
    assert (Hph0 : phases v !! d0 = Some (DSleep st pc wake)).
    { unfold phases. rewrite list_lookup_fmap, Hd. simpl. rewrite Hph. reflexivity. }
    apply (single_flight_advance n d0 t0 v _ (DSleep st pc wake)
             (waitForReady_loop st pc op v) Hinv Hph0).
    + reflexivity.
    + unfold phases. fields. apply phases_alter.
    + reflexivity.
    + unfold spawn_count at 1. fields. intros Hlen. unfold waitForReady_loop.
      destruct (_ <? _); [destruct (process_gone v)|]; unfold spawn_count; lia.
  - (* ChildClose *)
    destruct (children v !! c) as [ch|]; [|discriminate].
    destruct (c_closed ch); [discriminate|]. injection Hstep as <-.
    exact (quiet_single_flight _ _ _ _ _ (child_close_quiet c ch code v) Hinv).
  - destruct (children v !! c); [|discriminate]. injection Hstep as <-.
    apply (quiet_single_flight _ _ _ v); [repeat split | exact Hinv].
  - destruct (children v !! c) as [ch|]; [|discriminate].
    destruct (c_closed ch); [discriminate|]. injection Hstep as <-.
    apply (quiet_single_flight _ _ _ v); [|exact Hinv].
    unfold quiet, phases. fields.
    rewrite (fmap_alter_same d_phase) by reflexivity. repeat split.
  - destruct (stops v !! s) as [[c [deadline|]| |]|]; try discriminate.
    destruct (_ <=? _); [|discriminate]. injection Hstep as <-.
    exact (quiet_single_flight _ _ _ _ _ (stop_timeout_quiet s c v) Hinv).
  - destruct (stops v !! s) as [[| |]|]; try discriminate. injection Hstep as <-.
    apply (quiet_single_flight _ _ _ v); [repeat split | exact Hinv].
  - (* StartAfterStop: no caller is at that await *)
    destruct (starts v !! t) as [a|] eqn:Ht; [|discriminate].
    destruct (s_phase a) as [s| | |] eqn:Hph; try discriminate. exfalso.
    assert (Hsp : start_phases v !! t = Some (SAwaitStop s)).
    { unfold start_phases. rewrite list_lookup_fmap, Ht. simpl. rewrite Hph. reflexivity. }
    destruct (decide (t = t0)) as [->|Hne]; [rewrite I5 in Hsp; discriminate|].
    destruct (I6 t _ Hsp Hne) as [[_ Hidle]|[_ Hj]]; [exact Hidle | discriminate].
  - (* StartFinally: only the first caller is at that await *)
    destruct (starts v !! t) as [a|] eqn:Ht; [|discriminate].
    destruct (s_phase a) as [|d| |] eqn:Hph; try discriminate. exfalso.
    assert (Hsp : start_phases v !! t = Some (SAwaitStartup d)).
    { unfold start_phases. rewrite list_lookup_fmap, Ht. simpl. rewrite Hph. reflexivity. }
    destruct (decide (t = t0)) as [->|Hne]; [apply Hnot; reflexivity|].
    destruct (I6 t _ Hsp Hne) as [[_ Hidle]|[_ Hj]]; [exact Hidle | discriminate].
  - destruct (healthCheckInterval (mgr v)); [|discriminate]. injection Hstep as <-.
    apply (quiet_single_flight _ _ _ v); [|exact Hinv]. unfold healthCheck_tick.
    destruct (process (mgr v)); [repeat split|].
    destruct (stopHealthCheck_fields (mgr v)) as (_ & _ & _ & _ & Hs & _).
    repeat split. exact Hs.
  - destruct (monitorProbes v); [discriminate|]. injection Hstep as <-.
    apply (quiet_single_flight _ _ _ v); [|exact Hinv]. unfold healthCheck_result.
    destruct ok; repeat split.
  - destruct (_ <=? _); [|discriminate]. injection Hstep as <-.
    apply (quiet_single_flight _ _ _ v); [repeat split | exact Hinv].
Qed.

Lemma run_single_flight (n d0 t0 : nat) (es : list Event) (v v' : World) :
  single_flight n d0 t0 v -> StartFinally t0 ∉ es -> run h v es = Some v' ->
  single_flight n d0 t0 v'.
Proof.
  revert v. induction es as [|e es IH]; intros v Hinv Hnot Hrun; simpl in Hrun.
  - injection Hrun as <-. exact Hinv.
  - destruct (step h v e) as [v1|] eqn:Hstep; [|discriminate].
    apply (IH v1); [|intros Hin; apply Hnot; right; exact Hin | exact Hrun].
    apply (step_single_flight n d0 t0 v v1 e Hinv); [|exact Hstep].
    intros ->. apply Hnot. left.
Qed.

(** A [start] on a supervisor that owns no process and has no start
    pending establishes the invariant before it reaches its await. *)
Lemma start_call_single_flight (w : World) (model : string) (o : Options) :
  startupPromise (mgr w) = None -> process (mgr w) = None -> ready (mgr w) = false ->
  Forall (fun op => exists r, d_phase op = DSettled r) (doStarts w) ->
  Forall (fun a => idle (s_phase a)) (starts w) ->
  single_flight (length (children w)) (length (doStarts w)) (length (starts w))
    (start_call h model o w).
Proof.
  intros Hs Hp Hr Hold Hidle.
  assert (Hshape : exists m ph,
             start_call h model o w
             = with_starts
                 (starts w ++ [mkStart model o (SAwaitStartup (length (doStarts w)))])
                 (with_mgr (set_startupPromise (Some (length (doStarts w))) m)
                    (with_doStarts
                       (doStarts w ++ [mkDoStart model o
                                         (resolve_binary h (useCuda_or_false o) (mgr w)).1.1
                                         "" None ph])
                       (with_mgr m w)))
             /\ spawn_count (length (children w)) ph (length (children w))).
  { unfold start_call. rewrite Hs, Hr, Hp. cbn [andb].
    unfold start_launch, doStart_call.
    destruct (resolve_binary h (useCuda_or_false o) (mgr w)) as [[b a] m1]. cbn [fst snd].
    destruct (negb (truthy b)).
    { eexists _, _. split; [reflexivity|]. simpl. lia. }
    destruct (negb (existsSync h model)).
    { eexists _, _. split; [reflexivity|]. simpl. lia. }
    eexists _, _. split; [reflexivity|]. reflexivity. }
  destruct Hshape as (m & ph & -> & Hcount).
  constructor; unfold phases, start_phases; fields.
  - reflexivity.
  - rewrite length_fmap, length_app. simpl. lia.
  - intros i p Hi Hne. rewrite list_lookup_fmap in Hi.
    destruct ((doStarts w ++ [_]) !! i) as [op|] eqn:Hop; [|discriminate].
    injection Hi as <-. apply lookup_app_Some in Hop.
    destruct Hop as [Hop|[Hge Hop]].
    + exact (Forall_lookup_1 _ _ _ _ Hold Hop).
    + exfalso. apply lookup_lt_Some in Hop. simpl in Hop. lia.
  - intros p Hi. rewrite list_lookup_fmap, list_lookup_middle in Hi by reflexivity.
    injection Hi as <-. exact Hcount.
  - rewrite list_lookup_fmap, list_lookup_middle by reflexivity. reflexivity.
  - intros t p Ht Hne. rewrite list_lookup_fmap in Ht.
    destruct ((starts w ++ [_]) !! t) as [a|] eqn:Ha; [|discriminate].
    injection Ht as <-. apply lookup_app_Some in Ha.
    destruct Ha as [Ha|[Hge Ha]].
    + left. split; [apply lookup_lt_Some in Ha; exact Ha|].
      exact (Forall_lookup_1 _ _ _ _ Hidle Ha).
    + exfalso. apply lookup_lt_Some in Ha. simpl in Ha. lia.
Qed.

(** Single flight when nothing has to be stopped: on a stopped supervisor
    with nothing else pending, whatever happens between the first [start]
    and its completion (further calls of [start], [stop] and [getStatus],
    probe answers, timers, child events), there is one activation of
    [_doStart], at most one child is spawned (exactly one when the start
    succeeds), and every later caller has joined that activation and
    observes its outcome. *)
Theorem single_flight_on_stopped_supervisor
    (w w' : World) (model : string) (o : Options) (es : list Event) :
  startupPromise (mgr w) = None -> process (mgr w) = None -> ready (mgr w) = false ->
  Forall (fun op => exists r, d_phase op = DSettled r) (doStarts w) ->
  Forall (fun a => idle (s_phase a)) (starts w) ->
  StartFinally (length (starts w)) ∉ es ->
  run h w (CallStart model o :: es) = Some w' ->
  length (doStarts w') = S (length (doStarts w))
  /\ (length (children w') <= S (length (children w)))%nat
  /\ (d_phase <$> doStarts w' !! length (doStarts w) = Some (DSettled (Ok tt)) ->
      length (children w') = S (length (children w)))
  /\ (forall t a,
        starts w' !! t = Some a -> (length (starts w) < t)%nat ->
        s_phase a = SJoined (length (doStarts w))
        /\ start_outcome w' t
           = match d_phase <$> doStarts w' !! length (doStarts w) with
             | Some (DSettled r) => Some r
             | _ => None
             end).
Proof.
  intros Hs Hp Hr Hold Hidle Hnot Hrun. cbn [run step] in Hrun.
  pose proof (start_call_single_flight w model o Hs Hp Hr Hold Hidle) as Hinv0.
  pose proof (run_single_flight _ _ _ es _ w' Hinv0 Hnot Hrun) as [I1 I2 I3 I4 I5 I6].
  unfold phases, start_phases in *.
  rewrite length_fmap in I2.
  assert (Hlook : exists ph, (d_phase <$> doStarts w') !! length (doStarts w) = Some ph).
  { apply lookup_lt_is_Some. rewrite length_fmap, I2. lia. }
  destruct Hlook as [ph Hph]. pose proof (I4 ph Hph) as Hcount.
  split; [exact I2|]. split; [|split].
  - destruct ph as [| | |[|]]; simpl in Hcount; lia.
  - rewrite list_lookup_fmap in Hph. intros Hok. rewrite Hok in Hph.
    injection Hph as <-. exact Hcount.
  - intros t a Ht Hlt.
    assert (Hsp : (s_phase <$> starts w') !! t = Some (s_phase a)).
    { rewrite list_lookup_fmap, Ht. reflexivity. }
    destruct (I6 t _ Hsp ltac:(lia)) as [[Hlt' _]|[_ Hj]]; [lia|].
    split; [exact Hj|]. unfold start_outcome. rewrite Ht. simpl. rewrite Hj. reflexivity.
Qed.

End SingleFlightInvariant.

(** Three callers on a fresh supervisor: one child, one outcome. *)
Example three_callers_one_child :
  exists w,
    run Demo.host initial_world
      [CallStart Demo.model_a no_options; CallStart Demo.model_a no_options;
       PortProbed 0 true; CallStart Demo.model_a no_options;
       StartupProbed 0 true; StartFinally 0] = Some w
    /\ length (children w) = 1%nat
    /\ start_outcome w 0 = Some (Ok tt)
    /\ start_outcome w 1 = Some (Ok tt)
    /\ start_outcome w 2 = Some (Ok tt).
Proof.
  eexists. split; [vm_compute; reflexivity|].
  repeat split; vm_compute; reflexivity.
Qed.

(** The supervisor is ready on model A; [start] is called twice in a row
    for model B.  Both calls stop the running child; once it has closed,
    both continue and each runs [_doStart]. *)
Definition double_start_run : list Event :=
  ready_run
  ++ [CallStart Demo.model_b no_options;   (* start 1: awaits stop 0 *)
      CallStart Demo.model_b no_options;   (* start 2: awaits stop 1 *)
      ChildClose 0 None;                   (* the child dies of SIGTERM *)
      StopResume 0; StopResume 1;
      StartAfterStop 1;                    (* _doStart 1, startupPromise := 1 *)
      StartAfterStop 2;                    (* _doStart 2, startupPromise := 2 *)
      PortProbed 1 true;                   (* 8178 binds: child 1 spawned *)
      PortProbed 2 false;                  (* 8178 is taken now *)
      PortProbed 2 true;                   (* 8179 binds: child 2 spawned *)
      StartupProbed 1 true; StartupProbed 2 true;
      StartFinally 1; StartFinally 2].

(** C1 at this input: two concurrent [start] calls with identical
    arguments, issued while a process for another model is owned, spawn
    two children.  Neither call joined the other; the manager ends up
    holding the second child, the first is still running and no longer
    referenced. *)
Theorem C1_concurrent_starts_spawn_two_children :
  exists w,
    run Demo.host initial_world double_start_run = Some w
    /\ s_phase <$> starts w !! 1%nat = Some (SDone (Ok tt))
    /\ s_phase <$> starts w !! 2%nat = Some (SDone (Ok tt))
    /\ length (children w) = 3%nat
    /\ (c_args <$> children w !! 1%nat)
       = Some ["--model"; Demo.model_b; "--host"; "127.0.0.1"; "--port"; "8178"]
    /\ (c_args <$> children w !! 2%nat)
       = Some ["--model"; Demo.model_b; "--host"; "127.0.0.1"; "--port"; "8179"]
    /\ c_closed <$> children w !! 1%nat = Some false
    /\ c_closed <$> children w !! 2%nat = Some false
    /\ process (mgr w) = Some 2%nat
    /\ signals w = [(0%nat, SIGTERM); (0%nat, SIGTERM)].
Proof.
  eexists. split; [vm_compute; reflexivity|].
  repeat split; vm_compute; reflexivity.
Qed.

(** ** The port scan inside _doStart agrees with findAvailablePort *)

Section ScanAgrees.
Variable h : Host.

(** The events the host delivers to an activation that scans with the
    answers [binds]: one per port probed by [findAvailablePort]. *)
Definition scan_events (d : nat) (binds : Z -> bool) : list Event :=
  match (findAvailablePort binds).1 with
  | Ok q => replicate (Z.to_nat (q - PORT_RANGE_START)) (PortProbed d false)
            ++ [PortProbed d true]
  | Throw _ => replicate 22 (PortProbed d false)
  end.

Lemma scan_exhausted (w : World) (d : nat) (op : DoStart) :
  doStarts w !! d = Some op -> d_phase op = DScan PORT_RANGE_START ->
  run h w (replicate 22 (PortProbed d false))
  = Some (with_doStarts
            (<[d := set_d_phase (DSettled (Throw err_no_port)) op]> (doStarts w)) w).
Proof.
  intros Hd Hph.
  change (replicate 22 (PortProbed d false))
    with (replicate 21 (PortProbed d false) ++ [PortProbed d false]).
  rewrite run_app.
  rewrite (run_port_misses h 21 w d op PORT_RANGE_START Hd Hph)
    by (unfold PORT_RANGE_START, PORT_RANGE_END; lia).
  cbn [mbind option_bind run].
  change (PORT_RANGE_START + Z.of_nat 21) with PORT_RANGE_END.
  rewrite (step_port_last_miss h _ d _ (in_phase_lookup w d op _ Hd) eq_refl).
  rewrite in_phase_twice. reflexivity.
Qed.

(** The scan of an activation ends as [findAvailablePort] does: with
    the child spawned on the port it returns, or with its error. *)
Lemma scan_agrees (w : World) (d : nat) (op : DoStart) (binds : Z -> bool) :
  doStarts w !! d = Some op -> d_phase op = DScan PORT_RANGE_START ->
  exists w',
    run h w (scan_events d binds) = Some w'
    /\ match (findAvailablePort binds).1 with
       | Ok q => port (mgr w') = Some q
                 /\ process (mgr w') = Some (length (children w))
                 /\ length (children w') = S (length (children w))
       | Throw msg => d_phase <$> doStarts w' !! d = Some (DSettled (Throw msg))
                      /\ mgr w' = mgr w /\ children w' = children w
       end.
Proof.
  intros Hd Hph. unfold scan_events.
  destruct (findAvailablePort binds).1 as [q|msg] eqn:Hres.
  - destruct (findAvailablePort_in_range binds q Hres) as [Hlo Hhi].
    destruct (port_misses_facts h (Z.to_nat (q - PORT_RANGE_START)) w d op
                PORT_RANGE_START Hd Hph ltac:(lia))
      as (w1 & Hrun1 & Hm1 & Hc1 & _ & _ & _ & _ & Hd1).
    destruct (port_hit_facts h w1 d _ _ Hd1 eq_refl)
      as (w2 & Hstep2 & Hp2 & Hport2 & _ & _ & _ & _ & _ & Hc2 & _).
    exists w2. rewrite run_app, Hrun1. cbn [mbind option_bind run]. rewrite Hstep2.
    split; [reflexivity|].
    split; [rewrite Hport2; f_equal; lia|].
    split; [rewrite Hp2, Hc1; reflexivity|].
    rewrite Hc2, length_app, Hc1. simpl. lia.
  - eexists. split; [exact (scan_exhausted w d op Hd Hph)|].
    destruct (findAvailablePort_loop_exhausted binds _ PORT_RANGE_START msg eq_refl Hres)
      as (-> & _).
    fields. split; [|split; reflexivity].
    rewrite list_lookup_insert_eq by (apply lookup_lt_Some in Hd; exact Hd).
    reflexivity.
Qed.

End ScanAgrees.


(** * Further properties of the module *)

(** ** Binary locator *)

Lemma find_first {A} (f : A -> bool) (l : list A) (x : A) :
  List.find f l = Some x ->
  exists l1 l2, l = l1 ++ x :: l2 /\ f x = true /\ Forall (fun y => f y = false) l1.
Proof.
  induction l as [|y l IH]; simpl; [discriminate|].
  destruct (f y) eqn:Hy.
  - intros [= ->]. exists [], l. repeat split; [exact Hy | constructor].
  - intros Hx. destruct (IH Hx) as (l1 & l2 & -> & Hfx & Hall).
    exists (y :: l1), l2. repeat split; [exact Hfx | constructor; assumption].
Qed.

Lemma find_nothing {A} (f : A -> bool) (l : list A) :
  List.find f l = None -> Forall (fun y => f y = false) l.
Proof.
  induction l as [|y l IH]; simpl; [constructor|].
  destruct (f y) eqn:Hy; [discriminate|]. intros Hl. constructor; auto.
Qed.

(** The cache slot [getServerBinaryPath] reads and writes for a variant. *)
Definition binary_cache (useCuda : bool) (m : Manager) : option string :=
  if useCuda then cachedCudaBinaryPath m else cachedServerBinaryPath m.

(** A candidate the walk accepts: it exists and [statSync] does not throw. *)
Definition usable (h : Host) (p : string) : bool := existsSync h p && statSync_ok h p.

(** X1: with no cached path for the variant, [getServerBinaryPath] returns
    the first candidate of the variant's list that exists and can be
    stat'ed, and stores it in that variant's cache slot only; when no
    candidate is usable it returns null and leaves the manager as it was,
    so a negative answer is never cached. *)
Theorem X1_getServerBinaryPath_first_usable_candidate
    (h : Host) (useCuda : bool) (m : Manager) :
  truthy (binary_cache useCuda m) = false ->
  (forall p, (getServerBinaryPath h useCuda m).1 = Some p ->
     exists before after,
       serverBinaryCandidates h useCuda = before ++ p :: after
       /\ usable h p = true
       /\ Forall (fun q => usable h q = false) before
       /\ binary_cache useCuda (getServerBinaryPath h useCuda m).2 = Some p
       /\ binary_cache (negb useCuda) (getServerBinaryPath h useCuda m).2
          = binary_cache (negb useCuda) m)
  /\ ((getServerBinaryPath h useCuda m).1 = None ->
        (getServerBinaryPath h useCuda m).2 = m
        /\ Forall (fun q => usable h q = false) (serverBinaryCandidates h useCuda)).
Proof.
  intros Hcache. unfold getServerBinaryPath.
  change (if useCuda then cachedCudaBinaryPath m else cachedServerBinaryPath m)
    with (binary_cache useCuda m).
  rewrite Hcache.
  change (fun c => existsSync h c && statSync_ok h c) with (usable h).
  destruct (List.find (usable h) (serverBinaryCandidates h useCuda)) as [c|] eqn:Hfind;
    cbn [fst snd].
  - split; [|discriminate]. intros p [= <-].
    destruct (find_first _ _ _ Hfind) as (l1 & l2 & Hl & Hc & Hall).
    exists l1, l2. destruct useCuda; repeat split; assumption.
  - split; [discriminate|]. intros _. split; [reflexivity|].
    exact (find_nothing _ _ Hfind).
Qed.

Lemma X1_first_usable_witness :
  (getServerBinaryPath Demo.host false constructor).1 = Some Demo.cpu_binary
  /\ (getServerBinaryPath Demo.host true constructor).2 = constructor.
Proof.
  destruct (X1_getServerBinaryPath_first_usable_candidate Demo.host true constructor
              eq_refl) as [_ Hnone].
  split; [vm_compute; reflexivity|].
  apply Hnone. vm_compute. reflexivity.
Defined.


(** A host on which nothing exists any more. *)
Definition empty_host : Host :=
  mkHost "linux" "x64" None "/app/src/helpers" None (fun _ => false) (fun _ => false)
    Demo.join Demo.dir_of Demo.base_of false None (fun _ _ => None).


(** The file name of a variant's binary (lines 136-139). *)
Definition variantBinaryName (h : Host) (variant : string) : string :=
  if is_platform h "win32"
  then "whisper-server-" +:+ (platform h +:+ "-" +:+ arch h) +:+ "-" +:+ variant +:+ ".exe"
  else "whisper-server-" +:+ (platform h +:+ "-" +:+ arch h) +:+ "-" +:+ variant.

(** X3: off macOS a CUDA request is only ever looked up under the
    CUDA-labelled file name, in at most two directories: the legacy and
    generic names are not candidates, so a CUDA lookup cannot resolve to
    an unlabelled binary. *)
Theorem X3_cuda_lookup_only_under_cuda_name (h : Host) (m : Manager) :
  is_platform h "darwin" = false ->
  (length (serverBinaryCandidates h true) <= 2)%nat
  /\ (forall p, p ∈ serverBinaryCandidates h true ->
        exists dir, p = path_join h (dir ++ [variantBinaryName h "cuda"]))
  /\ (truthy (cachedCudaBinaryPath m) = false ->
      forall p, (getServerBinaryPath h true m).1 = Some p ->
        exists dir, p = path_join h (dir ++ [variantBinaryName h "cuda"])).
Proof.
  intros Hmac.
  assert (Hcands : forall p, p ∈ serverBinaryCandidates h true ->
            exists dir, p = path_join h (dir ++ [variantBinaryName h "cuda"])).
  { unfold serverBinaryCandidates, variantBinaryName. rewrite Hmac. cbn [negb andb].
    intros p Hin. apply elem_of_app in Hin. destruct Hin as [Hin|Hin].
    - destruct (resourcesPath h) as [rp|]; [|inversion Hin].
      destruct (truthy (Some rp)); [|inversion Hin].
      apply list_elem_of_singleton in Hin. subst p.
      exists [rp; "bin"]. reflexivity.
    - apply list_elem_of_singleton in Hin. subst p.
      exists [dirname h; ".."; ".."; "resources"; "bin"]. reflexivity. }
  split; [|split; [exact Hcands|]].
  - unfold serverBinaryCandidates. rewrite Hmac. cbn [negb andb].
    destruct (resourcesPath h) as [rp|]; [destruct (truthy (Some rp))|]; simpl; lia.
  - intros Hcache p Hres. apply Hcands. revert Hres.
    unfold getServerBinaryPath. rewrite Hcache.
    destruct (List.find _ _) as [c|] eqn:Hfind; cbn [fst]; [|discriminate].
    intros [= <-]. destruct (find_first _ _ _ Hfind) as (l1 & l2 & -> & _).
    apply elem_of_app. right. left.
Qed.

Lemma X3_cuda_lookup_witness :
  (length (serverBinaryCandidates Demo.host true) <= 2)%nat.
Proof.
  exact (proj1 (X3_cuda_lookup_only_under_cuda_name Demo.host constructor eq_refl)).
Defined.

(** A Mac with the binary the installer writes for it. *)
Definition mac_binary : string := "/app/resources/bin/whisper-server-darwin-arm64".

Definition mac_host : Host :=
  mkHost "darwin" "arm64" None "/app/src/helpers" (Some "/usr/bin")
    (fun p => String.eqb p mac_binary || String.eqb p Demo.model_a) (fun _ => true)
    Demo.join Demo.dir_of Demo.base_of false None (fun _ _ => Some true).

(** X4: on macOS the CUDA lookup walks the very candidates of the CPU
    lookup (variant "cpu", legacy and generic names included).  A start
    that requests CUDA there, with nothing cached, therefore runs
    whatever the CPU walk finds and records [usingCuda = true]: no
    fallback is ever recorded on macOS. *)
Theorem X4_macos_cuda_request_resolves_as_cpu
    (h : Host) (w : World) (model : string) (o : Options) (b : string) :
  is_platform h "darwin" = true ->
  truthy (cachedCudaBinaryPath (mgr w)) = false ->
  useCuda o = Some true ->
  List.find (usable h) (serverBinaryCandidates h false) = Some b ->
  truthy (Some b) = true ->
  serverBinaryCandidates h true = serverBinaryCandidates h false
  /\ (resolve_binary h true (mgr w)).1 = (Some b, true)
  /\ usingCuda (mgr (doStart_call h model o w).1) = true
  /\ d_serverBinary <$> doStarts (doStart_call h model o w).1 !! length (doStarts w)
     = Some (Some b).
Proof.
  intros Hmac Hcache Hcuda Hfind Hb.
  assert (Hsame : serverBinaryCandidates h true = serverBinaryCandidates h false).
  { unfold serverBinaryCandidates. rewrite Hmac. reflexivity. }
  assert (Hget : getServerBinaryPath h true (mgr w)
                 = (Some b, set_cachedCudaBinaryPath (Some b) (mgr w))).
  { unfold getServerBinaryPath. rewrite Hcache, Hsame.
    change (fun c => existsSync h c && statSync_ok h c) with (usable h).
    rewrite Hfind. reflexivity. }
  split; [exact Hsame|].
  assert (Hres : resolve_binary h true (mgr w)
                 = (Some b, true, set_cachedCudaBinaryPath (Some b) (mgr w))).
  { unfold resolve_binary. rewrite Hget, Hb. reflexivity. }
  split; [rewrite Hres; reflexivity|].
  unfold doStart_call, useCuda_or_false. rewrite Hcuda. cbn [default from_option id].
  rewrite Hres, Hb. cbn [negb].
  destruct (negb (existsSync h model)); fields;
    (split; [reflexivity|]);
    rewrite list_lookup_middle by reflexivity; reflexivity.
Qed.

Lemma X4_macos_witness :
  (resolve_binary mac_host true constructor).1 = (Some mac_binary, true).
Proof.
  apply (X4_macos_cuda_request_resolves_as_cpu mac_host initial_world Demo.model_a
           Demo.cuda_options mac_binary); vm_compute; reflexivity.
Defined.

(** X5: [isCudaBinaryAvailable] caches a positive answer only.  A
    negative answer leaves the manager untouched, so the next call looks
    at the disk again; [clearCudaBinaryCache] makes the next CUDA lookup
    walk the disk again whatever was cached, and changes no other field
    of the manager, the CPU cache included. *)
Theorem X5_cuda_binary_cache_semantics (h h' : Host) (m : Manager) :
  ((isCudaBinaryAvailable h m).1 = false -> (isCudaBinaryAvailable h m).2 = m)
  /\ (getServerBinaryPath h' true (clearCudaBinaryCache m)).1
     = List.find (usable h') (serverBinaryCandidates h' true)
  /\ getServerBinaryPath h' false (clearCudaBinaryCache m)
     = ((getServerBinaryPath h' false m).1,
        clearCudaBinaryCache (getServerBinaryPath h' false m).2)
  /\ same_but_caches m (clearCudaBinaryCache m)
  /\ cachedServerBinaryPath (clearCudaBinaryCache m) = cachedServerBinaryPath m
  /\ cachedFFmpegPath (clearCudaBinaryCache m) = cachedFFmpegPath m
  /\ cudaAvailable (clearCudaBinaryCache m) = cudaAvailable m.
Proof.
  split; [|split; [|split]].
  - unfold isCudaBinaryAvailable, getServerBinaryPath.
    destruct (truthy (cachedCudaBinaryPath m)) eqn:Hc; cbn [fst snd].
    + destruct (cachedCudaBinaryPath m); [|discriminate Hc].
      rewrite bool_decide_eq_true_2 by discriminate. discriminate.
    + destruct (List.find _ _); cbn [fst snd]; [|reflexivity].
      rewrite bool_decide_eq_true_2 by discriminate. discriminate.
  - unfold getServerBinaryPath, clearCudaBinaryCache. cbn [cachedCudaBinaryPath
      set_cachedCudaBinaryPath truthy].
    destruct (List.find _ _); reflexivity.
  - unfold getServerBinaryPath, clearCudaBinaryCache.
    cbn [cachedServerBinaryPath set_cachedCudaBinaryPath].
    destruct (truthy (cachedServerBinaryPath m)); [reflexivity|].
    destruct (List.find _ _); reflexivity.
  - repeat split.
Qed.

(** X6: the answer of [checkCudaAvailable] is computed once: whatever a
    first call answered is what every later call answers, without looking
    at the host again; with nothing memoised, macOS answers false and any
    other platform answers whether nvidia-smi ran.  Nothing but the memo
    is written: the three path caches keep their values. *)
Theorem X6_checkCudaAvailable_memoised (h h' : Host) (m : Manager) :
  checkCudaAvailable h' (checkCudaAvailable h m).2
  = ((checkCudaAvailable h m).1, (checkCudaAvailable h m).2)
  /\ (cudaAvailable m = None ->
      (checkCudaAvailable h m).1
      = if is_platform h "darwin" then false else nvidia_smi_ok h)
  /\ same_but_caches m (checkCudaAvailable h m).2
  /\ cachedServerBinaryPath (checkCudaAvailable h m).2 = cachedServerBinaryPath m
  /\ cachedCudaBinaryPath (checkCudaAvailable h m).2 = cachedCudaBinaryPath m
  /\ cachedFFmpegPath (checkCudaAvailable h m).2 = cachedFFmpegPath m.
Proof.
  split; [|split; [|split; [apply checkCudaAvailable_caches|]]];
    [| | unfold checkCudaAvailable; destruct (cudaAvailable m);
         [|destruct (is_platform h "darwin"); [|destruct (nvidia_smi_ok h)]];
         repeat split].
  - unfold checkCudaAvailable. destruct (cudaAvailable m) as [b|] eqn:Hc; cbn [fst snd].
    + rewrite Hc. reflexivity.
    + destruct (is_platform h "darwin"); [reflexivity|].
      destruct (nvidia_smi_ok h); reflexivity.
  - intros Hc. unfold checkCudaAvailable. rewrite Hc.
    destruct (is_platform h "darwin"); [reflexivity|].
    destruct (nvidia_smi_ok h); reflexivity.
Qed.

(** ** The FFmpeg walk (getFFmpegPath, lines 35-119) *)

Definition backslash : string := String (Ascii.ascii_of_nat 92) EmptyString.

(** [s.includes(pat)]. *)
Fixpoint includes (pat s : string) : bool :=
  String.prefix pat s
  || match s with
     | String _ r => includes pat r
     | EmptyString => false
     end.

(** [s.endsWith(suffix)]. *)
Definition ends_with (suffix s : string) : bool :=
  String.eqb
    (String.substring (String.length s - String.length suffix) (String.length suffix) s)
    suffix.

(** [s.replace(/app\.asar([/\\])/, "app.asar.unpacked$1")]: the first
    "app.asar" that is followed by a slash or a backslash gets ".unpacked"
    appended; without such an occurrence the string is returned as it is. *)
Fixpoint asar_unpacked (s : string) : string :=
  if String.prefix "app.asar/" s || String.prefix ("app.asar" +:+ backslash) s
  then "app.asar.unpacked" +:+ String.substring 8 (String.length s) s
  else match s with
       | String a r => String a (asar_unpacked r)
       | EmptyString => EmptyString
       end.

(** [s.split(sep)] for a separator of one character. *)
Fixpoint split_on (sep : ascii) (acc : string) (s : string) : list string :=
  match s with
  | EmptyString => [acc]
  | String a r =>
      if Ascii.eqb a sep then acc :: split_on sep "" r
      else split_on sep (acc +:+ String a EmptyString) r
  end.

Definition strip_trailing_quote (s : string) : string :=
  if ends_with dquote s then String.substring 0 (String.length s - 1) s else s.

(** [entry.replace(/^"|"$/g, "")]: one leading and one trailing quote. *)
Definition strip_quotes (s : string) : string :=
  match s with
  | String a r => if Ascii.eqb a (Ascii.ascii_of_nat 34)
                  then strip_trailing_quote r
                  else strip_trailing_quote s
  | EmptyString => EmptyString
  end.

(** What the walk needs from Node beyond [Host]. *)
Record TranscoderHost := mkTranscoderHost {
  th_host : Host;
  ffmpeg_static : option string;     (* require("ffmpeg-static"), None when the
                                        require or path.normalize throws *)
  path_normalize : string -> string; (* path.normalize *)
  accessSync_X_ok : string -> bool   (* fs.accessSync(p, X_OK) returns *)
}.

Inductive FsEffect := Chmod (p : string).

Section FFmpegWalk.
Variable t : TranscoderHost.

Definition th_win32 : bool := is_platform (th_host t) "win32".

(** The path of the bundled binary after lines 36-41. *)
Definition bundledPath (raw : string) : string :=
  let p := path_normalize t raw in
  if th_win32 && negb (ends_with ".exe" p) then p +:+ ".exe" else p.

(** Line 44-46. *)
Definition unpackedPath (ffmpegPath : string) : option string :=
  if includes "app.asar" ffmpegPath then Some (asar_unpacked ffmpegPath) else None.

(** The [try] block (lines 35-81): the path it returns, or [None] when it
    falls through or throws; and the chmod it attempted (an error of the
    chmod itself is caught and logged, the path is returned all the same). *)
Definition bundledFFmpeg : option string * list FsEffect :=
  match ffmpeg_static t with
  | None => (None, [])
  | Some raw =>
      let ffmpegPath := bundledPath raw in
      let unpacked := unpackedPath ffmpegPath in
      if truthy unpacked && existsSync (th_host t) (default "" unpacked)
      then (unpacked,
            if negb th_win32 && negb (accessSync_X_ok t (default "" unpacked))
            then [Chmod (default "" unpacked)] else [])
      else if existsSync (th_host t) ffmpegPath
           then if negb th_win32 && negb (accessSync_X_ok t ffmpegPath)
                then (None, [])   (* throw new Error("Not executable") *)
                else (Some ffmpegPath, [])
           else (None, [])
  end.

(** Lines 84-89. *)
Definition systemCandidates : list string :=
  if is_platform (th_host t) "darwin"
  then ["/opt/homebrew/bin/ffmpeg"; "/usr/local/bin/ffmpeg"]
  else if th_win32
       then ["C:" +:+ backslash +:+ "ffmpeg" +:+ backslash +:+ "bin"
             +:+ backslash +:+ "ffmpeg.exe"]
       else ["/usr/bin/ffmpeg"; "/usr/local/bin/ffmpeg"].

(** Lines 98-101. *)
Definition pathDirs : list string :=
  let pathEnv := str_or (default "" (envPATH (th_host t))) "" in
  let sep := if th_win32 then ";"%char else ":"%char in
  strip_quotes <$> split_on sep "" pathEnv.

Definition pathBinary : string := if th_win32 then "ffmpeg.exe" else "ffmpeg".

(** The loop of lines 103-116. *)
Fixpoint scanPathDirs (dirs : list string) : option string :=
  match dirs with
  | [] => None
  | dir :: rest =>
      if String.eqb dir "" then scanPathDirs rest
      else
        let candidate := path_join (th_host t) [dir; pathBinary] in
        if negb (existsSync (th_host t) candidate) then scanPathDirs rest
        else if negb th_win32 && negb (accessSync_X_ok t candidate)
             then scanPathDirs rest
             else Some candidate
  end.

(** The walk past the cache test: the path returned (null is [None]) and
    the file system calls that change something. *)
Definition ffmpegWalk : option string * list FsEffect :=
  match bundledFFmpeg with
  | (Some p, effects) => (Some p, effects)
  | (None, effects) =>
      match List.find (existsSync (th_host t)) systemCandidates with
      | Some c => (Some c, effects)
      | None => (scanPathDirs pathDirs, effects)
      end
  end.

End FFmpegWalk.

(** A Linux desktop: the bundled copy sits outside any archive and is not
    executable; /usr/bin has no ffmpeg; PATH has one empty entry, a quoted
    directory with an ffmpeg that is not executable, and /opt/ff/bin with
    one that is. *)
Definition walk_host : TranscoderHost :=
  mkTranscoderHost
    (mkHost "linux" "x64" None "/app/src/helpers"
       (Some (":" +:+ dquote +:+ "/home/u/bin" +:+ dquote +:+ ":/opt/ff/bin"))
       (fun p => String.eqb p "/app/node_modules/ffmpeg-static/ffmpeg"
                 || String.eqb p "/home/u/bin/ffmpeg"
                 || String.eqb p "/opt/ff/bin/ffmpeg")
       (fun _ => true) Demo.join Demo.dir_of Demo.base_of false
       (Some "/opt/ff/bin/ffmpeg") (fun _ _ => Some true))
    (Some "/app/node_modules/ffmpeg-static/ffmpeg") (fun p => p)
    (fun p => String.eqb p "/opt/ff/bin/ffmpeg").

(** A packaged application: the bundled path lies inside app.asar and its
    unpacked twin exists without the executable bit. *)
Definition packaged_host : TranscoderHost :=
  mkTranscoderHost
    (mkHost "linux" "x64" (Some "/opt/app/resources") "/opt/app/resources/app.asar/src/helpers"
       (Some "/usr/bin")
       (fun p => String.eqb p "/opt/app/resources/app.asar.unpacked/node_modules/ffmpeg-static/ffmpeg")
       (fun _ => true) Demo.join Demo.dir_of Demo.base_of false
       (Some "/opt/app/resources/app.asar.unpacked/node_modules/ffmpeg-static/ffmpeg")
       (fun _ _ => Some true))
    (Some "/opt/app/resources/app.asar/node_modules/ffmpeg-static/ffmpeg") (fun p => p)
    (fun _ => false).

Lemma scanPathDirs_found (t : TranscoderHost) (dirs : list string) (p : string) :
  scanPathDirs t dirs = Some p ->
  exists dir, dir ∈ dirs /\ dir <> ""
    /\ p = path_join (th_host t) [dir; pathBinary t]
    /\ existsSync (th_host t) p = true
    /\ (th_win32 t = false -> accessSync_X_ok t p = true).
Proof.
  induction dirs as [|dir rest IH]; [discriminate|].
  assert (Hrest : scanPathDirs t rest = Some p ->
            exists d, d ∈ dir :: rest /\ d <> ""
              /\ p = path_join (th_host t) [d; pathBinary t]
              /\ existsSync (th_host t) p = true
              /\ (th_win32 t = false -> accessSync_X_ok t p = true)).
  { intros Hp. destruct (IH Hp) as (d & Hin & Hd). exists d.
    split; [right; exact Hin | exact Hd]. }
  cbn [scanPathDirs].
  destruct (String.eqb_spec dir "") as [->|Hne]; [exact Hrest|].
  set (cand := path_join (th_host t) [dir; pathBinary t]).
  destruct (existsSync (th_host t) cand) eqn:Hex; cbn [negb]; [|exact Hrest].
  destruct (negb (th_win32 t) && negb (accessSync_X_ok t cand)) eqn:Hx; [exact Hrest|].
  intros [= <-]. exists dir. split; [left|]. split; [exact Hne|].
  split; [reflexivity|]. split; [exact Hex|].
  intros Hwin. rewrite Hwin in Hx. cbn [negb andb] in Hx.
  apply negb_false_iff in Hx. exact Hx.
Qed.

(** Where a path returned by the walk came from. *)
Inductive FFmpegOrigin (t : TranscoderHost) (p : string) : Prop :=
| FromUnpacked (raw : string) :
    ffmpeg_static t = Some raw ->
    includes "app.asar" (bundledPath t raw) = true ->
    p = asar_unpacked (bundledPath t raw) ->
    FFmpegOrigin t p
| FromBundled (raw : string) :
    ffmpeg_static t = Some raw ->
    p = bundledPath t raw ->
    (th_win32 t = false -> accessSync_X_ok t p = true) ->
    FFmpegOrigin t p
| FromSystem :
    p ∈ systemCandidates t ->
    FFmpegOrigin t p
| FromPath (dir : string) :
    dir ∈ pathDirs t -> dir <> "" ->
    p = path_join (th_host t) [dir; pathBinary t] ->
    (th_win32 t = false -> accessSync_X_ok t p = true) ->
    FFmpegOrigin t p.

Lemma ffmpegWalk_origin (t : TranscoderHost) (p : string) :
  (ffmpegWalk t).1 = Some p ->
  existsSync (th_host t) p = true /\ FFmpegOrigin t p.
Proof.
  unfold ffmpegWalk, bundledFFmpeg.
  destruct (ffmpeg_static t) as [raw|] eqn:Hraw.
  - cbv zeta. unfold unpackedPath.
    destruct (includes "app.asar" (bundledPath t raw)) eqn:Hinc.
    + cbn [default from_option id].
      destruct (truthy (Some (asar_unpacked (bundledPath t raw)))
                && existsSync (th_host t) (asar_unpacked (bundledPath t raw))) eqn:Hun.
      * cbn [fst]. intros [= <-]. apply andb_true_iff in Hun. destruct Hun as [_ Hex].
        split; [exact Hex|]. exact (FromUnpacked t _ raw Hraw Hinc eq_refl).
      * destruct (existsSync (th_host t) (bundledPath t raw)) eqn:Hex.
        -- destruct (negb (th_win32 t) && negb (accessSync_X_ok t (bundledPath t raw)))
             eqn:Hx.
           ++ destruct (List.find _ _) as [c|] eqn:Hfind; cbn [fst].
              ** intros [= <-]. destruct (find_first _ _ _ Hfind) as (l1 & l2 & Hl & Hc & _).
                 split; [exact Hc|]. apply FromSystem. rewrite Hl.
                 apply elem_of_app. right. left.
              ** intros Hp. destruct (scanPathDirs_found t _ p Hp)
                   as (dir & Hin & Hne & Hp' & Hex' & Hx').
                 split; [exact Hex'|]. exact (FromPath t p dir Hin Hne Hp' Hx').
           ++ cbn [fst]. intros [= <-]. split; [exact Hex|].
              apply (FromBundled t _ raw Hraw eq_refl). intros Hwin.
              rewrite Hwin in Hx. cbn [negb andb] in Hx. apply negb_false_iff in Hx.
              exact Hx.
        -- destruct (List.find _ _) as [c|] eqn:Hfind; cbn [fst].
           ++ intros [= <-]. destruct (find_first _ _ _ Hfind) as (l1 & l2 & Hl & Hc & _).
              split; [exact Hc|]. apply FromSystem. rewrite Hl.
              apply elem_of_app. right. left.
           ++ intros Hp. destruct (scanPathDirs_found t _ p Hp)
                as (dir & Hin & Hne & Hp' & Hex' & Hx').
              split; [exact Hex'|]. exact (FromPath t p dir Hin Hne Hp' Hx').
    + cbn [truthy andb].
      destruct (existsSync (th_host t) (bundledPath t raw)) eqn:Hex.
      * destruct (negb (th_win32 t) && negb (accessSync_X_ok t (bundledPath t raw)))
          eqn:Hx.
        -- destruct (List.find _ _) as [c|] eqn:Hfind; cbn [fst].
           ++ intros [= <-]. destruct (find_first _ _ _ Hfind) as (l1 & l2 & Hl & Hc & _).
              split; [exact Hc|]. apply FromSystem. rewrite Hl.
              apply elem_of_app. right. left.
           ++ intros Hp. destruct (scanPathDirs_found t _ p Hp)
                as (dir & Hin & Hne & Hp' & Hex' & Hx').
              split; [exact Hex'|]. exact (FromPath t p dir Hin Hne Hp' Hx').
        -- cbn [fst]. intros [= <-]. split; [exact Hex|].
           apply (FromBundled t _ raw Hraw eq_refl). intros Hwin.
           rewrite Hwin in Hx. cbn [negb andb] in Hx. apply negb_false_iff in Hx.
           exact Hx.
      * destruct (List.find _ _) as [c|] eqn:Hfind; cbn [fst].
        -- intros [= <-]. destruct (find_first _ _ _ Hfind) as (l1 & l2 & Hl & Hc & _).
           split; [exact Hc|]. apply FromSystem. rewrite Hl.
           apply elem_of_app. right. left.
        -- intros Hp. destruct (scanPathDirs_found t _ p Hp)
             as (dir & Hin & Hne & Hp' & Hex' & Hx').
           split; [exact Hex'|]. exact (FromPath t p dir Hin Hne Hp' Hx').
  - destruct (List.find _ _) as [c|] eqn:Hfind; cbn [fst].
    + intros [= <-]. destruct (find_first _ _ _ Hfind) as (l1 & l2 & Hl & Hc & _).
      split; [exact Hc|]. apply FromSystem. rewrite Hl. apply elem_of_app. right. left.
    + intros Hp. destruct (scanPathDirs_found t _ p Hp)
        as (dir & Hin & Hne & Hp' & Hex' & Hx').
      split; [exact Hex'|]. exact (FromPath t p dir Hin Hne Hp' Hx').
Qed.

Lemma scanPathDirs_nothing (t : TranscoderHost) (dirs : list string) :
  scanPathDirs t dirs = None ->
  Forall (fun dir =>
            dir = ""
            \/ existsSync (th_host t) (path_join (th_host t) [dir; pathBinary t]) = false
            \/ (th_win32 t = false
                /\ accessSync_X_ok t (path_join (th_host t) [dir; pathBinary t]) = false))
         dirs.
Proof.
  induction dirs as [|dir rest IH]; [constructor|].
  cbn [scanPathDirs].
  destruct (String.eqb_spec dir "") as [->|Hne].
  { intros Hn. constructor; [left; reflexivity | exact (IH Hn)]. }
  set (cand := path_join (th_host t) [dir; pathBinary t]).
  destruct (existsSync (th_host t) cand) eqn:Hex; cbn [negb].
  - destruct (th_win32 t); cbn [negb andb]; [discriminate|].
    destruct (accessSync_X_ok t cand) eqn:Hx; cbn [negb]; [discriminate|].
    intros Hn. constructor; [right; right; split; [reflexivity | exact Hx] | exact (IH Hn)].
  - intros Hn. constructor; [right; left; exact Hex | exact (IH Hn)].
Qed.

(** X7: a path returned by [getFFmpegPath] exists on disk when it is
    found, and is remembered: on a host whose answer is the walk of lines
    35-119, a call with an empty cache that returns a path returns one
    for which [existsSync] holds and stores it in [cachedFFmpegPath];
    a null result means that no well-known location exists and that no
    non-empty PATH entry holds an ffmpeg that exists (and, off Windows,
    is executable). *)
Theorem X7_ffmpeg_path_found_exists (t : TranscoderHost) (m : Manager) :
  ffmpegSearch (th_host t) = (ffmpegWalk t).1 ->
  truthy (cachedFFmpegPath m) = false ->
  (forall p, (getFFmpegPath (th_host t) m).1 = Some p ->
     existsSync (th_host t) p = true
     /\ cachedFFmpegPath (getFFmpegPath (th_host t) m).2 = Some p)
  /\ ((getFFmpegPath (th_host t) m).1 = None ->
      (getFFmpegPath (th_host t) m).2 = m
      /\ Forall (fun c => existsSync (th_host t) c = false) (systemCandidates t)
      /\ Forall (fun dir =>
                   dir = ""
                   \/ existsSync (th_host t) (path_join (th_host t) [dir; pathBinary t])
                      = false
                   \/ (th_win32 t = false
                       /\ accessSync_X_ok t (path_join (th_host t) [dir; pathBinary t])
                          = false))
                (pathDirs t)).
Proof.
  intros Hagree Hcache. unfold getFFmpegPath. rewrite Hcache, Hagree.
  destruct (ffmpegWalk t).1 as [q|] eqn:Hwalk; cbn [fst snd].
  - split; [|discriminate]. intros p [= <-].
    split; [exact (proj1 (ffmpegWalk_origin t q Hwalk)) | reflexivity].
  - split; [discriminate|]. intros _. split; [reflexivity|].
    revert Hwalk. unfold ffmpegWalk.
    destruct (bundledFFmpeg t) as [[b|] ef]; cbn [fst]; [discriminate|].
    destruct (List.find _ _) eqn:Hfind; cbn [fst]; [discriminate|].
    intros Hscan. split; [exact (find_nothing _ _ Hfind)|].
    exact (scanPathDirs_nothing t _ Hscan).
Qed.

Lemma X7_ffmpeg_path_witness :
  existsSync (th_host walk_host) "/opt/ff/bin/ffmpeg" = true
  /\ cachedFFmpegPath (getFFmpegPath (th_host walk_host) constructor).2
     = Some "/opt/ff/bin/ffmpeg".
Proof.
  destruct (X7_ffmpeg_path_found_exists walk_host constructor) as [Hfound _];
    [vm_compute; reflexivity | reflexivity |].
  apply Hfound. vm_compute. reflexivity.
Defined.

(** X8: off Windows, the path returned by the FFmpeg walk is executable
    unless it is the copy unpacked from app.asar or one of the well-known
    system locations, which are returned on existence alone; a bundled
    copy outside the archive, and an ffmpeg found through PATH, are only
    returned when [accessSync(X_OK)] succeeds.  The one file system change
    the walk attempts is a chmod of the unpacked copy it is about to
    return, when that copy lacks the executable bit. *)
Theorem X8_ffmpeg_walk_executable_or_known_location (t : TranscoderHost) (p : string) :
  th_win32 t = false ->
  (ffmpegWalk t).1 = Some p ->
  (accessSync_X_ok t p = true
   \/ p ∈ systemCandidates t
   \/ exists raw, ffmpeg_static t = Some raw
        /\ includes "app.asar" (bundledPath t raw) = true
        /\ p = asar_unpacked (bundledPath t raw))
  /\ ((ffmpegWalk t).2 = []
      \/ ((ffmpegWalk t).2 = [Chmod p] /\ accessSync_X_ok t p = false
          /\ exists raw, ffmpeg_static t = Some raw
               /\ p = asar_unpacked (bundledPath t raw))).
Proof.
  intros Hwin Hwalk. split.
  - destruct (ffmpegWalk_origin t p Hwalk) as [_ [raw Hraw Hinc Hp|raw Hraw Hp Hx|Hin|dir _ _ _ Hx]].
    + right. right. exists raw. auto.
    + left. exact (Hx Hwin).
    + right. left. exact Hin.
    + left. exact (Hx Hwin).
  - revert Hwalk. unfold ffmpegWalk, bundledFFmpeg.
    destruct (ffmpeg_static t) as [raw|] eqn:Hraw.
    + cbv zeta. rewrite Hwin. cbn [negb andb].
      destruct (truthy (unpackedPath (bundledPath t raw))
                && existsSync (th_host t) (default "" (unpackedPath (bundledPath t raw))))
        eqn:Hun.
      * unfold unpackedPath in *.
        destruct (includes "app.asar" (bundledPath t raw)); [|discriminate Hun].
        cbn [default from_option id fst snd]. intros [= <-].
        destruct (accessSync_X_ok t (asar_unpacked (bundledPath t raw))) eqn:Hx;
          cbn [negb]; [left; reflexivity|].
        right. split; [reflexivity|]. split; [reflexivity|]. exists raw. auto.
      * destruct (existsSync (th_host t) (bundledPath t raw)).
        -- destruct (negb (accessSync_X_ok t (bundledPath t raw))).
           ++ destruct (List.find _ _); intros _; left; reflexivity.
           ++ intros _. left. reflexivity.
        -- destruct (List.find _ _); intros _; left; reflexivity.
    + destruct (List.find _ _); intros _; left; reflexivity.
Qed.

Lemma X8_ffmpeg_walk_witness :
  (ffmpegWalk packaged_host).2
  = [Chmod "/opt/app/resources/app.asar.unpacked/node_modules/ffmpeg-static/ffmpeg"].
Proof.
  destruct (X8_ffmpeg_walk_executable_or_known_location packaged_host
              "/opt/app/resources/app.asar.unpacked/node_modules/ffmpeg-static/ffmpeg"
              eq_refl) as [_ [Hnil|[Hch _]]];
    [vm_compute; reflexivity | vm_compute in Hnil; discriminate Hnil | exact Hch].
Defined.

(** ** How a start fails before a child exists *)

Section StartFailures.
Variable h : Host.

(** The three ways [_doStart] leaves its first segment, by what the
    binary resolution and the model test give. *)
Lemma doStart_call_cases (model : string) (o : Options) (w : World)
    (b : option string) (a : bool) (m1 : Manager) :
  resolve_binary h (useCuda_or_false o) (mgr w) = (b, a, m1) ->
  doStart_call h model o w
  = (with_doStarts
       (doStarts w ++
          [mkDoStart model o b "" None
             (if negb (truthy b) then DSettled (Throw err_binary_not_found)
              else if negb (existsSync h model)
                   then DSettled (Throw (err_model_not_found model))
                   else DScan PORT_RANGE_START)])
       (with_mgr (if negb (truthy b) then m1 else set_usingCuda a m1) w),
     length (doStarts w)).
Proof.
  intros Hres. unfold doStart_call. rewrite Hres.
  destruct (negb (truthy b)); [reflexivity|].
  destruct (negb (existsSync h model)); reflexivity.
Qed.

(** A launch, whichever way it is reached, is one call of [_doStart]
    followed by the assignment of [startupPromise]. *)
Lemma launch_step (w : World) (e : Event) (t : nat) (model : string) (o : Options) :
  launches w e t model o ->
  exists w1,
    step h w e = Some w1
    /\ mgr w1 = set_startupPromise (Some (length (doStarts w)))
                  (mgr (doStart_call h model o w).1)
    /\ doStarts w1 = doStarts (doStart_call h model o w).1
    /\ children w1 = children w /\ stops w1 = stops w
    /\ signals w1 = signals w /\ now w1 = now w
    /\ starts w1 !! t = Some (mkStart model o (SAwaitStartup (length (doStarts w)))).
Proof.
  intros Hlaunch.
  assert (Hid : (doStart_call h model o w).2 = length (doStarts w)).
  { unfold doStart_call.
    destruct (resolve_binary h (useCuda_or_false o) (mgr w)) as [[b a] m1].
    destruct (negb (truthy b)); [reflexivity|].
    destruct (negb (existsSync h model)); reflexivity. }
  assert (Hframe : children (doStart_call h model o w).1 = children w
                   /\ stops (doStart_call h model o w).1 = stops w
                   /\ signals (doStart_call h model o w).1 = signals w
                   /\ now (doStart_call h model o w).1 = now w
                   /\ starts (doStart_call h model o w).1 = starts w).
  { unfold doStart_call.
    destruct (resolve_binary h (useCuda_or_false o) (mgr w)) as [[b a] m1].
    destruct (negb (truthy b)); [repeat split|].
    destruct (negb (existsSync h model)); repeat split. }
  destruct Hframe as (Hc & Hs & Hg & Hn & Ht).
  destruct (doStart_call h model o w) as [wd d] eqn:Hcall. cbn [fst snd] in *. subst d.
  destruct Hlaunch as [(-> & -> & Hst & Hready)|(-> & s & Hstart & Hstop)].
  - unfold supervisor_state in Hst. rewrite Hready in Hst.
    destruct (startupPromise (mgr w)) eqn:Hsp; [discriminate|].
    destruct (process (mgr w)) eqn:Hproc; [discriminate|].
    eexists. split.
    { simpl. unfold start_call. rewrite Hsp, Hready, Hproc. cbn [andb].
      unfold start_launch. rewrite Hcall. reflexivity. }
    fields. repeat (split; [reflexivity || assumption|]).
    rewrite Ht. apply list_lookup_middle. reflexivity.
  - eexists. split.
    { simpl. rewrite Hstart. cbn [s_phase]. rewrite Hstop.
      unfold start_after_stop, start_launch. cbn [s_modelPath s_options].
      rewrite Hcall. reflexivity. }
    fields. repeat (split; [reflexivity || assumption|]).
    rewrite list_lookup_alter_eq, Ht, Hstart. reflexivity.
Qed.

(** The caller of a launch whose [_doStart] is settled when it returns. *)
Lemma launch_settled_at_once (w : World) (e : Event) (t : nat) (model : string)
    (o : Options) (op : DoStart) (m : Manager) (r : Result unit) :
  launches w e t model o ->
  doStart_call h model o w
  = (with_doStarts (doStarts w ++ [op]) (with_mgr m w), length (doStarts w)) ->
  d_phase op = DSettled r ->
  exists w1 w2,
    step h w e = Some w1
    /\ (forall bound, step h w1 (PortProbed (length (doStarts w)) bound) = None)
    /\ step h w1 (StartFinally t) = Some w2
    /\ start_outcome w2 t = Some r
    /\ mgr w2 = set_startupPromise None m
    /\ children w2 = children w /\ signals w2 = signals w.
Proof.
  intros Hlaunch Hcall Hph.
  destruct (launch_step w e t model o Hlaunch)
    as (w1 & Hstep1 & Hm1 & Hd1 & Hc1 & _ & Hg1 & _ & Ht1).
  rewrite Hcall in Hm1, Hd1. cbn [fst] in Hm1, Hd1.
  assert (Hop : doStarts w1 !! length (doStarts w) = Some op).
  { rewrite Hd1. fields. apply list_lookup_middle. reflexivity. }
  destruct (start_finally_facts h w1 t _ _ op r Ht1 eq_refl Hop Hph)
    as (w2 & Hstep2 & Hm2 & Hc2 & _ & _ & _ & Hg2 & Hout).
  exists w1, w2. split; [exact Hstep1|].
  split; [intros bound; simpl; rewrite Hop, Hph; reflexivity|].
  split; [exact Hstep2|]. split; [exact Hout|].
  split; [rewrite Hm2, Hm1; reflexivity|]. split; congruence.
Qed.

End StartFailures.

(** X9: a [start] whose model file does not exist (the binary resolves)
    is rejected with "Model file not found: <path>" by the first segment
    of [_doStart]: no port probe is pending afterwards, no child is
    spawned, and [process], [port], [modelPath] are as before.  The
    assignment of [usingCuda] (line 295) precedes the model test, so the
    failed start has already overwritten it with the resolved variant. *)
Theorem X9_start_missing_model_fails_before_port_scan
    (h : Host) (w : World) (e : Event) (t : nat) (model : string) (o : Options)
    (b : option string) (a : bool) (m1 : Manager) :
  launches w e t model o ->
  resolve_binary h (useCuda_or_false o) (mgr w) = (b, a, m1) ->
  truthy b = true -> existsSync h model = false ->
  exists w1 w2,
    step h w e = Some w1
    /\ (forall bound, step h w1 (PortProbed (length (doStarts w)) bound) = None)
    /\ step h w1 (StartFinally t) = Some w2
    /\ start_outcome w2 t = Some (Throw (err_model_not_found model))
    /\ children w2 = children w
    /\ process (mgr w2) = process (mgr w) /\ port (mgr w2) = port (mgr w)
    /\ modelPath (mgr w2) = modelPath (mgr w)
    /\ startupPromise (mgr w2) = None
    /\ usingCuda (mgr w2) = a.
Proof.
  intros Hlaunch Hres Hb Hmodel.
  pose proof (doStart_call_cases h model o w b a m1 Hres) as Hcall.
  rewrite Hb, Hmodel in Hcall. cbn [negb] in Hcall.
  destruct (launch_settled_at_once h w e t model o _ _ _ Hlaunch Hcall eq_refl)
    as (w1 & w2 & Hstep1 & Hnone & Hstep2 & Hout & Hm2 & Hc2 & _).
  pose proof (resolve_binary_caches h (useCuda_or_false o) (mgr w)) as Hcaches.
  rewrite Hres in Hcaches. destruct Hcaches as (Hp & Hport & _ & Hmp & _).
  cbn [snd] in Hp, Hport, Hmp.
  exists w1, w2. rewrite Hm2. fields. auto 12.
Qed.

Lemma X9_missing_model_witness :
  exists w2,
    run Demo.host initial_world
      [CallStart "/models/none.bin" no_options; StartFinally 0] = Some w2
    /\ start_outcome w2 0 = Some (Throw "Model file not found: /models/none.bin")
    /\ children w2 = [].
Proof.
  destruct (X9_start_missing_model_fails_before_port_scan Demo.host initial_world
              (CallStart "/models/none.bin" no_options) 0 "/models/none.bin" no_options
              (Some Demo.cpu_binary) false
              (set_cachedServerBinaryPath (Some Demo.cpu_binary) constructor))
    as (w1 & w2 & Hstep1 & _ & Hstep2 & Hout & Hc & _);
    [left; repeat split; reflexivity | vm_compute; reflexivity
    | reflexivity | reflexivity |].
  exists w2. cbn [run]. rewrite Hstep1, Hstep2. auto.
Defined.

(** X10: a [start] for which no binary resolves is rejected with
    "whisper-server binary not found" by the first segment of [_doStart]:
    nothing is probed or spawned, and [process], [port], [modelPath],
    [ready] and also [usingCuda] keep their values (the throw of line 294
    precedes the assignment of line 295). *)
Theorem X10_start_without_binary_changes_nothing
    (h : Host) (w : World) (e : Event) (t : nat) (model : string) (o : Options)
    (b : option string) (a : bool) (m1 : Manager) :
  launches w e t model o ->
  resolve_binary h (useCuda_or_false o) (mgr w) = (b, a, m1) ->
  truthy b = false ->
  exists w1 w2,
    step h w e = Some w1
    /\ (forall bound, step h w1 (PortProbed (length (doStarts w)) bound) = None)
    /\ step h w1 (StartFinally t) = Some w2
    /\ start_outcome w2 t = Some (Throw err_binary_not_found)
    /\ children w2 = children w
    /\ process (mgr w2) = process (mgr w) /\ port (mgr w2) = port (mgr w)
    /\ modelPath (mgr w2) = modelPath (mgr w) /\ ready (mgr w2) = ready (mgr w)
    /\ usingCuda (mgr w2) = usingCuda (mgr w)
    /\ startupPromise (mgr w2) = None.
Proof.
  intros Hlaunch Hres Hb.
  pose proof (doStart_call_cases h model o w b a m1 Hres) as Hcall.
  rewrite Hb in Hcall. cbn [negb] in Hcall.
  destruct (launch_settled_at_once h w e t model o _ _ _ Hlaunch Hcall eq_refl)
    as (w1 & w2 & Hstep1 & Hnone & Hstep2 & Hout & Hm2 & Hc2 & _).
  pose proof (resolve_binary_caches h (useCuda_or_false o) (mgr w)) as Hcaches.
  rewrite Hres in Hcaches. destruct Hcaches as (Hp & Hport & Hr & Hmp & _ & _ & _ & Hu).
  cbn [snd] in Hp, Hport, Hr, Hmp, Hu.
  exists w1, w2. rewrite Hm2. fields. auto 12.
Qed.

Lemma X10_without_binary_witness :
  exists w2,
    run empty_host initial_world
      [CallStart Demo.model_a Demo.cuda_options; StartFinally 0] = Some w2
    /\ start_outcome w2 0 = Some (Throw "whisper-server binary not found")
    /\ usingCuda (mgr w2) = false.
Proof.
  destruct (X10_start_without_binary_changes_nothing empty_host initial_world
              (CallStart Demo.model_a Demo.cuda_options) 0 Demo.model_a
              Demo.cuda_options None false constructor)
    as (w1 & w2 & Hstep1 & _ & Hstep2 & Hout & _ & _ & _ & _ & _ & Hu & _);
    [left; repeat split; reflexivity | vm_compute; reflexivity | reflexivity |].
  exists w2. cbn [run]. rewrite Hstep1, Hstep2. auto.
Defined.

(** X11: when none of the 22 ports of the range can be bound, [start]
    fails with "No available ports in range 8178-8199" after exactly 22
    probes; no child was spawned and neither [port] nor [modelPath] was
    assigned (line 298 assigns only the value [findAvailablePort]
    returns). *)
Theorem X11_start_with_all_ports_busy_spawns_nothing
    (h : Host) (w : World) (e : Event) (t : nat) (model : string) (o : Options)
    (b : option string) (a : bool) (m1 : Manager) :
  launches w e t model o ->
  resolve_binary h (useCuda_or_false o) (mgr w) = (b, a, m1) ->
  truthy b = true -> existsSync h model = true ->
  exists w',
    run h w ([e] ++ replicate 22 (PortProbed (length (doStarts w)) false)
             ++ [StartFinally t]) = Some w'
    /\ start_outcome w' t = Some (Throw err_no_port)
    /\ children w' = children w
    /\ process (mgr w') = process (mgr w) /\ port (mgr w') = port (mgr w)
    /\ modelPath (mgr w') = modelPath (mgr w)
    /\ startupPromise (mgr w') = None.
Proof.
  intros Hlaunch Hres Hb Hmodel.
  pose proof (doStart_call_cases h model o w b a m1 Hres) as Hcall.
  rewrite Hb, Hmodel in Hcall. cbn [negb] in Hcall.
  destruct (launch_step h w e t model o Hlaunch)
    as (w1 & Hstep1 & Hm1 & Hd1 & Hc1 & _ & _ & _ & Ht1).
  rewrite Hcall in Hm1, Hd1. cbn [fst] in Hm1, Hd1.
  set (d := length (doStarts w)) in *.
  set (op := mkDoStart model o b "" None (DScan PORT_RANGE_START)) in *.
  assert (Hop : doStarts w1 !! d = Some op).
  { rewrite Hd1. fields. apply list_lookup_middle. reflexivity. }
  pose proof (scan_exhausted h w1 d op Hop eq_refl) as Hrun2.
  set (w2 := with_doStarts _ w1) in Hrun2.
  assert (Hop2 : doStarts w2 !! d = Some (set_d_phase (DSettled (Throw err_no_port)) op)).
  { subst w2. fields. apply list_lookup_insert_eq. apply lookup_lt_Some in Hop. exact Hop. }
  assert (Ht2 : starts w2 !! t = Some (mkStart model o (SAwaitStartup d))) by exact Ht1.
  destruct (start_finally_facts h w2 t _ d _ _ Ht2 eq_refl Hop2 eq_refl)
    as (w3 & Hstep3 & Hm3 & Hc3 & _ & _ & _ & _ & Hout).
  pose proof (resolve_binary_caches h (useCuda_or_false o) (mgr w)) as Hcaches.
  rewrite Hres in Hcaches. destruct Hcaches as (Hp & Hport & _ & Hmp & _).
  cbn [snd] in Hp, Hport, Hmp.
  exists w3. split.
  { rewrite run_app. cbn [run]. rewrite Hstep1. cbn [mbind option_bind].
    rewrite run_app, Hrun2. cbn [mbind option_bind run]. rewrite Hstep3. reflexivity. }
  split; [exact Hout|]. rewrite Hm3, Hc3.
  change (mgr w2) with (mgr w1). change (children w2) with (children w1).
  rewrite Hm1, Hc1. fields. auto 8.
Qed.

Lemma X11_all_ports_busy_witness :
  exists w',
    run Demo.host initial_world
      ([CallStart Demo.model_a no_options] ++ replicate 22 (PortProbed 0 false)
       ++ [StartFinally 0]) = Some w'
    /\ start_outcome w' 0 = Some (Throw "No available ports in range 8178-8199")
    /\ children w' = [] /\ port (mgr w') = None.
Proof.
  destruct (X11_start_with_all_ports_busy_spawns_nothing Demo.host initial_world
              (CallStart Demo.model_a no_options) 0 Demo.model_a no_options
              (Some Demo.cpu_binary) false
              (set_cachedServerBinaryPath (Some Demo.cpu_binary) constructor))
    as (w' & Hrun & Hout & Hc & _ & Hport & _);
    [left; repeat split; reflexivity | vm_compute; reflexivity
    | reflexivity | reflexivity |].
  exists w'. auto.
Defined.

(** ** The child exits while [_doStart] waits for readiness *)

Section ChildExit.
Variable h : Host.

(** The "close" handler of lines 358-364, for any child that has not
    closed yet. *)
Lemma child_close_step (w : World) (c : nat) (ch : Child) (code : option Z) :
  children w !! c = Some ch -> c_closed ch = false ->
  exists w',
    step h w (ChildClose c code) = Some w'
    /\ mgr w' = stopHealthCheck (set_process None (set_ready false (mgr w)))
    /\ doStarts w' = alter (set_d_exitCode code) (c_owner ch) (doStarts w)
    /\ starts w' = starts w /\ signals w' = signals w /\ now w' = now w
    /\ length (children w') = length (children w).
Proof.
  intros Hch Hopen. exists (child_close c ch code w).
  split; [simpl; rewrite Hch, Hopen; reflexivity|].
  unfold child_close.
  set (w2 := with_mgr _ _).
  destruct (close_listeners_frame (c_onceClose ch) w2) as (Hm & Hc & Hd & Ht & Hg & Hn).
  fields. rewrite Hm, Hd, Ht, Hg, Hn, length_alter, Hc. subst w2. fields.
  repeat split.
Qed.

Lemma closed_manager_fields (m : Manager) :
  let m' := stopHealthCheck (set_process None (set_ready false m)) in
  process m' = None /\ ready m' = false /\ healthCheckInterval m' = None
  /\ port m' = port m /\ modelPath m' = modelPath m
  /\ startupPromise m' = startupPromise m /\ usingCuda m' = usingCuda m.
Proof.
  destruct (stopHealthCheck_fields (set_process None (set_ready false m)))
    as (Hp & Hport & Hr & Hm & Hs & _ & Hu & Hh).
  cbv zeta. rewrite Hp, Hport, Hr, Hm, Hs, Hu, Hh. repeat split.
Qed.

End ChildExit.

(** X12: the child of a start exits while [waitForReady] sleeps between
    two probes, within the startup window.  The "close" handler records
    the exit code and drops the handle; when the poll timer fires, the
    loop finds no process and [_doStart] is rejected with "whisper-server
    process died during startup", followed by the details computed from
    the stderr text and the exit code the handler recorded.  The port and
    the model path assigned at lines 298-299 stay set. *)
Theorem X12_child_exit_during_startup_rejects_start
    (h : Host) (w : World) (d : nat) (op : DoStart) (st : Z) (pc : nat) (wake : Z)
    (c : nat) (ch : Child) (code : option Z) :
  doStarts w !! d = Some op -> d_phase op = DSleep st pc wake ->
  children w !! c = Some ch -> c_closed ch = false -> c_owner ch = d ->
  wake <= now w -> now w - st < STARTUP_TIMEOUT_MS ->
  exists w',
    run h w [ChildClose c code; PollTimer d] = Some w'
    /\ d_phase <$> doStarts w' !! d
       = Some (DSettled (Throw (err_died (died_details (set_d_exitCode code op)))))
    /\ process (mgr w') = None /\ ready (mgr w') = false
    /\ healthCheckInterval (mgr w') = None
    /\ port (mgr w') = port (mgr w) /\ modelPath (mgr w') = modelPath (mgr w).
Proof.
  intros Hd Hph Hch Hopen Hown Hwake Hlt.
  destruct (child_close_step h w c ch code Hch Hopen)
    as (w1 & Hstep1 & Hm1 & Hd1 & _ & _ & Hn1 & _).
  destruct (closed_manager_fields (mgr w)) as (Hp & Hr & Hh & Hport & Hmp & _).
  cbv zeta in Hp, Hr, Hh, Hport, Hmp. rewrite <- Hm1 in Hp, Hr, Hh, Hport, Hmp.
  assert (Hop1 : doStarts w1 !! d = Some (set_d_exitCode code op)).
  { rewrite Hd1, Hown, list_lookup_alter_eq, Hd. reflexivity. }
  destruct (poll_timer_facts h w1 d _ st pc wake Hop1 Hph)
    as (w2 & Hstep2 & Hm2 & _ & _ & _ & _ & _ & Hd2); [rewrite Hn1; exact Hwake|].
  rewrite (waitForReady_loop_died st pc _ w1) in Hd2;
    [| rewrite Hn1; exact Hlt | unfold process_gone; rewrite Hp; reflexivity].
  exists w2. split; [cbn [run]; rewrite Hstep1, Hstep2; reflexivity|].
  split; [rewrite Hd2; reflexivity|]. rewrite Hm2. auto 8.
Qed.

(** The world in which the first readiness probe of a start failed and
    the poll timer became due. *)
Definition sleeping_world : World :=
  Eval vm_compute in
    default initial_world
      (run Demo.host initial_world
         [CallStart Demo.model_a no_options; PortProbed 0 true;
          StartupProbed 0 false; Advance 100]).

Lemma X12_child_exit_witness :
  exists w',
    run Demo.host sleeping_world [ChildClose 0 (Some 1); PollTimer 0] = Some w'
    /\ d_phase <$> doStarts w' !! 0%nat
       = Some (DSettled
                 (Throw "whisper-server process died during startup: exit code: 1")).
Proof.
  destruct (X12_child_exit_during_startup_rejects_start Demo.host sleeping_world 0
              (mkDoStart Demo.model_a no_options (Some Demo.cpu_binary) "" None
                 (DSleep 0 1 100))
              0 1 100 0
              (mkChild Demo.cpu_binary
                 ["--model"; Demo.model_a; "--host"; "127.0.0.1"; "--port"; "8178"]
                 "/app/resources/bin:/usr/bin" "/app/resources/bin" 0 false false [])
              (Some 1))
    as (w' & Hrun & Hph & _).
  - reflexivity.
  - reflexivity.
  - reflexivity.
  - reflexivity.
  - reflexivity.
  - vm_compute. discriminate.
  - reflexivity.
  - exists w'. split; [exact Hrun | exact Hph].
Defined.

(** ** The details of a failed startup *)

(** *** Code units and bytes *)

Ltac euclid := zify; Z.to_euclidean_division_equations; lia.

(* Settle the range tests of the goal from bounds in the context. *)
Ltac tests :=
  repeat match goal with
         | |- context [(?a <? ?b)%N] =>
             first [ rewrite (proj2 (N.ltb_lt a b)) by lia
                   | rewrite (proj2 (N.ltb_ge a b)) by lia ]
         | |- context [(?a <=? ?b)%N] =>
             first [ rewrite (proj2 (N.leb_le a b)) by lia
                   | rewrite (proj2 (N.leb_gt a b)) by lia ]
         end; cbn [andb].

Lemma utf8_decode_step (b0 : N) (r0 : list N) :
  utf8_decode (b0 :: r0)
  = if (b0 <? 0x80)%N then b0 :: utf8_decode r0
    else if ((0xC0 <=? b0) && (b0 <? 0xE0))%N then
      match r0 with
      | b1 :: r1 =>
          if is_continuation b1
          then ((b0 mod 0x20) * 0x40 + b1 mod 0x40)%N :: utf8_decode r1
          else 0xFFFD%N :: utf8_decode r0
      | [] => [0xFFFD%N]
      end
    else if ((0xE0 <=? b0) && (b0 <? 0xF0))%N then
      match r0 with
      | b1 :: b2 :: r2 =>
          if is_continuation b1 && is_continuation b2
          then ((b0 mod 0x10) * 0x1000 + (b1 mod 0x40) * 0x40 + b2 mod 0x40)%N
               :: utf8_decode r2
          else 0xFFFD%N :: utf8_decode r0
      | _ => 0xFFFD%N :: utf8_decode r0
      end
    else if ((0xF0 <=? b0) && (b0 <? 0xF8))%N then
      match r0 with
      | b1 :: b2 :: b3 :: r3 =>
          if is_continuation b1 && is_continuation b2 && is_continuation b3
          then units_of_point ((b0 mod 0x08) * 0x40000 + (b1 mod 0x40) * 0x1000
                               + (b2 mod 0x40) * 0x40 + b3 mod 0x40)%N
               ++ utf8_decode r3
          else 0xFFFD%N :: utf8_decode r0
      | _ => 0xFFFD%N :: utf8_decode r0
      end
    else 0xFFFD%N :: utf8_decode r0.
Proof. destruct r0; reflexivity. Qed.

Lemma utf8_decode_bytes (cp : N) (r : list N) :
  (cp < 0x110000)%N ->
  utf8_decode (utf8_bytes cp ++ r) = units_of_point cp ++ utf8_decode r.
Proof.
  intros Hcp. unfold utf8_bytes, units_of_point.
  destruct (N.ltb_spec cp 0x80) as [H1|H1].
  { rewrite (proj2 (N.ltb_lt cp 0x10000)) by lia. cbn [app].
    rewrite utf8_decode_step, (proj2 (N.ltb_lt cp 0x80)) by lia. reflexivity. }
  destruct (N.ltb_spec cp 0x800) as [H2|H2].
  { rewrite (proj2 (N.ltb_lt cp 0x10000)) by lia.
    assert (Hq : (cp / 0x40 < 0x20)%N) by euclid.
    assert (Hr : (cp mod 0x40 < 0x40)%N) by euclid.
    assert (Heq : ((0xC0 + cp / 0x40) mod 0x20 * 0x40 + (0x80 + cp mod 0x40) mod 0x40
                   = cp)%N) by euclid.
    cbn [app]. rewrite utf8_decode_step. unfold is_continuation.
    revert Hq Hr Heq. generalize (cp / 0x40)%N (cp mod 0x40)%N.
    intros q m Hq Hr Heq. tests. rewrite Heq. reflexivity. }
  destruct (N.ltb_spec cp 0x10000) as [H3|H3].
  { assert (Hq : (cp / 0x1000 < 0x10)%N) by euclid.
    assert (Hr1 : ((cp / 0x40) mod 0x40 < 0x40)%N) by euclid.
    assert (Hr2 : (cp mod 0x40 < 0x40)%N) by euclid.
    assert (Heq : ((0xE0 + cp / 0x1000) mod 0x10 * 0x1000
                   + (0x80 + (cp / 0x40) mod 0x40) mod 0x40 * 0x40
                   + (0x80 + cp mod 0x40) mod 0x40 = cp)%N) by euclid.
    cbn [app]. rewrite utf8_decode_step. unfold is_continuation.
    revert Hq Hr1 Hr2 Heq.
    generalize (cp / 0x1000)%N ((cp / 0x40) mod 0x40)%N (cp mod 0x40)%N.
    intros q m1 m2 Hq Hr1 Hr2 Heq. tests. rewrite Heq. reflexivity. }
  assert (Hq : (cp / 0x40000 < 0x08)%N) by euclid.
  assert (Hr1 : ((cp / 0x1000) mod 0x40 < 0x40)%N) by euclid.
  assert (Hr2 : ((cp / 0x40) mod 0x40 < 0x40)%N) by euclid.
  assert (Hr3 : (cp mod 0x40 < 0x40)%N) by euclid.
  assert (Heq : ((0xF0 + cp / 0x40000) mod 0x08 * 0x40000
                 + (0x80 + (cp / 0x1000) mod 0x40) mod 0x40 * 0x1000
                 + (0x80 + (cp / 0x40) mod 0x40) mod 0x40 * 0x40
                 + (0x80 + cp mod 0x40) mod 0x40 = cp)%N) by euclid.
  cbn [app]. rewrite utf8_decode_step. unfold is_continuation.
  revert Hq Hr1 Hr2 Hr3 Heq.
  generalize (cp / 0x40000)%N ((cp / 0x1000) mod 0x40)%N ((cp / 0x40) mod 0x40)%N
    (cp mod 0x40)%N.
  intros q m1 m2 m3 Hq Hr1 Hr2 Hr3 Heq. tests. rewrite Heq.
  unfold units_of_point. rewrite (proj2 (N.ltb_ge cp 0x10000)) by lia. reflexivity.
Qed.

Lemma units_of_pair (u l : N) :
  is_high u = true -> is_low l = true ->
  (0x10000 + (u - 0xD800) * 0x400 + (l - 0xDC00) < 0x110000)%N
  /\ units_of_point (0x10000 + (u - 0xD800) * 0x400 + (l - 0xDC00))%N = [u; l].
Proof.
  unfold is_high, is_low. intros Hu Hl.
  apply andb_true_iff in Hu, Hl. destruct Hu as [Hu1 Hu2], Hl as [Hl1 Hl2].
  apply N.leb_le in Hu1, Hl1. apply N.ltb_lt in Hu2, Hl2.
  split; [lia|]. unfold units_of_point.
  rewrite (proj2 (N.ltb_ge _ 0x10000)) by lia. f_equal; [|f_equal]; euclid.
Qed.

(** Decoding what was encoded gives the code units back. *)
Lemma utf8_decode_encode (us : list N) :
  Forall (fun u => (u < 0x10000)%N) us -> utf8_decode (utf8_encode us) = us.
Proof.
  remember (length us) as n eqn:Hn. revert us Hn.
  induction n as [n IH] using lt_wf_ind. intros us Hn Hall.
  destruct us as [|u rest]; [reflexivity|].
  apply Forall_cons in Hall. destruct Hall as [Hu Hrest].
  assert (Hone : utf8_decode (utf8_bytes u ++ utf8_encode rest) = u :: rest).
  { rewrite utf8_decode_bytes by lia. unfold units_of_point.
    rewrite (proj2 (N.ltb_lt u 0x10000)) by lia. cbn [app]. f_equal.
    apply (IH (length rest)); [simpl in Hn; lia | reflexivity | exact Hrest]. }
  destruct rest as [|l rest'].
  { cbn [utf8_encode]. rewrite <- (app_nil_r (utf8_bytes u)). exact Hone. }
  change (utf8_encode (u :: l :: rest'))
    with (if is_high u && is_low l
          then utf8_bytes (0x10000 + (u - 0xD800) * 0x400 + (l - 0xDC00))%N
               ++ utf8_encode rest'
          else utf8_bytes u ++ utf8_encode (l :: rest')).
  destruct (is_high u && is_low l) eqn:Hpair; [|exact Hone].
  apply andb_true_iff in Hpair. destruct Hpair as [Hh Hl].
  destruct (units_of_pair u l Hh Hl) as [Hlt Hunits].
  rewrite utf8_decode_bytes by exact Hlt. rewrite Hunits. cbn [app]. do 2 f_equal.
  apply Forall_cons in Hrest. destruct Hrest as [_ Hrest'].
  apply (IH (length rest')); [simpl in Hn; lia | reflexivity | exact Hrest'].
Qed.

Lemma utf8_bytes_range (cp : N) :
  (cp < 0x110000)%N -> Forall (fun b => (b < 256)%N) (utf8_bytes cp).
Proof.
  intros Hcp. unfold utf8_bytes.
  destruct (N.ltb_spec cp 0x80); [repeat constructor; lia|].
  destruct (N.ltb_spec cp 0x800); [repeat constructor; euclid|].
  destruct (N.ltb_spec cp 0x10000); repeat constructor; euclid.
Qed.

Lemma utf8_encode_range (us : list N) :
  Forall (fun u => (u < 0x10000)%N) us ->
  Forall (fun b => (b < 256)%N) (utf8_encode us).
Proof.
  remember (length us) as n eqn:Hn. revert us Hn.
  induction n as [n IH] using lt_wf_ind. intros us Hn Hall.
  destruct us as [|u rest]; [constructor|].
  apply Forall_cons in Hall. destruct Hall as [Hu Hrest].
  destruct rest as [|l rest'].
  { cbn [utf8_encode]. apply utf8_bytes_range. lia. }
  change (utf8_encode (u :: l :: rest'))
    with (if is_high u && is_low l
          then utf8_bytes (0x10000 + (u - 0xD800) * 0x400 + (l - 0xDC00))%N
               ++ utf8_encode rest'
          else utf8_bytes u ++ utf8_encode (l :: rest')).
  destruct (is_high u && is_low l) eqn:Hpair.
  - apply andb_true_iff in Hpair. destruct Hpair as [Hh Hl].
    destruct (units_of_pair u l Hh Hl) as [Hlt _].
    apply Forall_app. split; [apply utf8_bytes_range; exact Hlt|].
    apply Forall_cons in Hrest. destruct Hrest as [_ Hrest'].
    apply (IH (length rest')); [simpl in Hn; lia | reflexivity | exact Hrest'].
  - apply Forall_app. split; [apply utf8_bytes_range; lia|].
    apply (IH (length (l :: rest'))); [simpl in *; lia | reflexivity | exact Hrest].
Qed.

Lemma bytes_of_ascii (bs : list N) :
  Forall (fun b => (b < 256)%N) bs ->
  N_of_ascii <$> list_ascii_of_string (string_of_list_ascii (ascii_of_N <$> bs)) = bs.
Proof.
  intros Hall. rewrite list_ascii_of_string_of_list_ascii.
  induction Hall as [|b bs Hb _ IH]; [reflexivity|].
  cbn [fmap list_fmap]. f_equal; [apply N_ascii_embedding; exact Hb | exact IH].
Qed.

(** The code units of a string built from code units. *)
Lemma js_units_string (us : list N) :
  Forall (fun u => (u < 0x10000)%N) us -> js_units (js_string us) = us.
Proof.
  intros Hall. unfold js_units, js_string.
  rewrite (bytes_of_ascii _ (utf8_encode_range us Hall)).
  apply utf8_decode_encode, Hall.
Qed.

Lemma units_of_point_range (cp : N) :
  (cp < 0x200000)%N -> Forall (fun u => (u < 0x10000)%N) (units_of_point cp).
Proof.
  intros Hcp. unfold units_of_point.
  destruct (N.ltb_spec cp 0x10000); repeat constructor; euclid.
Qed.

(** Every code unit of a decoded text is below 2^16. *)
Lemma utf8_decode_range (bs : list N) :
  Forall (fun u => (u < 0x10000)%N) (utf8_decode bs).
Proof.
  remember (length bs) as n eqn:Hn. revert bs Hn.
  induction n as [n IH] using lt_wf_ind. intros bs Hn.
  assert (Hrec : forall r, (length r < n)%nat ->
                           Forall (fun u => (u < 0x10000)%N) (utf8_decode r)).
  { intros r Hr. exact (IH (length r) Hr r eq_refl). }
  destruct bs as [|b0 r0]; [constructor|]. cbn [length] in Hn.
  assert (Hbad : Forall (fun u => (u < 0x10000)%N) (0xFFFD%N :: utf8_decode r0)).
  { constructor; [lia | apply Hrec; lia]. }
  rewrite utf8_decode_step.
  destruct (N.ltb_spec b0 0x80); [constructor; [lia | apply Hrec; lia]|].
  destruct ((0xC0 <=? b0)%N && (b0 <? 0xE0)%N) eqn:H2.
  { destruct r0 as [|b1 r1]; [repeat constructor; lia|].
    destruct (is_continuation b1); [|exact Hbad].
    constructor; [euclid | apply Hrec; simpl in *; lia]. }
  destruct ((0xE0 <=? b0)%N && (b0 <? 0xF0)%N) eqn:H3.
  { destruct r0 as [|b1 [|b2 r2]]; try exact Hbad.
    destruct (is_continuation b1 && is_continuation b2); [|exact Hbad].
    constructor; [euclid | apply Hrec; simpl in *; lia]. }
  destruct ((0xF0 <=? b0)%N && (b0 <? 0xF8)%N) eqn:H4; [|exact Hbad].
  destruct r0 as [|b1 [|b2 [|b3 r3]]]; try exact Hbad.
  destruct (is_continuation b1 && is_continuation b2 && is_continuation b3);
    [|exact Hbad].
  apply Forall_app. split; [apply units_of_point_range; euclid|].
  apply Hrec. simpl in *. lia.
Qed.

Lemma js_units_range (s : string) :
  Forall (fun u => (u < 0x10000)%N) (js_units s).
Proof. apply utf8_decode_range. Qed.

Lemma utf8_bytes_nonempty (cp : N) : utf8_bytes cp <> [].
Proof.
  unfold utf8_bytes. destruct (cp <? 0x80)%N; [discriminate|].
  destruct (cp <? 0x800)%N; [discriminate|].
  destruct (cp <? 0x10000)%N; discriminate.
Qed.

Lemma js_string_empty (us : list N) : js_string us = "" -> us = [].
Proof.
  destruct us as [|u rest]; [reflexivity|]. unfold js_string. intros Hempty.
  assert (Hbytes : utf8_encode (u :: rest) <> []).
  { pose proof (utf8_bytes_nonempty u) as Hu.
    destruct rest as [|l rest']; [exact Hu|].
    change (utf8_encode (u :: l :: rest'))
      with (if is_high u && is_low l
            then utf8_bytes (0x10000 + (u - 0xD800) * 0x400 + (l - 0xDC00))%N
                 ++ utf8_encode rest'
            else utf8_bytes u ++ utf8_encode (l :: rest')).
    destruct (is_high u && is_low l); intros Habs; apply app_eq_nil in Habs;
      destruct Habs as [Habs _]; exact (utf8_bytes_nonempty _ Habs). }
  destruct (utf8_encode (u :: rest)); [contradiction | discriminate Hempty].
Qed.

(** *** What trim removes *)

Definition blank (us : list N) : Prop := Forall (fun u => is_white_space u = true) us.

(** A text that neither begins nor ends with white space. *)
Definition trimmed (us : list N) : Prop :=
  (forall u, head us = Some u -> is_white_space u = false)
  /\ (forall u, last us = Some u -> is_white_space u = false).

Lemma trim_start_spec (us : list N) :
  exists pre, us = pre ++ trim_start us /\ blank pre
              /\ (forall u, head (trim_start us) = Some u -> is_white_space u = false).
Proof.
  induction us as [|u r (pre & Hr & Hblank & Hhead)].
  - exists []. split; [reflexivity|]. split; [constructor | discriminate].
  - cbn [trim_start]. destruct (is_white_space u) eqn:Hu.
    + exists (u :: pre). split; [cbn [app]; f_equal; exact Hr|].
      split; [constructor; assumption | exact Hhead].
    + exists []. split; [reflexivity|]. split; [constructor|].
      intros v [= <-]. exact Hu.
Qed.

Lemma trim_end_spec (us : list N) :
  exists post, us = trim_end us ++ post /\ blank post
               /\ (forall u, last (trim_end us) = Some u -> is_white_space u = false)
               /\ (trim_end us = [] \/ head (trim_end us) = head us).
Proof.
  induction us as [|u r (post & Hr & Hblank & Hlast & Hhead)].
  - exists []. split; [reflexivity|]. split; [constructor|].
    split; [discriminate | left; reflexivity].
  - cbn [trim_end]. destruct (trim_end r) as [|v r'] eqn:Hte.
    + destruct (is_white_space u) eqn:Hu.
      * exists (u :: post). split; [cbn [app]; f_equal; exact Hr|].
        split; [constructor; assumption|]. split; [discriminate | left; reflexivity].
      * exists post. split; [cbn [app]; f_equal; exact Hr|].
        split; [exact Hblank|]. split; [intros w [= <-]; exact Hu | right; reflexivity].
    + exists post. split; [cbn [app]; f_equal; exact Hr|].
      split; [exact Hblank|]. split; [|right; reflexivity].
      intros w Hw. apply Hlast. rewrite <- Hw. reflexivity.
Qed.

(** [trim] takes white space off both ends and nothing else. *)
Lemma trim_spec (us : list N) :
  exists pre post, us = pre ++ trim us ++ post /\ blank pre /\ blank post
                   /\ trimmed (trim us).
Proof.
  unfold trim.
  destruct (trim_start_spec us) as (pre & Hpre & Hblank & Hhead).
  destruct (trim_end_spec (trim_start us)) as (post & Hpost & Hblank' & Hlast & Hsame).
  exists pre, post. split; [rewrite <- Hpost; exact Hpre|].
  split; [exact Hblank|]. split; [exact Hblank'|]. split; [|exact Hlast].
  destruct Hsame as [-> | ->]; [discriminate | exact Hhead].
Qed.

Lemma take_nonempty {A} (n : nat) (l : list A) :
  (0 < n)%nat -> l <> [] -> take n l <> [].
Proof.
  destruct n as [|n]; [lia|]. destruct l as [|x l]; [contradiction | discriminate].
Qed.

(** The message for an exit code, or nothing. *)
Definition exit_code_details (op : DoStart) : string :=
  match d_exitCode op with
  | Some code => "exit code: " +:+ string_of_Z code
  | None => ""
  end.

(** X13: the details appended to "died during startup" (lines 385-387).
    The collected stderr text, as a sequence of UTF-16 code units, is
    white space, then a text that neither begins nor ends with white
    space, then white space.  When that text is not empty, the details
    are its first 200 code units and the exit code is not mentioned; when
    it is empty (stderr empty or blank), the details are "exit code: n"
    for a recorded exit code [n], and empty when none was recorded (the
    handle was dropped by something other than the child's exit). *)
Theorem X13_died_details_stderr_before_exit_code (op : DoStart) :
  exists pre text post,
    js_units (d_stderrBuffer op) = pre ++ text ++ post
    /\ blank pre /\ blank post /\ trimmed text
    /\ ((text = [] /\ died_details op = exit_code_details op)
        \/ (text <> []
            /\ died_details op = js_string (take 200 text)
            /\ js_units (died_details op) = take 200 text
            /\ (length (js_units (died_details op)) <= 200)%nat)).
Proof.
  destruct (trim_spec (js_units (d_stderrBuffer op)))
    as (pre & post & Hsplit & Hpre & Hpost & Htrimmed).
  exists pre, (trim (js_units (d_stderrBuffer op))), post.
  split; [exact Hsplit|]. split; [exact Hpre|]. split; [exact Hpost|].
  split; [exact Htrimmed|].
  unfold died_details. fold (exit_code_details op).
  destruct (String.eqb (d_stderrBuffer op) "") eqn:Hraw.
  { apply String.eqb_eq in Hraw. rewrite Hraw. left. split; reflexivity. }
  unfold slice0.
  destruct (trim (js_units (d_stderrBuffer op))) as [|u text] eqn:Htext.
  { left. split; reflexivity. }
  right. split; [discriminate|].
  assert (Hne : js_string (take 200 (u :: text)) <> "").
  { intros Hempty. apply js_string_empty in Hempty.
    exact (take_nonempty 200 (u :: text) ltac:(lia) ltac:(discriminate) Hempty). }
  assert (Hor : str_or (js_string (take 200 (u :: text))) (exit_code_details op)
                = js_string (take 200 (u :: text))).
  { unfold str_or. destruct (String.eqb (js_string (take 200 (u :: text))) "") eqn:He;
      [|reflexivity].
    apply String.eqb_eq in He. contradiction. }
  rewrite Hor. split; [reflexivity|].
  assert (Hunits : js_units (js_string (take 200 (u :: text))) = take 200 (u :: text)).
  { apply js_units_string.
    pose proof (js_units_range (d_stderrBuffer op)) as Hrange.
    rewrite Hsplit in Hrange.
    apply Forall_app in Hrange. destruct Hrange as [_ Hrange].
    apply Forall_app in Hrange. destruct Hrange as [Hrange _].
    apply Forall_take. exact Hrange. }
  split; [exact Hunits|]. rewrite Hunits, length_take. lia.
Qed.

(** A stderr of one no-break space, with exit code 3: the details are
    the exit code.  150 letters of two bytes each stay 150 letters. *)
Example died_details_of_blank_stderr :
  died_details
    (mkDoStart "" no_options None
       (String (ascii_of_N 0xC2) (String (ascii_of_N 0xA0) "")) (Some 3) (DScan 0))
  = "exit code: 3".
Proof. vm_compute. reflexivity. Qed.

Example died_details_counts_code_units :
  let text := string_of_list_ascii
                (concat (replicate 150 [ascii_of_N 0xC3; ascii_of_N 0xA9])) in
  died_details (mkDoStart "" no_options None text (Some 3) (DScan 0)) = text.
Proof. vm_compute. reflexivity. Qed.

(** ** Where readiness and the monitoring timer come from *)

(** [m'] is ready only if [m] was, and holds a timer only if [m] held
    the same one. *)
Definition monitoring_kept (m m' : Manager) : Prop :=
  (ready m' = true -> ready m = true)
  /\ (forall i, healthCheckInterval m' = Some i -> healthCheckInterval m = Some i).

Lemma monitoring_kept_refl (m : Manager) : monitoring_kept m m.
Proof. split; auto. Qed.

Lemma monitoring_kept_trans (m1 m2 m3 : Manager) :
  monitoring_kept m1 m2 -> monitoring_kept m2 m3 -> monitoring_kept m1 m3.
Proof. intros [H1 H2] [H3 H4]. split; auto. Qed.

Lemma monitoring_kept_of_caches (m m' : Manager) :
  same_but_caches m m' -> monitoring_kept m m'.
Proof.
  intros (_ & _ & Hr & _ & _ & Hh & _). split.
  - rewrite Hr. auto.
  - intros i. rewrite Hh. auto.
Qed.

Lemma monitoring_kept_stopHealthCheck (m : Manager) :
  monitoring_kept m (stopHealthCheck m).
Proof.
  destruct (stopHealthCheck_fields m) as (_ & _ & Hr & _ & _ & _ & _ & Hh). split.
  - rewrite Hr. auto.
  - intros i. rewrite Hh. discriminate.
Qed.

Lemma monitoring_kept_unready (m m' : Manager) :
  ready m' = false -> healthCheckInterval m' = healthCheckInterval m ->
  monitoring_kept m m'.
Proof.
  intros Hr Hh. split.
  - rewrite Hr. discriminate.
  - intros i. rewrite Hh. auto.
Qed.

(** The event is the successful answer of a readiness probe of
    [waitForReady]. *)
Definition startup_success (e : Event) : bool :=
  match e with
  | StartupProbed _ true => true
  | _ => false
  end.

Section MonitoringSource.
Variable h : Host.

Lemma stop_call_monitoring (w : World) :
  monitoring_kept (mgr w) (mgr (stop_call h w).1).
Proof.
  unfold stop_call.
  pose proof (monitoring_kept_stopHealthCheck (mgr w)) as Hk.
  destruct (process (stopHealthCheck (mgr w))) as [c|].
  - destruct (killProcess h c SIGTERM).
    + unfold signalled. fields. exact Hk.
    + fields. eapply monitoring_kept_trans; [exact Hk|].
      apply monitoring_kept_unready; reflexivity.
  - fields. eapply monitoring_kept_trans; [exact Hk|].
    apply monitoring_kept_unready; reflexivity.
Qed.

Lemma doStart_call_monitoring (model : string) (o : Options) (w : World) :
  monitoring_kept (mgr w) (mgr (doStart_call h model o w).1).
Proof.
  unfold doStart_call.
  pose proof (resolve_binary_caches h (useCuda_or_false o) (mgr w)) as Hc.
  destruct (resolve_binary h (useCuda_or_false o) (mgr w)) as [[b a] m1].
  cbn [snd] in Hc. apply monitoring_kept_of_caches in Hc.
  destruct (negb (truthy b)); [exact Hc|].
  destruct (negb (existsSync h model)); exact Hc.
Qed.

Lemma start_launch_monitoring (model : string) (o : Options) (w : World) :
  monitoring_kept (mgr w) (mgr (start_launch h model o w).1).
Proof.
  unfold start_launch. pose proof (doStart_call_monitoring model o w) as Hk.
  destruct (doStart_call h model o w) as [w1 d]. exact Hk.
Qed.

Lemma start_call_monitoring (model : string) (o : Options) (w : World) :
  monitoring_kept (mgr w) (mgr (start_call h model o w)).
Proof.
  unfold start_call. destruct (startupPromise (mgr w)); [apply monitoring_kept_refl|].
  destruct (_ && _); [apply monitoring_kept_refl|].
  destruct (process (mgr w)).
  - pose proof (stop_call_monitoring w) as Hk.
    destruct (stop_call h w) as [w1 s]. exact Hk.
  - pose proof (start_launch_monitoring model o w) as Hk.
    destruct (start_launch h model o w) as [w1 ph]. exact Hk.
Qed.

(** No step other than the successful answer of a readiness probe makes
    the manager ready or arms the monitoring timer. *)
Lemma step_monitoring_kept (w w' : World) (e : Event) :
  step h w e = Some w' -> startup_success e = false ->
  monitoring_kept (mgr w) (mgr w').
Proof.
  intros Hstep Hne. destruct e; simpl in Hstep.
  - injection Hstep as <-. apply start_call_monitoring.
  - injection Hstep as <-. apply stop_call_monitoring.
  - injection Hstep as <-. fields.
    destruct (getStatus_fields h (mgr w)) as (_ & _ & _ & _ & _ & Hc).
    apply monitoring_kept_of_caches, Hc.
  - destruct (doStarts w !! d) as [op|] eqn:Hd; [|discriminate].
    destruct (d_phase op); try discriminate. injection Hstep as <-.
    unfold doStart_probed. destruct bound; [|apply monitoring_kept_refl].
    rewrite (doStart_spawn_eq h w d op port0 Hd). fields.
    destruct (spawned_manager_fields h op port0 (length (children w)) (mgr w))
      as (_ & _ & _ & Hr & _ & _ & Hh).
    split; [rewrite Hr; auto | intros i; rewrite Hh; auto].
  - destruct (doStarts w !! d) as [op|]; [|discriminate].
    destruct (d_phase op); try discriminate. injection Hstep as <-.
    destruct ok; [discriminate Hne|]. apply monitoring_kept_refl.
  - destruct (doStarts w !! d) as [op|]; [|discriminate].
    destruct (d_phase op); try discriminate.
    destruct (_ <=? _); [|discriminate]. injection Hstep as <-.
    apply monitoring_kept_refl.
  - destruct (children w !! c) as [ch|] eqn:Hch; [|discriminate].
    destruct (c_closed ch) eqn:Hopen; [discriminate|].
    destruct (child_close_step h w c ch code Hch Hopen) as (w1 & Hstep1 & Hm1 & _).
    simpl in Hstep1. rewrite Hch, Hopen in Hstep1. rewrite Hstep1 in Hstep.
    injection Hstep as <-. rewrite Hm1.
    destruct (closed_manager_fields (mgr w)) as (_ & Hr & Hh & _).
    cbv zeta in Hr, Hh. split; [rewrite Hr | intros i; rewrite Hh]; discriminate.
  - destruct (children w !! c); [|discriminate]. injection Hstep as <-.
    apply monitoring_kept_unready; reflexivity.
  - destruct (children w !! c) as [ch|]; [|discriminate].
    destruct (c_closed ch); [discriminate|]. injection Hstep as <-.
    apply monitoring_kept_refl.
  - destruct (stops w !! s) as [[c [deadline|]| |]|]; try discriminate.
    destruct (_ <=? _); [|discriminate]. injection Hstep as <-.
    unfold stop_timeout. destruct (process (mgr w)) as [c'|].
    + destruct (killProcess h c' SIGKILL); unfold signalled; fields;
        apply monitoring_kept_refl.
    + apply monitoring_kept_refl.
  - destruct (stops w !! s) as [[| |]|]; try discriminate. injection Hstep as <-.
    apply monitoring_kept_unready; reflexivity.
  - destruct (starts w !! t) as [a|]; [|discriminate].
    destruct (s_phase a); try discriminate.
    destruct (stops w !! s) as [[| |]|]; try discriminate. injection Hstep as <-.
    unfold start_after_stop.
    pose proof (start_launch_monitoring (s_modelPath a) (s_options a) w) as Hk.
    destruct (start_launch h _ _ w) as [w1 ph]. exact Hk.
  - destruct (starts w !! t) as [a|]; [|discriminate].
    destruct (s_phase a); try discriminate.
    destruct (d_phase <$> doStarts w !! d) as [[| | |r]|]; try discriminate.
    injection Hstep as <-. split; auto.
  - destruct (healthCheckInterval (mgr w)) eqn:Hh; [|discriminate].
    injection Hstep as <-. unfold healthCheck_tick.
    destruct (process (mgr w)); [apply monitoring_kept_refl|].
    apply monitoring_kept_stopHealthCheck.
  - destruct (monitorProbes w); [discriminate|]. injection Hstep as <-.
    unfold healthCheck_result. destruct ok; [apply monitoring_kept_refl|].
    apply monitoring_kept_unready; reflexivity.
  - destruct (_ <=? _); [|discriminate]. injection Hstep as <-.
    apply monitoring_kept_refl.
Qed.

Lemma run_monitoring_kept (es : list Event) (w w' : World) :
  run h w es = Some w' -> existsb startup_success es = false ->
  monitoring_kept (mgr w) (mgr w').
Proof.
  revert w. induction es as [|e es IH]; intros w Hrun Hnone; simpl in Hrun.
  - injection Hrun as <-. apply monitoring_kept_refl.
  - destruct (step h w e) as [w1|] eqn:Hstep; [|discriminate].
    simpl in Hnone. apply orb_false_iff in Hnone. destruct Hnone as [He Hes].
    exact (monitoring_kept_trans _ _ _ (step_monitoring_kept w w1 e Hstep He)
             (IH w1 Hrun Hes)).
Qed.

End MonitoringSource.

(** X14: [ready] is set to true at one place only, line 395 of
    [waitForReady].  Through any sequence of events that contains no
    successful readiness probe of a start, a manager that is not ready
    stays not ready: in particular a successful probe of the monitoring
    timer (lines 441-444) does not restore [ready] after a failed one,
    and neither do [getStatus], [stop] or the child's events. *)
Theorem X14_only_a_startup_probe_makes_ready
    (h : Host) (w w' : World) (es : list Event) :
  run h w es = Some w' -> existsb startup_success es = false ->
  ready (mgr w) = false -> ready (mgr w') = false.
Proof.
  intros Hrun Hnone Hr.
  destruct (run_monitoring_kept h es w w' Hrun Hnone) as [Hready _].
  destruct (ready (mgr w')); [|reflexivity].
  rewrite Hready in Hr by reflexivity. discriminate.
Qed.

(** The supervisor after one failed monitoring probe. *)
Definition degraded_world : World :=
  Eval vm_compute in default initial_world (run Demo.host initial_world degraded_run).

Lemma X14_monitoring_does_not_restore_ready :
  exists w',
    run Demo.host degraded_world [MonitorTick; MonitorProbed true; CallGetStatus] = Some w'
    /\ process (mgr w') = Some 0%nat /\ ready (mgr w') = false.
Proof.
  exists (default initial_world
            (run Demo.host degraded_world [MonitorTick; MonitorProbed true; CallGetStatus])).
  split; [vm_compute; reflexivity|]. split; [vm_compute; reflexivity|].
  apply (X14_only_a_startup_probe_makes_ready Demo.host degraded_world _
           [MonitorTick; MonitorProbed true; CallGetStatus]).
  - vm_compute. reflexivity.
  - reflexivity.
  - reflexivity.
Defined.

(** X15: the monitoring timer is armed at one place only,
    [startHealthCheck] after a successful [waitForReady] (line 367).
    Through any sequence of events without a successful readiness probe,
    a manager without a timer stays without one: neither a failed start
    nor [stop], [getStatus] or the child's events arm it. *)
Theorem X15_monitoring_timer_armed_only_by_successful_start
    (h : Host) (w w' : World) (es : list Event) :
  run h w es = Some w' -> existsb startup_success es = false ->
  healthCheckInterval (mgr w) = None -> healthCheckInterval (mgr w') = None.
Proof.
  intros Hrun Hnone Hh.
  destruct (run_monitoring_kept h es w w' Hrun Hnone) as [_ Htimer].
  destruct (healthCheckInterval (mgr w')) as [i|] eqn:Hi; [|reflexivity].
  rewrite (Htimer i eq_refl) in Hh. discriminate.
Qed.

Lemma X15_failed_start_arms_no_timer :
  exists w',
    run Demo.host sleeping_world [ChildClose 0 (Some 1); PollTimer 0; StartFinally 0]
    = Some w'
    /\ healthCheckInterval (mgr w') = None /\ step Demo.host w' MonitorTick = None.
Proof.
  exists (default initial_world
            (run Demo.host sleeping_world
               [ChildClose 0 (Some 1); PollTimer 0; StartFinally 0])).
  split; [vm_compute; reflexivity|].
  assert (Hnone : healthCheckInterval
                    (mgr (default initial_world
                            (run Demo.host sleeping_world
                               [ChildClose 0 (Some 1); PollTimer 0; StartFinally 0])))
                  = None).
  { apply (X15_monitoring_timer_armed_only_by_successful_start Demo.host sleeping_world _
             [ChildClose 0 (Some 1); PollTimer 0; StartFinally 0]).
    - vm_compute. reflexivity.
    - reflexivity.
    - reflexivity. }
  split; [exact Hnone | vm_compute; reflexivity].
Defined.

(** ** The port held by the manager *)

Definition in_range (p : Z) : Prop := PORT_RANGE_START <= p <= PORT_RANGE_END.

(** Every port being probed by a pending scan lies in the range. *)
Definition scans_in_range (l : list DoStart) : Prop :=
  forall d op p, l !! d = Some op -> d_phase op = DScan p -> in_range p.

Definition ports_in_range (w : World) : Prop :=
  (forall p, port (mgr w) = Some p -> in_range p) /\ scans_in_range (doStarts w).

Lemma scans_alter (f : DoStart -> DoStart) (d : nat) (l : list DoStart) :
  (forall op p, l !! d = Some op -> d_phase (f op) = DScan p ->
                in_range p \/ d_phase op = DScan p) ->
  scans_in_range l -> scans_in_range (alter f d l).
Proof.
  intros Hf Hl d' op p Hd Hph. destruct (decide (d = d')) as [<-|Hne].
  - rewrite list_lookup_alter_eq in Hd. destruct (l !! d) as [op0|] eqn:Hd0; [|discriminate].
    injection Hd as <-. destruct (Hf op0 p eq_refl Hph) as [Hin|Hph0]; [exact Hin|].
    exact (Hl d op0 p Hd0 Hph0).
  - rewrite list_lookup_alter_ne in Hd by exact Hne. exact (Hl d' op p Hd Hph).
Qed.

Lemma scans_snoc (l : list DoStart) (op : DoStart) :
  scans_in_range l -> (forall p, d_phase op = DScan p -> in_range p) ->
  scans_in_range (l ++ [op]).
Proof.
  intros Hl Hop d op' p Hd Hph. apply lookup_app_Some in Hd.
  destruct Hd as [Hd|[_ Hd]]; [exact (Hl d op' p Hd Hph)|].
  apply list_lookup_singleton_Some in Hd. destruct Hd as [_ <-]. exact (Hop p Hph).
Qed.

Lemma waitForReady_loop_not_scan (st : Z) (pc : nat) (op : DoStart) (w : World) (p : Z) :
  waitForReady_loop st pc op w <> DScan p.
Proof.
  unfold waitForReady_loop. destruct (_ <? _); [|discriminate].
  destruct (process_gone w); discriminate.
Qed.

Section PortRange.
Variable h : Host.

Lemma stop_call_range (w : World) :
  ports_in_range w -> ports_in_range (stop_call h w).1.
Proof.
  intros [Hport Hscan]. unfold stop_call.
  destruct (stopHealthCheck_fields (mgr w)) as (_ & Hp & _).
  destruct (process (stopHealthCheck (mgr w))) as [c|].
  - destruct (killProcess h c SIGTERM); unfold signalled; split; fields;
      try exact Hscan; try discriminate. rewrite Hp. exact Hport.
  - split; fields; [rewrite Hp; exact Hport | exact Hscan].
Qed.

Lemma doStart_call_range (model : string) (o : Options) (w : World) :
  ports_in_range w -> ports_in_range (doStart_call h model o w).1.
Proof.
  intros [Hport Hscan].
  pose proof (resolve_binary_caches h (useCuda_or_false o) (mgr w)) as Hc.
  destruct (resolve_binary h (useCuda_or_false o) (mgr w)) as [[b a] m1] eqn:Hres.
  destruct Hc as (_ & Hp & _). cbn [snd] in Hp.
  rewrite (doStart_call_cases h model o w b a m1 Hres). split; fields.
  - destruct (negb (truthy b)); fields; rewrite Hp; exact Hport.
  - apply scans_snoc; [exact Hscan|]. fields. intros p.
    destruct (negb (truthy b)); [discriminate|].
    destruct (negb (existsSync h model)); [discriminate|].
    intros [= <-]. unfold in_range, PORT_RANGE_START, PORT_RANGE_END. lia.
Qed.

Lemma start_launch_range (model : string) (o : Options) (w : World) :
  ports_in_range w -> ports_in_range (start_launch h model o w).1.
Proof.
  intros Hinv. unfold start_launch. pose proof (doStart_call_range model o w Hinv) as Hk.
  destruct (doStart_call h model o w) as [w1 d]. exact Hk.
Qed.

Lemma start_call_range (model : string) (o : Options) (w : World) :
  ports_in_range w -> ports_in_range (start_call h model o w).
Proof.
  intros Hinv. unfold start_call. destruct (startupPromise (mgr w)); [exact Hinv|].
  destruct (_ && _); [exact Hinv|].
  destruct (process (mgr w)).
  - pose proof (stop_call_range w Hinv) as Hk.
    destruct (stop_call h w) as [w1 s]. exact Hk.
  - pose proof (start_launch_range model o w Hinv) as Hk.
    destruct (start_launch h model o w) as [w1 ph]. exact Hk.
Qed.

Lemma doStart_probed_range (d : nat) (op : DoStart) (p : Z) (bound : bool) (w : World) :
  doStarts w !! d = Some op -> d_phase op = DScan p ->
  ports_in_range w -> ports_in_range (doStart_probed h d op p bound w).
Proof.
  intros Hd Hph [Hport Hscan]. pose proof (Hscan d op p Hd Hph) as Hin.
  unfold doStart_probed. destruct bound.
  - rewrite (doStart_spawn_eq h w d op p Hd). unfold in_phase.
    destruct (spawned_manager_fields h op p (length (children w)) (mgr w))
      as (_ & Hp & _).
    split; fields.
    + rewrite Hp. intros q [= <-]. exact Hin.
    + rewrite <- (alter_as_insert (set_d_phase (DPoll (now w) 1)) _ _ _ Hd).
      apply scans_alter; [|exact Hscan]. intros op0 q _. discriminate.
  - split; fields; [exact Hport|].
    apply scans_alter; [|exact Hscan]. intros op0 q _. fields.
    destruct (Z.leb_spec (p + 1) PORT_RANGE_END); [|discriminate].
    intros [= <-]. left. unfold in_range in *. lia.
Qed.

(** Every step of the event loop keeps the ports in the range. *)
Lemma step_ports_in_range (w w' : World) (e : Event) :
  step h w e = Some w' -> ports_in_range w -> ports_in_range w'.
Proof.
  intros Hstep Hinv. destruct e; simpl in Hstep.
  - injection Hstep as <-. apply start_call_range, Hinv.
  - injection Hstep as <-. apply stop_call_range, Hinv.
  - injection Hstep as <-. destruct Hinv as [Hport Hscan]. split; fields; [|exact Hscan].
    destruct (getStatus_fields h (mgr w)) as (_ & _ & _ & _ & _ & Hc).
    destruct Hc as (_ & Hp & _). rewrite Hp. exact Hport.
  - destruct (doStarts w !! d) as [op|] eqn:Hd; [|discriminate].
    destruct (d_phase op) eqn:Hph; try discriminate. injection Hstep as <-.
    exact (doStart_probed_range d op _ bound w Hd Hph Hinv).
  - destruct (doStarts w !! d) as [op|]; [|discriminate].
    destruct (d_phase op); try discriminate. injection Hstep as <-.
    destruct Hinv as [Hport Hscan]. unfold waitForReady_probed. destruct ok.
    + destruct (stopHealthCheck_fields (set_ready true (mgr w))) as (_ & Hp & _).
      split; fields.
      * rewrite Hp. exact Hport.
      * apply scans_alter; [|exact Hscan]. intros op0 q _. discriminate.
    + split; fields; [exact Hport|].
      apply scans_alter; [|exact Hscan]. intros op0 q _. discriminate.
  - destruct (doStarts w !! d) as [op|]; [|discriminate].
    destruct (d_phase op); try discriminate.
    destruct (_ <=? _); [|discriminate]. injection Hstep as <-.
    destruct Hinv as [Hport Hscan]. split; fields; [exact Hport|].
    apply scans_alter; [|exact Hscan]. intros op0 q _. fields. intros Hq.
    exfalso. exact (waitForReady_loop_not_scan _ _ _ _ _ Hq).
  - destruct (children w !! c) as [ch|] eqn:Hch; [|discriminate].
    destruct (c_closed ch) eqn:Hopen; [discriminate|].
    destruct (child_close_step h w c ch code Hch Hopen) as (w1 & Hstep1 & Hm1 & Hd1 & _).
    simpl in Hstep1. rewrite Hch, Hopen in Hstep1. rewrite Hstep1 in Hstep.
    injection Hstep as <-. destruct Hinv as [Hport Hscan].
    destruct (closed_manager_fields (mgr w)) as (_ & _ & _ & Hp & _). cbv zeta in Hp.
    split.
    + rewrite Hm1, Hp. exact Hport.
    + rewrite Hd1. apply scans_alter; [|exact Hscan]. intros op0 q _. fields. auto.
  - destruct (children w !! c); [|discriminate]. injection Hstep as <-. exact Hinv.
  - destruct (children w !! c) as [ch|]; [|discriminate].
    destruct (c_closed ch); [discriminate|]. injection Hstep as <-.
    destruct Hinv as [Hport Hscan]. split; fields; [exact Hport|].
    apply scans_alter; [|exact Hscan]. intros op0 q _. fields. auto.
  - destruct (stops w !! s) as [[c [deadline|]| |]|]; try discriminate.
    destruct (_ <=? _); [|discriminate]. injection Hstep as <-.
    unfold stop_timeout. destruct (process (mgr w)) as [c'|].
    + destruct (killProcess h c' SIGKILL); unfold signalled; exact Hinv.
    + exact Hinv.
  - destruct (stops w !! s) as [[| |]|]; try discriminate. injection Hstep as <-.
    destruct Hinv as [Hport Hscan]. split; fields; [discriminate | exact Hscan].
  - destruct (starts w !! t) as [a|]; [|discriminate].
    destruct (s_phase a); try discriminate.
    destruct (stops w !! s) as [[| |]|]; try discriminate. injection Hstep as <-.
    unfold start_after_stop.
    pose proof (start_launch_range (s_modelPath a) (s_options a) w Hinv) as Hk.
    destruct (start_launch h _ _ w) as [w1 ph]. exact Hk.
  - destruct (starts w !! t) as [a|]; [|discriminate].
    destruct (s_phase a); try discriminate.
    destruct (d_phase <$> doStarts w !! d) as [[| | |r]|]; try discriminate.
    injection Hstep as <-. exact Hinv.
  - destruct (healthCheckInterval (mgr w)); [|discriminate].
    injection Hstep as <-. unfold healthCheck_tick.
    destruct (process (mgr w)); [exact Hinv|].
    destruct Hinv as [Hport Hscan]. split; fields; [|exact Hscan].
    destruct (stopHealthCheck_fields (mgr w)) as (_ & Hp & _). rewrite Hp. exact Hport.
  - destruct (monitorProbes w); [discriminate|]. injection Hstep as <-.
    unfold healthCheck_result. destruct ok; exact Hinv.
  - destruct (_ <=? _); [|discriminate]. injection Hstep as <-. exact Hinv.
Qed.

End PortRange.

(** X16: in every execution from a freshly constructed manager, whenever
    [this.port] holds a number it lies between 8178 and 8199: the only
    assignment of a number is line 298, with the port on which the scan
    of [findAvailablePort] stopped. *)
Theorem X16_manager_port_is_always_in_range
    (h : Host) (es : list Event) (w' : World) (p : Z) :
  run h initial_world es = Some w' -> port (mgr w') = Some p ->
  PORT_RANGE_START <= p <= PORT_RANGE_END.
Proof.
  intros Hrun Hp.
  assert (Hinv : forall es w w', ports_in_range w -> run h w es = Some w' ->
                                 ports_in_range w').
  { clear. intros es. induction es as [|e es IH]; intros w w' Hinv Hrun; simpl in Hrun.
    - injection Hrun as <-. exact Hinv.
    - destruct (step h w e) as [w1|] eqn:Hstep; [|discriminate].
      exact (IH w1 w' (step_ports_in_range h w w1 e Hstep Hinv) Hrun). }
  assert (Hinit : ports_in_range initial_world).
  { split; [discriminate|]. intros d op q Hd. destruct d; discriminate Hd. }
  destruct (Hinv es initial_world w' Hinit Hrun) as [Hport _]. exact (Hport p Hp).
Qed.

Lemma X16_port_in_range_witness :
  run Demo.host initial_world ready_run = Some ready_world
  /\ port (mgr ready_world) = Some 8178
  /\ PORT_RANGE_START <= 8178 <= PORT_RANGE_END.
Proof.
  split; [vm_compute; reflexivity|]. split; [reflexivity|].
  apply (X16_manager_port_is_always_in_range Demo.host ready_run ready_world 8178).
  - vm_compute. reflexivity.
  - reflexivity.
Defined.

(** ** A start that replaces a running child *)

Section Restart.
Variable h : Host.

Lemma stop_call_waits_frame (w : World) (c : nat) (ch : Child) (k : bool) :
  process (mgr w) = Some c -> children w !! c = Some ch ->
  killProcess h c SIGTERM = Some k ->
  exists w' ch',
    stop_call h w = (w', length (stops w))
    /\ stops w' = stops w ++ [StWait c (Some (now w + STOP_GRACE_MS))]
    /\ mgr w' = stopHealthCheck (mgr w)
    /\ children w' !! c = Some ch'
    /\ c_closed ch' = c_closed ch
    /\ length (stops w) ∈ c_onceClose ch'
    /\ signals w' = signals w ++ [(c, SIGTERM)]
    /\ starts w' = starts w /\ doStarts w' = doStarts w /\ now w' = now w
    /\ length (children w') = length (children w).
Proof.
  intros Hp Hch Hk. unfold stop_call.
  destruct (stopHealthCheck_fields (mgr w)) as (Hp' & _).
  rewrite Hp', Hp, Hk. unfold signalled. eexists. eexists.
  split; [reflexivity|]. fields.
  split; [reflexivity|]. split; [reflexivity|].
  split; [rewrite !list_lookup_alter_eq, Hch; reflexivity|].
  split; [reflexivity|].
  split; [fields; apply elem_of_app; right; apply list_elem_of_singleton; reflexivity|].
  rewrite !length_alter. repeat split.
Qed.

Lemma doStart_call_appends (model : string) (o : Options) (w : World) :
  exists op, doStarts (doStart_call h model o w).1 = doStarts w ++ [op].
Proof.
  destruct (resolve_binary h (useCuda_or_false o) (mgr w)) as [[b a] m1] eqn:Hres.
  rewrite (doStart_call_cases h model o w b a m1 Hres). eexists. reflexivity.
Qed.

End Restart.

(** X17: [start] on a supervisor that owns a child and is not ready for
    the same request (another model, another acceleration, or not ready)
    first stops the child: SIGTERM is sent in the call itself, and the new
    [_doStart] cannot begin while the stop is pending.  When the child
    closes, [stop] resets the manager and the start goes on: a new
    activation of [_doStart] is recorded as the pending startup, no SIGKILL
    was sent, and no second child exists before the first one closed. *)
Theorem X17_restart_stops_the_child_before_launching
    (h : Host) (w : World) (c : nat) (ch : Child) (model : string) (o : Options)
    (k : bool) (code : option Z) :
  startupPromise (mgr w) = None ->
  ready (mgr w) && bool_decide (modelPath (mgr w) = Some model)
    && Bool.eqb (usingCuda (mgr w)) (useCuda_or_false o) = false ->
  process (mgr w) = Some c -> children w !! c = Some ch -> c_closed ch = false ->
  killProcess h c SIGTERM = Some k ->
  exists w1 w4,
    step h w (CallStart model o) = Some w1
    /\ signals w1 = signals w ++ [(c, SIGTERM)]
    /\ step h w1 (StartAfterStop (length (starts w))) = None
    /\ run h w1 [ChildClose c code; StopResume (length (stops w));
                 StartAfterStop (length (starts w))] = Some w4
    /\ startupPromise (mgr w4) = Some (length (doStarts w))
    /\ length (doStarts w4) = S (length (doStarts w))
    /\ process (mgr w4) = None /\ port (mgr w4) = None /\ modelPath (mgr w4) = None
    /\ ready (mgr w4) = false
    /\ length (children w4) = length (children w)
    /\ signals w4 = signals w ++ [(c, SIGTERM)].
Proof.
  intros Hsp Hcond Hp Hch Hopen Hk.
  set (s := length (stops w)). set (t := length (starts w)).
  destruct (stop_call_waits_frame h w c ch k Hp Hch Hk)
    as (v & ch' & Hcall & Hs & Hm & Hch' & Hopen' & Hin & Hg & Ht & Hd & Hn & Hlen).
  remember (with_starts (starts v ++ [mkStart model o (SAwaitStop s)]) v) as w1 eqn:Hw1.
  assert (Hstep1 : step h w (CallStart model o) = Some w1).
  { simpl. unfold start_call. rewrite Hsp, Hcond, Hp, Hcall, Hw1. reflexivity. }
  assert (Hv : starts w1 = starts v ++ [mkStart model o (SAwaitStop s)]
               /\ stops w1 = stops v /\ children w1 = children v
               /\ doStarts w1 = doStarts v /\ signals w1 = signals v).
  { rewrite Hw1. repeat split. }
  destruct Hv as (Hvt & Hvs & Hvc & Hvd & Hvg). clear Hw1.
  assert (Ht1 : starts w1 !! t = Some (mkStart model o (SAwaitStop s))).
  { rewrite Hvt, Ht. apply list_lookup_middle. reflexivity. }
  assert (Hs1 : stops w1 !! s = Some (StWait c (Some (now w + STOP_GRACE_MS)))).
  { rewrite Hvs, Hs. apply list_lookup_middle. reflexivity. }
  assert (Hch1 : children w1 !! c = Some ch') by (rewrite Hvc; exact Hch').
  rewrite Hopen in Hopen'.
  (* the child closes *)
  destruct (child_close_facts h w1 c ch' code s Hch1 Hopen' Hin)
    as (w2 & Hstep2 & Hs2 & _); [rewrite Hs1; exact I|].
  destruct (child_close_step h w1 c ch' code Hch1 Hopen')
    as (w2' & Hstep2' & Hm2 & Hd2 & Ht2 & Hg2 & _ & Hlen2).
  rewrite Hstep2 in Hstep2'. injection Hstep2' as <-.
  (* stop resumes *)
  set (w3 := stop_resume s w2).
  assert (Hstep3 : step h w2 (StopResume s) = Some w3).
  { simpl. rewrite Hs2. reflexivity. }
  assert (Hs3 : stops w3 !! s = Some StDone).
  { subst w3. unfold stop_resume. fields. apply list_lookup_insert_eq.
    apply lookup_lt_Some in Hs2. exact Hs2. }
  assert (Ht3 : starts w3 !! t = Some (mkStart model o (SAwaitStop s))).
  { subst w3. unfold stop_resume. fields. rewrite Ht2. exact Ht1. }
  (* the start launches *)
  assert (Hlaunch : launches w3 (StartAfterStop t) t model o).
  { right. split; [reflexivity|]. exists s. split; assumption. }
  destruct (launch_step h w3 (StartAfterStop t) t model o Hlaunch)
    as (w4 & Hstep4 & Hm4 & Hd4 & Hc4 & _ & Hg4 & _).
  destruct (doStart_call_appends h model o w3) as (op & Happ).
  pose proof (resolve_binary_caches h (useCuda_or_false o) (mgr w3)) as Hcaches.
  pose proof (doStart_call_kept h model o w3) as [Hkp Hkport].
  assert (Hmore : modelPath (mgr (doStart_call h model o w3).1) = modelPath (mgr w3)
                  /\ ready (mgr (doStart_call h model o w3).1) = ready (mgr w3)).
  { destruct (resolve_binary h (useCuda_or_false o) (mgr w3)) as [[b a] m1] eqn:Hres.
    rewrite (doStart_call_cases h model o w3 b a m1 Hres).
    destruct Hcaches as (_ & _ & Hr & Hmp & _). cbn [snd] in Hr, Hmp. fields.
    destruct (negb (truthy b)); fields; split; assumption. }
  destruct Hmore as [Hkmp Hkr].
  assert (Hd3 : length (doStarts w3) = length (doStarts w)).
  { subst w3. unfold stop_resume. fields. rewrite Hd2, length_alter, Hvd, Hd.
    reflexivity. }
  exists w1, w4. split; [exact Hstep1|].
  split; [rewrite Hvg; exact Hg|].
  split; [simpl; rewrite Ht1; cbn [s_phase]; rewrite Hs1; reflexivity|].
  split; [cbn [run]; rewrite Hstep2, Hstep3, Hstep4; reflexivity|].
  rewrite Hm4, Hd4, Happ, Hc4, Hg4. fields.
  rewrite Hkp, Hkport, Hkmp, Hkr, length_app, Hd3.
  split; [reflexivity|]. split; [simpl; lia|].
  subst w3. unfold stop_resume. fields.
  split; [reflexivity|]. split; [reflexivity|]. split; [reflexivity|].
  split; [reflexivity|]. rewrite Hlen2, Hg2, Hvc, Hvg.
  split; [exact Hlen | exact Hg].
Qed.

Lemma X17_restart_witness :
  exists w1 w4,
    step Demo.host ready_world (CallStart Demo.model_b no_options) = Some w1
    /\ step Demo.host w1 (StartAfterStop 1) = None
    /\ run Demo.host w1 [ChildClose 0 None; StopResume 0; StartAfterStop 1] = Some w4
    /\ startupPromise (mgr w4) = Some 1%nat
    /\ length (children w4) = 1%nat
    /\ signals w4 = [(0%nat, SIGTERM)].
Proof.
  destruct (X17_restart_stops_the_child_before_launching Demo.host ready_world 0
              (mkChild Demo.cpu_binary
                 ["--model"; Demo.model_a; "--host"; "127.0.0.1"; "--port"; "8178"]
                 "/app/resources/bin:/usr/bin" "/app/resources/bin" 0 false false [])
              Demo.model_b no_options true None)
    as (w1 & w4 & H1 & _ & H2 & H3 & H4 & _ & _ & _ & _ & _ & H5 & H6);
    [reflexivity | reflexivity | reflexivity | reflexivity | reflexivity | reflexivity |].
  exists w1, w4. auto 8.
Defined.

(** ** The close handler does not look at which child closed *)

Lemma child_close_others (h : Host) (w : World) (c c' : nat) (ch : Child)
    (code : option Z) :
  c' <> c -> children (child_close c ch code w) !! c' = children w !! c'.
Proof.
  intros Hne. unfold child_close.
  set (w2 := with_mgr _ _).
  destruct (close_listeners_frame (c_onceClose ch) w2) as (_ & Hc & _).
  fields. rewrite list_lookup_alter_ne by auto. rewrite Hc. reflexivity.
Qed.

(** X18: the "close" handler installed by [_doStart] (lines 358-364)
    clears [this.process] and [this.ready] whichever child it was attached
    to.  When a child [c] that is not the one currently held closes (an
    earlier child whose stop was completed by the grace timer, not by its
    exit), the handle of the current child [c'] is dropped: [c'] itself
    is untouched, it received no signal and is still running, while the
    manager reports no process. *)
Theorem X18_close_of_an_earlier_child_drops_the_current_handle
    (h : Host) (w : World) (c c' : nat) (ch : Child) (code : option Z) :
  children w !! c = Some ch -> c_closed ch = false ->
  process (mgr w) = Some c' -> c' <> c ->
  exists w',
    step h w (ChildClose c code) = Some w'
    /\ process (mgr w') = None /\ ready (mgr w') = false
    /\ healthCheckInterval (mgr w') = None
    /\ port (mgr w') = port (mgr w) /\ modelPath (mgr w') = modelPath (mgr w)
    /\ children w' !! c' = children w !! c'
    /\ signals w' = signals w.
Proof.
  intros Hch Hopen _ Hne.
  destruct (child_close_step h w c ch code Hch Hopen)
    as (w' & Hstep & Hm & _ & _ & Hg & _).
  destruct (closed_manager_fields (mgr w)) as (Hp & Hr & Hh & Hport & Hmp & _).
  cbv zeta in Hp, Hr, Hh, Hport, Hmp. rewrite <- Hm in Hp, Hr, Hh, Hport, Hmp.
  exists w'. split; [exact Hstep|].
  assert (Hw' : w' = child_close c ch code w).
  { simpl in Hstep. rewrite Hch, Hopen in Hstep. injection Hstep as <-. reflexivity. }
  split; [exact Hp|]. split; [exact Hr|]. split; [exact Hh|]. split; [exact Hport|].
  split; [exact Hmp|]. split; [|exact Hg].
  rewrite Hw'. apply (child_close_others h w c c' ch code Hne).
Qed.

(** A ready supervisor is asked for another model; its child ignores
    SIGTERM, so the grace timer sends SIGKILL and completes the stop; the
    new child is spawned while the old one has not closed yet. *)
Definition replaced_world : World :=
  Eval vm_compute in
    default initial_world
      (run Demo.host ready_world
         [CallStart Demo.model_b no_options; Advance 5000; GraceTimer 0;
          StopResume 0; StartAfterStop 1; PortProbed 1 true]).

Definition earlier_child : Child :=
  Eval vm_compute in
    default (mkChild "" [] "" "" 0 false false []) (children replaced_world !! 0%nat).

Lemma X18_earlier_child_witness :
  process (mgr replaced_world) = Some 1%nat
  /\ (killed <$> children replaced_world !! 1%nat) = Some false
  /\ exists w',
       step Demo.host replaced_world (ChildClose 0 (Some 137)) = Some w'
       /\ process (mgr w') = None
       /\ (killed <$> children w' !! 1%nat) = Some false.
Proof.
  split; [reflexivity|]. split; [reflexivity|].
  destruct (X18_close_of_an_earlier_child_drops_the_current_handle Demo.host
              replaced_world 0 1 earlier_child (Some 137))
    as (w' & Hstep & Hp & _ & _ & _ & _ & Hc & _);
    [reflexivity | reflexivity | reflexivity | lia |].
  exists w'. split; [exact Hstep|]. split; [exact Hp|]. rewrite Hc. reflexivity.
Defined.

(** ** The body of a transcription request *)

(** The bytes of the optional form fields (lines 501-517). *)
Definition optional_fields (boundary : string) (o : Options) : list byte :=
  (match language_given o with
   | Some l => list_byte_of_string (field_part boundary "language" l)
   | None => []
   end)
  ++ (if truthy (initialPrompt o)
      then list_byte_of_string (field_part boundary "prompt" (default "" (initialPrompt o)))
      else []).

(** X19: the request [transcribe] writes.  It goes to the port the
    manager holds; its body is the file part header, the audio bytes as
    they were given, a line end, the optional fields (language, then
    prompt, the latter only for a non-empty prompt), the response_format
    field and the closing delimiter of the same boundary that the
    Content-Type header announces; Content-Length is the length of that
    body. *)
Theorem X19_transcribe_body_frames_the_audio
    (m : Manager) (t : Z) (audioBuffer : list byte) (o : Options) (req : HttpRequest) :
  transcribe m t audioBuffer o = TSend req ->
  let boundary := "----WhisperBoundary" +:+ string_of_Z t in
  rq_port req = port m
  /\ rq_contentType req = "multipart/form-data; boundary=" +:+ boundary
  /\ rq_contentLength req = length (rq_body req)
  /\ rq_body req
     = list_byte_of_string
         (file_part_header boundary
            (if isWav audioBuffer then "audio.wav" else "audio.webm")
            (if isWav audioBuffer then "audio/wav" else "audio/webm"))
       ++ audioBuffer ++ list_byte_of_string crlf
       ++ optional_fields boundary o
       ++ list_byte_of_string (field_part boundary "response_format" "json")
       ++ list_byte_of_string ("--" +:+ boundary +:+ "--" +:+ crlf).
Proof.
  unfold transcribe. destruct (negb (ready m) || _); [discriminate|].
  destruct (negb (isWav audioBuffer) && _); [discriminate|].
  intros [= <-]. cbv zeta. cbn [rq_port rq_contentType rq_contentLength rq_body].
  split; [reflexivity|]. split; [reflexivity|]. split; [reflexivity|].
  unfold transcribe_parts, optional_fields.
  rewrite !fmap_app, !concat_app. cbn [fmap list_fmap concat part_bytes].
  rewrite !app_nil_r. rewrite <- !app_assoc. cbn [app].
  do 3 f_equal.
  destruct (language_given o) as [l|]; destruct (initialPrompt o) as [p|];
    cbn [fmap list_fmap concat part_bytes app truthy default from_option id];
    try destruct (negb (String.eqb p ""));
    cbn [fmap list_fmap concat part_bytes app]; rewrite ?app_nil_r; reflexivity.
Qed.

Lemma X19_transcribe_body_witness :
  exists req,
    transcribe running_manager 7 Demo.wav_header
      (mkOptions None None (Some "auto") (Some "")) = TSend req
    /\ rq_contentLength req = length (rq_body req)
    /\ rq_body req
       = list_byte_of_string
           (file_part_header "----WhisperBoundary7" "audio.wav" "audio/wav")
         ++ Demo.wav_header ++ list_byte_of_string crlf
         ++ list_byte_of_string
              (field_part "----WhisperBoundary7" "response_format" "json")
         ++ list_byte_of_string ("------WhisperBoundary7--" +:+ crlf).
Proof.
  pose (req := match transcribe running_manager 7 Demo.wav_header
                       (mkOptions None None (Some "auto") (Some "")) with
               | TSend r => r
               | TThrow _ => mkHttpRequest "" None "" "" "" 0 0 [] []
               end).
  destruct (X19_transcribe_body_frames_the_audio running_manager 7 Demo.wav_header
              (mkOptions None None (Some "auto") (Some "")) req)
    as (_ & _ & Hlen & Hbody); [vm_compute; reflexivity|].
  exists req. split; [vm_compute; reflexivity|]. split; [exact Hlen|]. rewrite Hbody.
  vm_compute. reflexivity.
Defined.

(** * The download script of the server binaries *)

(** An entry of the [BINARIES] table. *)
Record BinaryConfig := mkBinaryConfig {
  zipName : string;
  binaryName : string;
  outputName : string
}.

Module Download.

(** The table of lines 20-59, with the keys in source order. *)
Definition BINARIES : list (string * list (string * BinaryConfig)) :=
  [("darwin-arm64",
    [("cpu", mkBinaryConfig "whisper-server-darwin-arm64.zip"
               "whisper-server-darwin-arm64" "whisper-server-darwin-arm64")]);
   ("darwin-x64",
    [("cpu", mkBinaryConfig "whisper-server-darwin-x64.zip"
               "whisper-server-darwin-x64" "whisper-server-darwin-x64")]);
   ("win32-x64",
    [("cpu", mkBinaryConfig "whisper-server-win32-x64-cpu.zip"
               "whisper-server-win32-x64-cpu.exe" "whisper-server-win32-x64-cpu.exe");
     ("cuda", mkBinaryConfig "whisper-server-win32-x64-cuda.zip"
                "whisper-server-win32-x64-cuda.exe" "whisper-server-win32-x64-cuda.exe")]);
   ("linux-x64",
    [("cpu", mkBinaryConfig "whisper-server-linux-x64-cpu.zip"
               "whisper-server-linux-x64-cpu" "whisper-server-linux-x64-cpu");
     ("cuda", mkBinaryConfig "whisper-server-linux-x64-cuda.zip"
                "whisper-server-linux-x64-cuda" "whisper-server-linux-x64-cuda")])].

(** The own property [key] of an object literal. *)
Fixpoint property {A} (key : string) (obj : list (string * A)) : option A :=
  match obj with
  | [] => None
  | (k, v) :: rest => if String.eqb k key then Some v else property key rest
  end.

(** [parseVariantArgs] (lines 150-172) on the argument vector [args]. *)
Definition parseVariantArgs (args : list string) : list string :=
  let isCuda := bool_decide ("--cuda" ∈ args) in
  let isAllVariants := bool_decide ("--all-variants" ∈ args) in
  let variant :=
    match List.find (String.prefix "--variant=") args with
    | Some a => split_on "=" "" a !! 1%nat
    | None => None
    end in
  if isAllVariants then ["cpu"; "cuda"]
  else if isCuda then ["cuda"]
  else if truthy variant then [default "" variant]
  else ["cpu"].

(** How the loop of lines 207-221 ends. *)
Inductive LoopEnd :=
| Completed   (* every variant was handled *)
| CpuFailed   (* process.exitCode = 1 and return (lines 215-220) *)
| Threw.      (* an exception left the loop *)

(** The loop of lines 207-221 over the variants of the target platform:
    [downloadBinary] is called for the variants the platform has, and a
    failure of the "cpu" variant ends the script with exit code 1.
    [download] tells whether [downloadBinary] returns true for a
    configuration.  [inherited] tells whether a name is a member every
    object inherits (constructor, toString, ...): for such a variant
    [platformBinaries[variant]] is not undefined, and [downloadBinary]
    throws at line 88, where [path.join] receives the missing
    [outputName].  The result is the variants for which [downloadBinary]
    was called, in order, and how the loop ended. *)
Fixpoint downloadVariants (platformBinaries : list (string * BinaryConfig))
    (inherited : string -> bool) (download : BinaryConfig -> bool)
    (variants : list string) : list string * LoopEnd :=
  match variants with
  | [] => ([], Completed)
  | variant :: rest =>
      match property variant platformBinaries with
      | None =>
          if inherited variant then ([variant], Threw)
          else downloadVariants platformBinaries inherited download rest
      | Some config =>
          if negb (download config) && String.eqb variant "cpu"
          then ([variant], CpuFailed)
          else let '(attempted, e) :=
                 downloadVariants platformBinaries inherited download rest in
               (variant :: attempted, e)
      end
  end.

End Download.

(** The ways to write [k] as [p-a]. *)
Fixpoint split_dash (k : string) : list (string * string) :=
  match k with
  | EmptyString => []
  | String c k' =>
      (if Ascii.eqb c "-" then [(EmptyString, k')] else [])
      ++ ((fun pa => (String c pa.1, pa.2)) <$> split_dash k')
  end.

Lemma split_dash_complete (p a k : string) :
  p +:+ "-" +:+ a = k -> (p, a) ∈ split_dash k.
Proof.
  revert k. induction p as [|c p IH]; intros k <-.
  - cbn. left.
  - cbn [split_dash append]. apply elem_of_app. right.
    apply (list_elem_of_fmap_2 (fun pa => (String c pa.1, pa.2)) _ (p, a)).
    apply IH. reflexivity.
Qed.

Lemma platform_of_key (h : Host) (p a : string) :
  platform h +:+ "-" +:+ arch h = p +:+ "-" +:+ a ->
  split_dash (p +:+ "-" +:+ a) = [(p, a)] ->
  platform h = p /\ arch h = a.
Proof.
  intros Hkey Hone. apply split_dash_complete in Hkey. rewrite Hone in Hkey.
  apply list_elem_of_singleton in Hkey. injection Hkey as -> ->. split; reflexivity.
Qed.

Ltac candidate_here :=
  repeat first [apply list_elem_of_here | apply list_elem_of_further].

Ltac table_entry h Hkey Hvar p a :=
  let Hp := fresh "Hp" in
  let Ha := fresh "Ha" in
  destruct (platform_of_key h p a Hkey eq_refl) as [Hp Ha];
  repeat (apply elem_of_cons in Hvar; destruct Hvar as [Hvar|Hvar]);
  try (inversion Hvar; fail);
  injection Hvar as -> ->;
  unfold serverBinaryCandidates, is_platform; rewrite Hp, Ha;
  (split;
   [ apply elem_of_app; right; cbn; candidate_here
   | let rp := fresh "rp" in
     let Hrp := fresh "Hrp" in
     let Ht := fresh "Ht" in
     intros rp Hrp Ht; rewrite Hrp, Ht; apply elem_of_app; left; cbn;
     candidate_here ]).

(** X20: the download script and the locator agree on file names.  For
    a host whose [platform-arch] is a key of [BINARIES], the file the
    script stores for a variant of that key ([outputName], in
    resources/bin) is among the paths [getServerBinaryPath] tries for the
    same variant, in the bundled directory and, in a packaged
    application, under [process.resourcesPath].  On macOS the match is
    with the second name the locator tries, the one without the variant
    suffix. *)
Theorem X20_downloaded_binary_is_a_locator_candidate
    (h : Host) (variants : list (string * BinaryConfig)) (variant : string)
    (cfg : BinaryConfig) :
  (platform h +:+ "-" +:+ arch h, variants) ∈ Download.BINARIES ->
  (variant, cfg) ∈ variants ->
  path_join h [dirname h; ".."; ".."; "resources"; "bin"; outputName cfg]
    ∈ serverBinaryCandidates h (String.eqb variant "cuda")
  /\ (forall rp, resourcesPath h = Some rp -> truthy (Some rp) = true ->
        path_join h [rp; "bin"; outputName cfg]
          ∈ serverBinaryCandidates h (String.eqb variant "cuda")).
Proof.
  intros Hkey Hvar. unfold Download.BINARIES in Hkey.
  repeat (apply elem_of_cons in Hkey; destruct Hkey as [Hkey|Hkey]);
    [ | | | | inversion Hkey ];
    injection Hkey as Hkey ->.
  - table_entry h Hkey Hvar "darwin" "arm64".
  - table_entry h Hkey Hvar "darwin" "x64".
  - table_entry h Hkey Hvar "win32" "x64".
  - table_entry h Hkey Hvar "linux" "x64".
Qed.

Lemma X20_linux_cuda_witness :
  "/app/resources/bin/whisper-server-linux-x64-cuda"
    ∈ serverBinaryCandidates Demo.host true.
Proof.
  apply (X20_downloaded_binary_is_a_locator_candidate Demo.host
           (default [] (Download.property "linux-x64" Download.BINARIES)) "cuda"
           (mkBinaryConfig "whisper-server-linux-x64-cuda.zip"
              "whisper-server-linux-x64-cuda" "whisper-server-linux-x64-cuda")).
  - vm_compute. candidate_here.
  - vm_compute. candidate_here.
Defined.

(** X21: [parseVariantArgs] never returns an empty list, never a list
    with an empty or a repeated name, and a [--variant=] argument cannot
    take the CUDA variant away from a command line that has [--cuda] or
    [--all-variants]: those two flags are tested first. *)
Theorem X21_parseVariantArgs_names_at_least_one_variant (args : list string) :
  Download.parseVariantArgs args <> []
  /\ ("" ∉ Download.parseVariantArgs args)
  /\ NoDup (Download.parseVariantArgs args)
  /\ ("cuda" ∈ Download.parseVariantArgs args
      \/ (("--cuda" ∉ args) /\ ("--all-variants" ∉ args))).
Proof.
  unfold Download.parseVariantArgs.
  destruct (bool_decide ("--all-variants" ∈ args)) eqn:Hall.
  { split; [discriminate|]. split; [|split].
    - intros Hin. repeat (apply elem_of_cons in Hin; destruct Hin as [Hin|Hin]);
        try discriminate. inversion Hin.
    - apply NoDup_cons. split; [|apply NoDup_singleton].
      intros Hin. apply list_elem_of_singleton in Hin. discriminate.
    - left. candidate_here. }
  destruct (bool_decide ("--cuda" ∈ args)) eqn:Hcuda.
  { split; [discriminate|]. split; [|split].
    - intros Hin. apply list_elem_of_singleton in Hin. discriminate.
    - apply NoDup_singleton.
    - left. candidate_here. }
  apply bool_decide_eq_false in Hall, Hcuda.
  set (variant := match List.find _ args with Some a => _ | None => None end).
  destruct (truthy variant) eqn:Hv.
  - destruct variant as [v|]; [|discriminate]. cbn [default from_option id].
    split; [discriminate|]. split; [|split].
    + intros Hin. apply list_elem_of_singleton in Hin. subst v. discriminate.
    + apply NoDup_singleton.
    + right. split; assumption.
  - split; [discriminate|]. split; [|split].
    + intros Hin. apply list_elem_of_singleton in Hin. discriminate.
    + apply NoDup_singleton.
    + right. split; assumption.
Qed.

Lemma property_cpu_decided (variant : string) :
  String.eqb variant "cpu" = true <-> variant = "cpu".
Proof. apply String.eqb_eq. Qed.

(** X22: the loop over the variants of the target platform (lines
    207-221) ends the script with exit code 1 exactly when it reaches a
    "cpu" variant that the platform has and whose download fails.  A
    failed download of any other variant, and a variant the platform does
    not have, never fail the script; a "cpu" that comes after a variant
    name on which [downloadBinary] throws is not reached. *)
Theorem X22_script_fails_exactly_when_the_cpu_download_fails
    (platformBinaries : list (string * BinaryConfig))
    (inherited : string -> bool) (download : BinaryConfig -> bool)
    (variants : list string) :
  (Download.downloadVariants platformBinaries inherited download variants).2
  = Download.CpuFailed
  <-> exists before after config,
        variants = before ++ "cpu" :: after
        /\ Forall (fun v => v <> "cpu"
                            /\ (Download.property v platformBinaries = None ->
                                inherited v = false)) before
        /\ Download.property "cpu" platformBinaries = Some config
        /\ download config = false.
Proof.
  induction variants as [|v rest IH]; cbn [Download.downloadVariants].
  - split; [discriminate|]. intros (before & after & config & Hv & _).
    destruct before; discriminate Hv.
  - assert (Hlater :
              (Download.downloadVariants platformBinaries inherited download rest).2
              = Download.CpuFailed ->
              v <> "cpu" ->
              (Download.property v platformBinaries = None -> inherited v = false) ->
              exists before after config,
                v :: rest = before ++ "cpu" :: after
                /\ Forall (fun v => v <> "cpu"
                                    /\ (Download.property v platformBinaries = None ->
                                        inherited v = false)) before
                /\ Download.property "cpu" platformBinaries = Some config
                /\ download config = false).
    { intros Hrest Hne Hv. apply IH in Hrest.
      destruct Hrest as (before & after & config & -> & Hall & Hp & Hd).
      exists (v :: before), after, config. split; [reflexivity|].
      split; [constructor; [split; assumption | exact Hall]|]. split; assumption. }
    assert (Hsplit :
              forall before after config,
                v :: rest = before ++ "cpu" :: after ->
                Forall (fun v => v <> "cpu"
                                 /\ (Download.property v platformBinaries = None ->
                                     inherited v = false)) before ->
                Download.property "cpu" platformBinaries = Some config ->
                download config = false ->
                (v = "cpu" /\ Download.property v platformBinaries = Some config)
                \/ (v <> "cpu"
                    /\ (Download.property v platformBinaries = None -> inherited v = false)
                    /\ (Download.downloadVariants platformBinaries inherited download
                          rest).2 = Download.CpuFailed)).
    { intros before after config Hv Hall Hp Hd. destruct before as [|b before].
      - injection Hv as -> _. left. split; [reflexivity | exact Hp].
      - injection Hv as <- ->. apply Forall_cons in Hall. destruct Hall as [[Hne Hb] Hall].
        right. split; [exact Hne|]. split; [exact Hb|].
        apply IH. exists before, after, config. auto. }
    destruct (Download.property v platformBinaries) as [config|] eqn:Hprop.
    + destruct (negb (download config) && String.eqb v "cpu") eqn:Hfail.
      * apply andb_true_iff in Hfail. destruct Hfail as [Hd Hv].
        apply property_cpu_decided in Hv. subst v. apply negb_true_iff in Hd.
        split; [|reflexivity]. intros _. exists [], rest, config.
        split; [reflexivity|]. split; [constructor|]. split; assumption.
      * destruct (Download.downloadVariants platformBinaries inherited download rest)
          as [attempted e]. cbn [snd] in *. split.
        -- intros He. apply Hlater; [exact He | | discriminate].
           intros ->. apply andb_false_iff in Hfail. destruct Hfail as [Hd|Hv].
           ++ apply negb_false_iff in Hd.
              apply IH in He. destruct He as (before & after & config' & _ & _ & Hp & Hd').
              rewrite Hprop in Hp. injection Hp as <-. congruence.
           ++ discriminate Hv.
        -- intros (before & after & config' & Hv & Hall & Hp & Hd).
           destruct (Hsplit before after config' Hv Hall Hp Hd) as [[-> Hc]|(_ & _ & He)];
             [|exact He].
           injection Hc as ->. rewrite Hd in Hfail. discriminate Hfail.
    + destruct (inherited v) eqn:Hinh.
      * split; [discriminate|].
        intros (before & after & config' & Hv & Hall & Hp & Hd).
        destruct (Hsplit before after config' Hv Hall Hp Hd) as [[_ Hc]|(_ & Hv' & _)];
          [discriminate Hc|].
        specialize (Hv' eq_refl). discriminate Hv'.
      * split.
        -- intros He. apply Hlater; [exact He | | reflexivity].
           intros ->. apply IH in He.
           destruct He as (before & after & config' & _ & _ & Hp & _).
           rewrite Hprop in Hp. discriminate Hp.
        -- intros (before & after & config' & Hv & Hall & Hp & Hd).
           destruct (Hsplit before after config' Hv Hall Hp Hd) as [[_ Hc]|(_ & _ & He)];
             [discriminate Hc | exact He].
Qed.

(** * The model picker: keeping the selection valid *)

Module Picker.

(** The fields of a [WhisperModel] that the picker reads here. *)
Record WhisperModel := mkWhisperModel {
  model : string;
  downloaded : bool
}.

(** [validateAndSelectModel(loadedModels)] (TranscriptionModelPicker.tsx,
    lines 239-251) for the current selection [current]: the argument
    with which [onLocalModelSelect] is called, if it is called. *)
Definition validateAndSelectModel (current : string)
    (loadedModels : list WhisperModel) : option string :=
  if String.eqb current "" then None
  else
    let downloadedModels := List.filter downloaded loadedModels in
    let isCurrentDownloaded :=
      match List.find (fun m => String.eqb (model m) current) loadedModels with
      | Some m => downloaded m
      | None => false
      end in
    if negb isCurrentDownloaded && (0 <? length downloadedModels)%nat
    then model <$> head downloadedModels
    else if negb isCurrentDownloaded && (length downloadedModels =? 0)%nat
         then Some ""
         else None.

(** The selection after the call. *)
Definition selectionAfter (current : string) (loadedModels : list WhisperModel)
  : string :=
  default current (validateAndSelectModel current loadedModels).

End Picker.

(** X23: after [validateAndSelectModel] the selected local model is
    empty or names a model of the loaded list that is downloaded: a
    selection whose entry is not downloaded (or is not listed) is
    replaced by the first downloaded model, or cleared when none is
    downloaded. *)
Theorem X23_validated_selection_is_empty_or_downloaded
    (current : string) (loadedModels : list Picker.WhisperModel) :
  Picker.selectionAfter current loadedModels = ""
  \/ exists m, m ∈ loadedModels
               /\ Picker.model m = Picker.selectionAfter current loadedModels
               /\ Picker.downloaded m = true.
Proof.
  unfold Picker.selectionAfter, Picker.validateAndSelectModel.
  destruct (String.eqb current "") eqn:Hcur.
  { apply String.eqb_eq in Hcur. left. exact Hcur. }
  assert (Hreplace :
            default current
              (if (0 <? length (List.filter Picker.downloaded loadedModels))%nat
               then Picker.model <$> head (List.filter Picker.downloaded loadedModels)
               else if (length (List.filter Picker.downloaded loadedModels) =? 0)%nat
                    then Some "" else None) = ""
            \/ exists m, m ∈ loadedModels
                 /\ Picker.model m
                    = default current
                        (if (0 <? length (List.filter Picker.downloaded loadedModels))%nat
                         then Picker.model
                                <$> head (List.filter Picker.downloaded loadedModels)
                         else if (length (List.filter Picker.downloaded loadedModels)
                                  =? 0)%nat
                              then Some "" else None)
                 /\ Picker.downloaded m = true).
  { destruct (List.filter Picker.downloaded loadedModels) as [|m0 ms] eqn:Hf.
    - left. reflexivity.
    - assert (Hm0 : In m0 loadedModels /\ Picker.downloaded m0 = true).
      { apply List.filter_In. rewrite Hf. left. reflexivity. }
      destruct Hm0 as [Hin0 Hdl0]. right. exists m0.
      split; [apply list_elem_of_In; exact Hin0|]. split; [reflexivity | exact Hdl0]. }
  destruct (List.find (fun m => String.eqb (Picker.model m) current) loadedModels)
    as [m|] eqn:Hfind.
  - apply List.find_some in Hfind. destruct Hfind as [Hin Hname].
    apply String.eqb_eq in Hname.
    destruct (Picker.downloaded m) eqn:Hdl.
    + cbn [negb andb default from_option id].
      right. exists m. split; [apply list_elem_of_In; exact Hin|]. split; assumption.
    + cbn [negb andb]. exact Hreplace.
  - cbn [negb andb]. exact Hreplace.
Qed.

(** * A stop whose SIGKILL cannot be sent *)

(** X24: when [killProcess(SIGKILL)] throws inside the callback of the
    grace timer (lines 598-603), [resolve()] is not reached.  The
    exception leaves the callback uncaught (the [try] of [stop] does not
    cover the timer callback), the manager is unchanged, and the
    activation of [stop] stays pending: it cannot continue, the timer does
    not fire again, and only the "close" event of the child it listens to
    resolves it. *)
Theorem X24_stop_stays_pending_when_sigkill_throws
    (h : Host) (w : World) (s c c' : nat) (deadline : Z) :
  stops w !! s = Some (StWait c (Some deadline)) -> deadline <= now w ->
  process (mgr w) = Some c' -> killProcess h c' SIGKILL = None ->
  exists w',
    step h w (GraceTimer s) = Some w'
    /\ uncaught w' = S (uncaught w)
    /\ mgr w' = mgr w
    /\ stops w' !! s = Some (StWait c None)
    /\ step h w' (StopResume s) = None
    /\ step h w' (GraceTimer s) = None
    /\ (forall ch code,
          children w' !! c = Some ch -> c_closed ch = false -> s ∈ c_onceClose ch ->
          exists w'', step h w' (ChildClose c code) = Some w''
                      /\ stops w'' !! s = Some StResolved
                      /\ process (mgr w'') = None).
Proof.
  intros Hs Hdl Hp Hk.
  destruct (grace_timer_throws h w s c c' deadline Hs Hdl Hp Hk)
    as (w' & Hstep & Hs' & Hu & Hm).
  exists w'. split; [exact Hstep|]. split; [exact Hu|]. split; [exact Hm|].
  split; [exact Hs'|].
  split; [simpl; rewrite Hs'; reflexivity|].
  split; [simpl; rewrite Hs'; reflexivity|].
  intros ch code Hch Hopen Hin.
  destruct (child_close_facts h w' c ch code s Hch Hopen Hin)
    as (w'' & Hstep'' & Hres & Hproc & _); [rewrite Hs'; exact I|].
  exists w''. auto.
Qed.

(** The machine of the examples when only SIGKILL cannot be sent. *)
Definition host_sigkill_throws : Host :=
  mkHost "linux" "x64" None "/app/src/helpers" (Some "/usr/bin")
    (existsSync Demo.host) (fun _ => true) Demo.join Demo.dir_of Demo.base_of
    false None
    (fun _ sig => match sig with SIGTERM => Some true | SIGKILL => None end).

(** [stop] was called on the ready supervisor and the grace period went by. *)
Definition stopping_world : World :=
  Eval vm_compute in
    default initial_world (run host_sigkill_throws ready_world [CallStop; Advance 5000]).

Lemma X24_sigkill_throws_witness :
  exists w',
    step host_sigkill_throws stopping_world (GraceTimer 0) = Some w'
    /\ uncaught w' = 1%nat
    /\ step host_sigkill_throws w' (StopResume 0) = None.
Proof.
  destruct (X24_stop_stays_pending_when_sigkill_throws host_sigkill_throws
              stopping_world 0 0 0 5000)
    as (w' & Hstep & Hu & _ & _ & Hres & _);
    [reflexivity | vm_compute; discriminate | reflexivity | reflexivity |].
  exists w'. split; [exact Hstep|]. split; [exact Hu | exact Hres].
Defined.

(** * What a running status comes with *)

Lemma run_preserves (h : Host) (P : World -> Prop) :
  (forall w w' e, step h w e = Some w' -> P w -> P w') ->
  forall es w w', run h w es = Some w' -> P w -> P w'.
Proof.
  intros Hstep es. induction es as [|e es IH]; intros w w' Hrun HP; simpl in Hrun.
  - injection Hrun as <-. exact HP.
  - destruct (step h w e) as [w1|] eqn:He; [|discriminate].
    exact (IH w1 w' Hrun (Hstep w w1 e He HP)).
Qed.

(** Whenever a child handle is held, a model path is set. *)
Definition owned_has_model (m : Manager) : Prop :=
  is_Some (process m) -> is_Some (modelPath m).

(** [m'] holds the same handle and model path as [m], or no handle. *)
Definition model_kept (m m' : Manager) : Prop :=
  process m' = None \/ (process m' = process m /\ modelPath m' = modelPath m).

Lemma model_kept_invariant (m m' : Manager) :
  model_kept m m' -> owned_has_model m -> owned_has_model m'.
Proof.
  unfold owned_has_model. intros [Hnone|[Hp Hmp]] Hinv.
  - rewrite Hnone. intros [? ?]. discriminate.
  - rewrite Hp, Hmp. exact Hinv.
Qed.

Lemma model_kept_of_caches (m m' : Manager) :
  same_but_caches m m' -> model_kept m m'.
Proof. intros (Hp & _ & _ & Hmp & _). right. split; assumption. Qed.

Section HandleAndModel.
Variable h : Host.

Lemma stop_call_model_kept (w : World) : model_kept (mgr w) (mgr (stop_call h w).1).
Proof.
  unfold stop_call.
  destruct (stopHealthCheck_fields (mgr w)) as (Hp & _ & _ & Hmp & _).
  destruct (process (stopHealthCheck (mgr w))) as [c|] eqn:Hproc.
  - destruct (killProcess h c SIGTERM).
    + right. unfold signalled. fields. rewrite Hproc, Hmp, <- Hp. auto.
    + left. reflexivity.
  - left. fields. exact Hproc.
Qed.

Lemma start_launch_model_kept (model : string) (o : Options) (w : World) :
  model_kept (mgr w) (mgr (start_launch h model o w).1).
Proof.
  unfold start_launch.
  pose proof (resolve_binary_caches h (useCuda_or_false o) (mgr w)) as Hc.
  destruct (resolve_binary h (useCuda_or_false o) (mgr w)) as [[b a] m1] eqn:Hres.
  rewrite (doStart_call_cases h model o w b a m1 Hres).
  destruct Hc as (Hp & _ & _ & Hmp & _). cbn [snd] in Hp, Hmp. fields.
  right. destruct (negb (truthy b)); fields; split; assumption.
Qed.

Lemma start_call_model_kept (model : string) (o : Options) (w : World) :
  model_kept (mgr w) (mgr (start_call h model o w)).
Proof.
  unfold start_call.
  destruct (startupPromise (mgr w)); [right; split; reflexivity|].
  destruct (_ && _); [right; split; reflexivity|].
  destruct (process (mgr w)).
  - pose proof (stop_call_model_kept w) as Hk.
    destruct (stop_call h w) as [w1 s]. exact Hk.
  - pose proof (start_launch_model_kept model o w) as Hk.
    destruct (start_launch h model o w) as [w1 ph]. exact Hk.
Qed.

(** Every step of the event loop keeps the invariant. *)
Lemma step_owned_has_model (w w' : World) (e : Event) :
  step h w e = Some w' -> owned_has_model (mgr w) -> owned_has_model (mgr w').
Proof.
  intros Hstep Hinv. destruct e; simpl in Hstep.
  - injection Hstep as <-. exact (model_kept_invariant _ _ (start_call_model_kept _ _ w) Hinv).
  - injection Hstep as <-. exact (model_kept_invariant _ _ (stop_call_model_kept w) Hinv).
  - injection Hstep as <-. fields.
    destruct (getStatus_fields h (mgr w)) as (_ & _ & _ & _ & _ & Hc).
    exact (model_kept_invariant _ _ (model_kept_of_caches _ _ Hc) Hinv).
  - destruct (doStarts w !! d) as [op|] eqn:Hd; [|discriminate].
    destruct (d_phase op); try discriminate. injection Hstep as <-.
    unfold doStart_probed. destruct bound; [|exact Hinv].
    rewrite (doStart_spawn_eq h w d op _ Hd). fields.
    destruct (spawned_manager_fields h op port0 (length (children w)) (mgr w))
      as (_ & _ & Hmp & _).
    unfold owned_has_model. rewrite Hmp. intros _. eexists. reflexivity.
  - destruct (doStarts w !! d) as [op|]; [|discriminate].
    destruct (d_phase op); try discriminate. injection Hstep as <-.
    unfold waitForReady_probed. destruct ok; [|exact Hinv].
    fields. destruct (stopHealthCheck_fields (set_ready true (mgr w)))
      as (Hp & _ & _ & Hmp & _).
    unfold owned_has_model. fields. rewrite Hp, Hmp. exact Hinv.
  - destruct (doStarts w !! d) as [op|]; [|discriminate].
    destruct (d_phase op); try discriminate.
    destruct (_ <=? _); [|discriminate]. injection Hstep as <-. exact Hinv.
  - destruct (children w !! c) as [ch|] eqn:Hch; [|discriminate].
    destruct (c_closed ch) eqn:Hopen; [discriminate|].
    destruct (child_close_step h w c ch code Hch Hopen) as (w1 & Hstep1 & Hm1 & _).
    simpl in Hstep1. rewrite Hch, Hopen in Hstep1. rewrite Hstep1 in Hstep.
    injection Hstep as <-. rewrite Hm1.
    destruct (closed_manager_fields (mgr w)) as (Hp & _). cbv zeta in Hp.
    unfold owned_has_model. rewrite Hp. intros [? ?]. discriminate.
  - destruct (children w !! c); [|discriminate]. injection Hstep as <-. exact Hinv.
  - destruct (children w !! c) as [ch|]; [|discriminate].
    destruct (c_closed ch); [discriminate|]. injection Hstep as <-. exact Hinv.
  - destruct (stops w !! s) as [[c [deadline|]| |]|]; try discriminate.
    destruct (_ <=? _); [|discriminate]. injection Hstep as <-.
    unfold stop_timeout. destruct (process (mgr w)) as [c'|] eqn:Hproc.
    + destruct (killProcess h c' SIGKILL); unfold signalled; fields; exact Hinv.
    + exact Hinv.
  - destruct (stops w !! s) as [[| |]|]; try discriminate. injection Hstep as <-.
    unfold stop_resume, owned_has_model. fields. intros [? ?]. discriminate.
  - destruct (starts w !! t) as [a|]; [|discriminate].
    destruct (s_phase a); try discriminate.
    destruct (stops w !! s) as [[| |]|]; try discriminate. injection Hstep as <-.
    unfold start_after_stop.
    pose proof (start_launch_model_kept (s_modelPath a) (s_options a) w) as Hk.
    destruct (start_launch h _ _ w) as [w1 ph].
    exact (model_kept_invariant _ _ Hk Hinv).
  - destruct (starts w !! t) as [a|]; [|discriminate].
    destruct (s_phase a); try discriminate.
    destruct (d_phase <$> doStarts w !! d) as [[| | |r]|]; try discriminate.
    injection Hstep as <-. exact Hinv.
  - destruct (healthCheckInterval (mgr w)) eqn:Hh; [|discriminate].
    injection Hstep as <-. unfold healthCheck_tick.
    destruct (process (mgr w)) eqn:Hproc; [exact Hinv|]. fields.
    destruct (stopHealthCheck_fields (mgr w)) as (Hp & _).
    unfold owned_has_model. rewrite Hp, Hproc. intros [? ?]. discriminate.
  - destruct (monitorProbes w); [discriminate|]. injection Hstep as <-.
    unfold healthCheck_result. destruct ok; exact Hinv.
  - destruct (_ <=? _); [|discriminate]. injection Hstep as <-. exact Hinv.
Qed.

End HandleAndModel.

(** X25: in every execution from a freshly constructed manager, a status
    that reports [running] also reports a port between 8178 and 8199 and
    a model path: the handle is only assigned after both (lines 298-334),
    and nothing clears them while the handle is held. *)
Theorem X25_running_status_has_port_and_model
    (h : Host) (es : list Event) (w' : World) :
  run h initial_world es = Some w' ->
  st_running (getStatus h (mgr w')).1 = true ->
  exists p model,
    st_port (getStatus h (mgr w')).1 = Some p
    /\ PORT_RANGE_START <= p <= PORT_RANGE_END
    /\ st_modelPath (getStatus h (mgr w')).1 = Some model.
Proof.
  intros Hrun Hrunning.
  destruct (getStatus_fields h (mgr w')) as (Hr & Hport & Hmp & _).
  rewrite Hr in Hrunning. apply andb_true_iff in Hrunning. destruct Hrunning as [_ Hproc].
  apply bool_decide_eq_true in Hproc.
  assert (Howned : is_Some (process (mgr w'))).
  { destruct (process (mgr w')) as [c|]; [eexists; reflexivity | contradiction]. }
  assert (Hinit : forall P : Prop, is_Some (process (mgr initial_world)) -> P).
  { intros P [? Hnone]. discriminate Hnone. }
  pose proof (run_preserves h (fun v => owned_has_port (mgr v))
                (step_owned_has_port h) es initial_world w' Hrun (Hinit _) Howned)
    as [p Hp].
  pose proof (run_preserves h (fun v => owned_has_model (mgr v))
                (step_owned_has_model h) es initial_world w' Hrun (Hinit _) Howned)
    as [model Hmodel].
  assert (Hrange : ports_in_range initial_world).
  { split; [discriminate|]. intros d op q Hd. destruct d; discriminate Hd. }
  pose proof (run_preserves h ports_in_range (step_ports_in_range h) es initial_world w'
                Hrun Hrange) as [Hin _].
  exists p, model. rewrite Hport, Hmp. split; [exact Hp|]. split; [|exact Hmodel].
  exact (Hin p Hp).
Qed.

Lemma X25_running_status_witness :
  exists p model,
    st_port (getStatus Demo.host (mgr ready_world)).1 = Some p
    /\ PORT_RANGE_START <= p <= PORT_RANGE_END
    /\ st_modelPath (getStatus Demo.host (mgr ready_world)).1 = Some model.
Proof.
  apply (X25_running_status_has_port_and_model Demo.host ready_run ready_world).
  - vm_compute. reflexivity.
  - vm_compute. reflexivity.
Defined.
